(** * torchtree / phylotorch core: a shallow embedding and its properties

    The development follows the two core source files
    - [phylotorch/core/utils.py]: [tensor_rand], [get_class],
      [process_object], [process_objects], [validate], [remove_comments],
      [replace_star_with_str], [expand_plates], [update_parameters];
    - [phylotorch/core/model.py]: [Parameter], [TransformedParameter] and the
      listener protocol, [Parameter.from_json].

    Python values are embedded as follows.  A parsed JSON document is the
    inductive type [json]; a [dict] of the document is the list of its items
    in insertion order; the registry [dic] is a [gmap string _]; exceptions
    are values of [exn] and a call returns an [outcome]; objects that are
    mutated and shared (parameters and their listeners) live in a store
    addressed by natural numbers. *)

From Stdlib Require Import ZArith Ascii String List DecimalString DecimalPos DecimalZ.
From stdpp Require Import gmap strings list.

Local Open Scope string_scope.

(** ** Exceptions and results of calls

    A call returns a value or raises.  [Unmodelled] marks a call on an input
    that the embedding does not cover: nothing is stated about such a call. *)

Inductive exn :=
| JSONParseError (msg : string)
| KeyError (key : string)
| IndexError
| ValueError (msg : string)
| TypeError (msg : string)
| AttributeError (msg : string)
| ModuleNotFoundError (msg : string)
| ZeroDivisionError
| UnboundLocalError (var : string)
| RuntimeError (msg : string)
| Exception_ (msg : string)
| Unmodelled (what : string).

Inductive outcome (A : Type) :=
| Ok (a : A)
| Raise (e : exn).
Arguments Ok {A} a.
Arguments Raise {A} e.

Definition obind {A B} (m : outcome A) (k : A -> outcome B) : outcome B :=
  match m with
  | Ok a => k a
  | Raise e => Raise e
  end.

Declare Scope py_scope.
Delimit Scope py_scope with py.
Notation "'let!' x ':=' m 'in' k" := (obind m (fun x => k))
  (at level 10, x pattern, m at level 100, k at level 200) : py_scope.
Local Open Scope py_scope.

(** [[f(a) for a in l]], stopping at the first call that raises. *)
Section OmapList.
Context {A B : Type} (f : A -> outcome B).

Fixpoint omap_list (l : list A) : outcome (list B) :=
  match l with
  | [] => Ok []
  | a :: l' =>
      let! b := f a in
      let! bs := omap_list l' in
      Ok (b :: bs)
  end.

End OmapList.

(** ** Python strings *)

Module PyStr.

Definition chr_in (cs : string) (c : ascii) : bool :=
  existsb (Ascii.eqb c) (list_ascii_of_string cs).

(** [c in s] for a one-character [c]. *)
Definition contains (c : ascii) (s : string) : bool := chr_in s c.

(** [s.split(c)] for a one-character separator, and [re.split(r'[cs]', s)]
    for a character class: the pieces between the separators, empty pieces
    included. *)
Fixpoint split_on (p : ascii -> bool) (s : string) : list string :=
  match s with
  | EmptyString => [EmptyString]
  | String c s' =>
      if p c then EmptyString :: split_on p s'
      else match split_on p s' with
           | [] => [String c EmptyString]
           | w :: ws => String c w :: ws
           end
  end.

Definition split (c : ascii) (s : string) : list string :=
  split_on (Ascii.eqb c) s.

Definition rev (s : string) : string :=
  string_of_list_ascii (List.rev (list_ascii_of_string s)).

Fixpoint lstrip_on (p : ascii -> bool) (s : string) : string :=
  match s with
  | EmptyString => EmptyString
  | String c s' => if p c then lstrip_on p s' else s
  end.

Definition rstrip_on (p : ascii -> bool) (s : string) : string :=
  rev (lstrip_on p (rev s)).

(** [s.rstrip(cs)] *)
Definition rstrip (cs : string) (s : string) : string := rstrip_on (chr_in cs) s.

Definition is_space (c : ascii) : bool :=
  let n := nat_of_ascii c in
  (n =? 32)%nat || ((9 <=? n)%nat && (n <=? 13)%nat).

(** [s.strip()] *)
Definition strip (s : string) : string :=
  rstrip_on is_space (lstrip_on is_space s).

(** [s[-1]]: the last character, [None] for the empty string
    (where Python raises [IndexError]). *)
Fixpoint last (s : string) : option ascii :=
  match s with
  | EmptyString => None
  | String c EmptyString => Some c
  | String _ s' => last s'
  end.

(** [s[:-1]] *)
Fixpoint init (s : string) : string :=
  match s with
  | EmptyString => EmptyString
  | String _ EmptyString => EmptyString
  | String c s' => String c (init s')
  end.

(** [s.endswith(suffix)] *)
Definition endswith (suffix s : string) : bool :=
  String.prefix (rev suffix) (rev s).

(** [s[0]], a one-character string, [None] where Python raises. *)
Definition first (s : string) : option string :=
  match s with
  | EmptyString => None
  | String c _ => Some (String c EmptyString)
  end.

(** [sep.join(l)] *)
Fixpoint join (sep : string) (l : list string) : string :=
  match l with
  | [] => EmptyString
  | [w] => w
  | w :: ws => w ++ sep ++ join sep ws
  end.

(** [str(i)] for an integer. *)
Definition str (i : Z) : string := NilZero.string_of_int (Z.to_int i).

Definition is_digit (c : ascii) : bool :=
  let n := nat_of_ascii c in (48 <=? n)%nat && (n <=? 57)%nat.

(** Digit groups may be separated by single underscores: [1_000]. *)
Fixpoint digits_ok (prev_digit : bool) (s : string) : bool :=
  match s with
  | EmptyString => prev_digit
  | String c s' =>
      if is_digit c then digits_ok true s'
      else if Ascii.eqb c "_" then prev_digit && digits_ok false s'
      else false
  end.

Fixpoint drop_underscores (s : string) : string :=
  match s with
  | EmptyString => EmptyString
  | String c s' =>
      if Ascii.eqb c "_" then drop_underscores s' else String c (drop_underscores s')
  end.

Definition unsigned (s : string) : option Z :=
  if digits_ok false s
  then option_map Z.of_uint (NilEmpty.uint_of_string (drop_underscores s))
  else None.

(** [int(s)] on an ASCII string: surrounding white space, an optional
    sign, decimal digits.  [None] where Python raises [ValueError]. *)
Definition int (s : string) : option Z :=
  match strip s with
  | String "-" s' => option_map Z.opp (unsigned s')
  | String "+" s' => unsigned s'
  | s' => unsigned s'
  end.

End PyStr.

(** ** Parsed JSON documents

    [json.load] yields [None], booleans, integers, floats, strings, lists and
    dicts.  A float is kept as the decimal literal [m * 10^e]; no arithmetic is
    done on it.  A dict is the list of its items in insertion order (keys are
    unique). *)

Set Warnings "-register-all".

Inductive number :=
| NInt (z : Z)
| NFloat (m e : Z).

Inductive json :=
| JNull
| JBool (b : bool)
| JNum (n : number)
| JStr (s : string)
| JList (l : list json)
| JDict (items : list (string * json)).

Global Instance number_eq_dec : EqDecision number.
Proof. solve_decision. Defined.

Module Dict.

(** [d.get(k)] / [d[k]] *)
Fixpoint get (k : string) (items : list (string * json)) : option json :=
  match items with
  | [] => None
  | (k', v) :: items' => if String.eqb k k' then Some v else get k items'
  end.

(** [k in d] *)
Definition mem (k : string) (items : list (string * json)) : bool :=
  match get k items with Some _ => true | None => false end.

(** [d[k]], raising [KeyError]. *)
Definition item (k : string) (items : list (string * json)) : outcome json :=
  match get k items with
  | Some v => Ok v
  | None => Raise (KeyError k)
  end.

(** The dict without the keys of [ks]. *)
Definition without (ks : list string) (items : list (string * json))
  : list (string * json) :=
  List.filter (fun kv => negb (existsb (String.eqb (fst kv)) ks)) items.

End Dict.

(** The name Python prints for the type of a value. *)
Definition type_name (j : json) : string :=
  match j with
  | JNull => "NoneType"
  | JBool _ => "bool"
  | JNum (NInt _) => "int"
  | JNum (NFloat _ _) => "float"
  | JStr _ => "str"
  | JList _ => "list"
  | JDict _ => "dict"
  end.

(** Truth value of a document value ([if data['nn']]). *)
Definition truthy (j : json) : bool :=
  match j with
  | JNull => false
  | JBool b => b
  | JNum (NInt z) => negb (z =? 0)%Z
  | JNum (NFloat m _) => negb (m =? 0)%Z
  | JStr s => negb (String.eqb s "")
  | JList l => match l with [] => false | _ => true end
  | JDict d => match d with [] => false | _ => true end
  end.

(** ** The interpreter's environment

    What the source takes from outside the two files: the random fillers of
    [torch] and [float(p)], [importlib.import_module] and [getattr], the
    factory [from_json_safe] of a resolved class (serializable.py), and the
    text [str.format] prints for a document value. *)

Class TorchRandom (tensor dtype shape float : Type) := {
  py_float : string -> option float;
  normal_ : shape -> dtype -> list float -> outcome tensor;
  log_normal_ : shape -> dtype -> list float -> outcome tensor;
  uniform_ : shape -> dtype -> list float -> outcome tensor;
  random_ : shape -> dtype -> list float -> outcome tensor;
  bernoulli_ : shape -> dtype -> list float -> outcome tensor;
}.

Class Importer (pymodule klass : Type) := {
  import_module : string -> outcome pymodule;
  getattr : pymodule -> string -> outcome klass;
}.

Class Factory (klass object : Type) := {
  from_json_safe :
    klass -> json -> gmap string object -> outcome object * gmap string object;
  format_json : json -> string;
}.

(** ** [tensor_rand] (utils.py) *)

Section TensorRand.
Context {tensor dtype shape float : Type} `{!TorchRandom tensor dtype shape float}.

Definition nonempty (s : string) : bool :=
  match s with EmptyString => false | _ => true end.

(** [[float(p) for p in temp[1:]]] *)
Definition parse_params (ps : list string) : outcome (list float) :=
  omap_list (fun p => match py_float p with
                      | Some x => Ok x
                      | None => Raise (ValueError ("could not convert string to float: " ++ p))
                      end) ps.

(** [name[0] == lit]: the first character of [name], as a string,
    compared with the literal. *)
Definition first_eq (name lit : string) : outcome bool :=
  match PyStr.first name with
  | Some c => Ok (String.eqb c lit)
  | None => Raise IndexError
  end.

Definition invalid_distribution (name distribution : string) : exn :=
  Exception_ (name ++ " is not a valid distribution to initialize tensor. input: "
              ++ distribution).

Definition tensor_rand (distribution : string) (dt : dtype) (sh : shape)
  : outcome tensor :=
  let temp := List.filter nonempty (PyStr.split_on (PyStr.chr_in "(),") distribution) in
  match temp with
  | [] => Raise IndexError
  | name :: rest =>
      let! params := (match rest with [] => Ok [] | _ => parse_params rest end) in
      if String.eqb name "normal" then normal_ sh dt params
      else
        let! b := first_eq name "log_normal" in
        if b then log_normal_ sh dt params
        else
          let! b := first_eq name "uniform" in
          if b then uniform_ sh dt params
          else
            let! b := first_eq name "random" in
            if b then random_ sh dt params
            else
              let! b := first_eq name "bernoulli" in
              if b then bernoulli_ sh dt params
              else Raise (invalid_distribution name distribution)
  end.

(** The name a directive carries: [temp[0]]. *)
Definition directive_name (distribution : string) : option string :=
  head (List.filter nonempty (PyStr.split_on (PyStr.chr_in "(),") distribution)).

End TensorRand.

(** ** [get_class], [process_object], [process_objects] (utils.py) *)

Section Resolver.
Context {pymodule klass object : Type}
        `{!Importer pymodule klass} `{!Factory klass object}.

Definition get_class (full_name : string) : outcome klass :=
  let a := PyStr.split "." full_name in
  let class_name := List.last a EmptyString in
  let module_name := PyStr.join "." (removelast a) in
  let! module := import_module module_name in
  getattr module class_name.

(** [get_class(v)] for a document value [v]: only a string has [split]. *)
Definition get_class_of (v : json) : outcome klass :=
  match v with
  | JStr full_name => get_class full_name
  | _ => Raise (AttributeError
                  ("'" ++ type_name v ++ "' object has no attribute 'split'"))
  end.

(** [dic[key]] *)
Definition registry_item (dic : gmap string object) (key : string) : outcome object :=
  match dic !! key with
  | Some o => Ok o
  | None => Raise (KeyError key)
  end.

(** [for i in range(start, stop): obj = dic[stem + str(i)]], for the [n]
    indices from [i] on; [obj] is the variable as the loop leaves it. *)
Fixpoint range_loop (dic : gmap string object) (stem : string)
         (i : Z) (n : nat) (obj : option object) : outcome (option object) :=
  match n with
  | O => Ok obj
  | S n' =>
      let! o := registry_item dic (stem ++ PyStr.str i) in
      range_loop dic stem (i + 1) n' (Some o)
  end.

Definition not_found (data : string) : exn :=
  JSONParseError ("Object with ID `" ++ data ++ "' not found").

Definition already_exists (id_ : string) : exn :=
  JSONParseError ("Object with ID `" ++ id_ ++ "' already exists").

Definition no_type (id_ : string) : exn :=
  JSONParseError ("Object with ID `" ++ id_ ++ "' does not have a type").

Definition not_valid (data : json) : exn :=
  JSONParseError ("Object is not valid (should be str or object)" ++
                  String "010" "Provided: " ++ format_json data).

Definition to_int (s : string) : outcome Z :=
  match PyStr.int s with
  | Some z => Ok z
  | None => Raise (ValueError ("invalid literal for int() with base 10: '" ++ s ++ "'"))
  end.

Definition unpack_error : exn := ValueError "wrong number of values to unpack".

(** The body of the [try] block of the string case. *)
Definition reference_body (data : string) (dic : gmap string object)
  : outcome (option object) :=
  if PyStr.contains "{" data then
    match PyStr.split "{" data with
    | [stem; indices] =>
        match PyStr.split ":" (PyStr.rstrip "}" indices) with
        | [start; stop] =>
            let! a := to_int start in
            let! b := to_int stop in
            range_loop dic stem a (Z.to_nat (b - a)) None
        | _ => Raise unpack_error
        end
    | _ => Raise unpack_error
    end
  else
    let! o := registry_item dic data in Ok (Some o).

(** The string case: [except KeyError] turns a failed lookup into the
    parse error, and [return obj] reads the variable. *)
Definition process_reference (data : string) (dic : gmap string object)
  : outcome object :=
  match reference_body data dic with
  | Raise (KeyError _) => Raise (not_found data)
  | Raise e => Raise e
  | Ok (Some obj) => Ok obj
  | Ok None => Raise (UnboundLocalError "obj")
  end.

(** The registry is keyed by strings.  An [id] that is a list or a dict
    is unhashable; an [id] of another type would be searched and stored
    under a key that is not a string, which this embedding leaves out. *)
Definition process_object (data : json) (dic : gmap string object)
  : outcome object * gmap string object :=
  match data with
  | JStr ref => (process_reference ref dic, dic)
  | JDict items =>
      match Dict.get "id" items with
      | None => (Raise (KeyError "id"), dic)
      | Some (JStr id_) =>
          if decide (is_Some (dic !! id_)) then (Raise (already_exists id_), dic)
          else if negb (Dict.mem "type" items) then (Raise (no_type id_), dic)
          else
            match obind (Dict.item "type" items) get_class_of with
            | Raise (ModuleNotFoundError m) =>
                (Raise (JSONParseError (m ++ " in object with ID '" ++ id_ ++ "'")), dic)
            | Raise (AttributeError m) =>
                (Raise (JSONParseError (m ++ " in object with ID '" ++ id_ ++ "'")), dic)
            | Raise e => (Raise e, dic)
            | Ok klass_ =>
                match from_json_safe klass_ data dic with
                | (Ok obj, dic') => (Ok obj, <[id_ := obj]> dic')
                | (Raise e, dic') => (Raise e, dic')
                end
            end
      | Some (JList _) => (Raise (TypeError "unhashable type: 'list'"), dic)
      | Some (JDict _) => (Raise (TypeError "unhashable type: 'dict'"), dic)
      | Some _ => (Raise (Unmodelled "id is not a string"), dic)
      end
  | _ => (Raise (not_valid data), dic)
  end.

(** [[process_object(obj, dic) for obj in data]] *)
Fixpoint process_list (data : list json) (dic : gmap string object)
  : outcome (list object) * gmap string object :=
  match data with
  | [] => (Ok [], dic)
  | x :: data' =>
      match process_object x dic with
      | (Raise e, dic') => (Raise e, dic')
      | (Ok o, dic') =>
          match process_list data' dic' with
          | (Raise e, dic'') => (Raise e, dic'')
          | (Ok os, dic'') => (Ok (o :: os), dic'')
          end
      end
  end.

Definition process_objects (data : json) (dic : gmap string object)
  : outcome (object + list object) * gmap string object :=
  match data with
  | JList l =>
      match process_list l dic with
      | (Ok os, dic') => (Ok (inr os), dic')
      | (Raise e, dic') => (Raise e, dic')
      end
  | _ =>
      match process_object data dic with
      | (Ok o, dic') => (Ok (inl o), dic')
      | (Raise e, dic') => (Raise e, dic')
      end
  end.

End Resolver.

(** A reference [stem{start:stop}], by the pieces the source cuts it into:
    [data.split('{')], [indices.rstrip('}').split(':')], [int(start)] and
    [int(stop)]. *)
Definition range_reference (data stem : string) (a b : Z) : Prop :=
  PyStr.contains "{" data = true /\
  exists indices start stop,
    PyStr.split "{" data = [stem; indices] /\
    PyStr.split ":" (PyStr.rstrip "}" indices) = [start; stop] /\
    PyStr.int start = Some a /\ PyStr.int stop = Some b.

(** A reference as [str] prints its bounds: [stem{a:b}]. *)
Definition canonical_reference (stem : string) (a b : Z) : string :=
  stem ++ "{" ++ PyStr.str a ++ ":" ++ PyStr.str b ++ "}".

(** The characters of the decimal notation of an integer. *)
Definition numeral_char (c : ascii) : bool :=
  PyStr.is_digit c || Ascii.eqb c "-".

(** ** Tensors and [Parameter] (model.py)

    A tensor is its shape, its dtype (whatever [get_class] resolved), its
    elements in row-major order and the gradient flag.  An element is a
    number: the value that torch stores for a Python number at the tensor's
    dtype is given by [cast] of the environment (the rounding that the dtype
    implies, or the error for a number outside its range); 0 and 1, which
    [zeros], [ones] and [eye] write and every dtype holds, are [NInt 0] and
    [NInt 1]. *)

Record Tensor (klass : Type) := mkTensor {
  t_shape : list Z;
  t_dtype : klass;
  t_values : list number;
  t_requires_grad : bool;
}.
Arguments mkTensor {klass}.
Arguments t_shape {klass}.
Arguments t_dtype {klass}.
Arguments t_values {klass}.
Arguments t_requires_grad {klass}.

(** [Parameter(id_, tensor)]: [_id], [_tensor] and the listener list (the
    listeners are references into the store of objects).  [Parameter] is a
    reserved word, hence the underscore. *)
Record Parameter_ (tensor : Type) := mkParameter {
  _id : option string;
  _tensor : tensor;
  listeners : list nat;
}.
Arguments mkParameter {tensor}.
Arguments _id {tensor}.
Arguments _tensor {tensor}.
Arguments listeners {tensor}.

(** An object of the registry: a [Parameter], or an instance of another
    class whose attributes [tensor], [dtype] and [shape] are given by the
    environment. *)
Inductive node (klass other : Type) :=
| NodeParameter (p : Parameter_ (Tensor klass))
| NodeOther (o : other).
Arguments NodeParameter {klass other}.
Arguments NodeOther {klass other}.

(** What the environment knows of a class: whether it is a [torch.dtype],
    whether a tensor of this dtype can require gradients (the floating point
    and complex dtypes), and the element a tensor of this dtype holds for a
    Python number (a float is truncated at an integer dtype, a number is
    rounded to the precision of the dtype; a number outside the range of the
    dtype is an error). *)
Class Attributes (klass other : Type) := {
  is_dtype : klass -> bool;
  can_require_grad : klass -> bool;
  cast : klass -> number -> outcome number;
  other_tensor : other -> outcome (Tensor klass);
  other_dtype : other -> outcome klass;
  other_shape : other -> outcome (list Z);
}.

(** The shape and the elements, in row-major order, of a nested list of
    numbers (what [torch.tensor] and [np.array] make of a document value). *)
Fixpoint nested (v : json) : outcome (list Z * list number) :=
  match v with
  | JNum n => Ok ([], [n])
  | JBool b => Ok ([], [NInt (if b then 1 else 0)])
  | JList l =>
      let! rows := omap_list nested l in
      match rows with
      | [] => Ok ([0%Z], [])
      | (sh, _) :: _ =>
          if forallb (fun r => bool_decide (fst r = sh)) rows
          then Ok (Z.of_nat (length rows) :: sh, flat_map snd rows)
          else Raise (ValueError "expected sequence of equal length")
      end
  | _ => Raise (TypeError "not a sequence of numbers")
  end.

Module Torch.
Section Torch.
Context {klass other : Type} `{!Attributes klass other}.

Definition numel (size : list Z) : Z := fold_right Z.mul 1%Z size.

(** A fresh tensor of the given size filled with [fill], the fill value
    converted to the dtype (an error when the conversion fails). *)
Definition filled (size : list Z) (fill : outcome number) (dtype : klass)
  : outcome (Tensor klass) :=
  if negb (is_dtype dtype) then Raise (TypeError "dtype must be a torch.dtype")
  else if existsb (fun d => (d <? 0)%Z) size
  then Raise (RuntimeError "negative dimension")
  else
    let! x := fill in
    Ok (mkTensor size dtype (replicate (Z.to_nat (numel size)) x) false).

(** A shape written in the document: a list of integers. *)
Definition size_of_json (v : json) : outcome (list Z) :=
  match v with
  | JList l =>
      omap_list (fun x => match x with
                          | JNum (NInt z) => Ok z
                          | JBool b => Ok (if b then 1 else 0)%Z
                          | _ => Raise (TypeError "size must be a sequence of ints")
                          end) l
  | _ => Raise (TypeError "size must be a sequence of ints")
  end.

(** A shape or a single integer ([torch.zeros(3)]). *)
Definition varsize_of_json (v : json) : outcome (list Z) :=
  match v with
  | JNum (NInt z) => Ok [z]
  | JBool b => Ok [if b then 1 else 0]%Z
  | _ => size_of_json v
  end.

Definition scalar_of_json (v : json) : outcome number :=
  match v with
  | JNum n => Ok n
  | JBool b => Ok (NInt (if b then 1 else 0))
  | _ => Raise (TypeError "fill_value must be a number")
  end.

(** [torch.full(size, fill_value, dtype=dtype)] *)
Definition full (size fill_value : json) (dtype : klass) : outcome (Tensor klass) :=
  let! sz := size_of_json size in
  let! x := scalar_of_json fill_value in
  filled sz (cast dtype x) dtype.

(** [torch.zeros(size, dtype=dtype)] *)
Definition zeros (size : json) (dtype : klass) : outcome (Tensor klass) :=
  let! sz := varsize_of_json size in filled sz (Ok (NInt 0)) dtype.

(** [torch.ones(size, dtype=dtype)] *)
Definition ones (size : json) (dtype : klass) : outcome (Tensor klass) :=
  let! sz := varsize_of_json size in filled sz (Ok (NInt 1)) dtype.

(** [torch.eye(n, dtype=dtype)]: the [n] by [n] identity matrix. *)
Definition eye (size : json) (dtype : klass) : outcome (Tensor klass) :=
  match size with
  | JNum (NInt n) =>
      if negb (is_dtype dtype) then Raise (TypeError "dtype must be a torch.dtype")
      else if (n <? 0)%Z then Raise (RuntimeError "n must be greater or equal to 0")
      else
        let k := Z.to_nat n in
        Ok (mkTensor [n; n] dtype
              (flat_map (fun i => map (fun j => NInt (if Nat.eqb i j then 1 else 0)) (seq 0 k))
                        (seq 0 k))
              false)
  | _ => Raise (TypeError "eye(): argument 'n' must be int")
  end.

(** [torch.full_like(input, fill_value, dtype=dtype)] *)
Definition full_like (input : Tensor klass) (fill_value : json) (dtype : klass)
  : outcome (Tensor klass) :=
  let! x := scalar_of_json fill_value in
  filled (t_shape input) (cast dtype x) dtype.

Definition zeros_like (input : Tensor klass) (dtype : klass) : outcome (Tensor klass) :=
  filled (t_shape input) (Ok (NInt 0)) dtype.

Definition ones_like (input : Tensor klass) (dtype : klass) : outcome (Tensor klass) :=
  filled (t_shape input) (Ok (NInt 1)) dtype.

(** [torch.tensor(values, dtype=dtype)] for values of the document: every
    number is converted to the dtype. *)
Definition tensor (values : json) (dtype : klass) : outcome (Tensor klass) :=
  let! r := nested values in
  if negb (is_dtype dtype) then Raise (TypeError "dtype must be a torch.dtype")
  else
    let! elements := omap_list (cast dtype) (snd r) in
    Ok (mkTensor (fst r) dtype elements false).

(** [torch.tensor(a, dtype=dtype)] for a one-dimensional numpy array: every
    element of the array is converted to the dtype. *)
Definition tensor_of_array (a : list number) (dtype : klass) : outcome (Tensor klass) :=
  if negb (is_dtype dtype) then Raise (TypeError "dtype must be a torch.dtype")
  else
    let! elements := omap_list (cast dtype) a in
    Ok (mkTensor [Z.of_nat (length a)] dtype elements false).

(** [nn.Parameter(t)]: the tensor with [requires_grad] set, which torch
    refuses for a tensor whose dtype is neither floating point nor complex. *)
Definition nn_Parameter (t : Tensor klass) : outcome (Tensor klass) :=
  if can_require_grad (t_dtype t)
  then Ok (mkTensor (t_shape t) (t_dtype t) (t_values t) true)
  else Raise (RuntimeError
                "Only Tensors of floating point and complex dtype can require gradients").

(** The properties [tensor], [dtype] and [shape] of a registry object. *)
Definition tensor_of (o : node klass other) : outcome (Tensor klass) :=
  match o with
  | NodeParameter p => Ok (_tensor p)
  | NodeOther x => other_tensor x
  end.

Definition dtype_of (o : node klass other) : outcome klass :=
  match o with
  | NodeParameter p => Ok (t_dtype (_tensor p))
  | NodeOther x => other_dtype x
  end.

Definition shape_of (o : node klass other) : outcome (list Z) :=
  match o with
  | NodeParameter p => Ok (t_shape (_tensor p))
  | NodeOther x => other_shape x
  end.

End Torch.
End Torch.

(** ** numpy: [np.repeat(values, repeats)] and slicing

    [np.array] of a list of numbers whose integers fit in 64 bits is an
    array of [float64] as soon as one of them is a float, every integer
    converted, and an array of [int64] otherwise.  With a larger integer
    numpy falls back on other element types, which are not modelled.
    [np.repeat] flattens its input and repeats each element [repeats] times
    in a row.  The count the source passes is the float
    [dimension / len(values) + 1], which numpy truncates to an integer: for
    integers [d] and [l] this is the quotient of [d + l] by [l] rounded
    toward zero. *)

Module Np.

Definition is_float (x : number) : bool :=
  match x with NFloat _ _ => true | NInt _ => false end.

Definition is_int64 (x : number) : bool :=
  match x with
  | NInt z => (- 2 ^ 63 <=? z)%Z && (z <? 2 ^ 63)%Z
  | NFloat _ _ => true
  end.

(** The element of an array of [float64] ([float64 = true]) or of [int64]
    for a number of the list. *)
Definition element (float64 : bool) (x : number) : number :=
  match x with
  | NInt z => if float64 then NFloat z 0 else x
  | NFloat _ _ => x
  end.

(** The elements of [np.array(xs)]. *)
Definition array (xs : list number) : outcome (list number) :=
  if forallb is_int64 xs then Ok (map (element (existsb is_float xs)) xs)
  else Raise (Unmodelled "an integer outside int64 in a numpy array")%string.

(** The elements of [np.array(values)], flattened. *)
Definition flatten (v : json) : outcome (list number) :=
  let! r := nested v in array (snd r).

Definition repeat_each (xs : list number) (r : nat) : list number :=
  flat_map (fun x => replicate r x) xs.

(** [len(values)] *)
Definition len (v : json) : outcome Z :=
  match v with
  | JList l => Ok (Z.of_nat (length l))
  | JStr s => Ok (Z.of_nat (String.length s))
  | JDict d => Ok (Z.of_nat (length d))
  | _ => Raise (TypeError ("object of type '" ++ type_name v ++ "' has no len()"))
  end.

(** [np.repeat(values, d / l + 1)] *)
Definition repeat (values : json) (d l : Z) : outcome (list number) :=
  if (l =? 0)%Z then Raise ZeroDivisionError
  else
    let r := Z.quot (d + l) l in
    if (r <? 0)%Z then Raise (ValueError "repeats may not contain negative values.")
    else
      let! xs := flatten values in
      Ok (repeat_each xs (Z.to_nat r)).

(** [a[:d]] *)
Definition slice_to (a : list number) (d : Z) : list number :=
  if (d <? 0)%Z then take (length a - Z.to_nat (- d)) a
  else take (Z.to_nat d) a.

End Np.

(** ** [Parameter.from_json] (model.py)

    The factory threads the registry: resolving [full_like], [zeros_like]
    or [ones_like] goes through [process_object], which may construct and
    register an object. *)

(** The shape handed to [tensor_rand]: a [torch.Size] or a document value. *)
Inductive shape_arg :=
| SizeOf (size : list Z)
| SizeJson (v : json).

Section ParameterFromJson.
Context {pymodule klass other float : Type}
        `{!Importer pymodule klass} `{!Factory klass (node klass other)}
        `{!Attributes klass other}
        `{!TorchRandom (Tensor klass) klass shape_arg float}.

#[local] Abbreviation registry := (gmap string (node klass other)).

Definition R (A : Type) : Type := registry -> outcome A * registry.

Definition rbind {A B} (m : R A) (k : A -> R B) : R B :=
  fun dic => match m dic with
             | (Ok a, dic') => k a dic'
             | (Raise e, dic') => (Raise e, dic')
             end.

Definition lift {A} (m : outcome A) : R A := fun dic => (m, dic).

Notation "'do!' x ':=' m 'in' k" := (rbind m (fun x => k))
  (at level 10, x pattern, m at level 100, k at level 200).

(** [tensor_rand(data['rand'], dtype, shape)] *)
Definition rand_fill (data : list (string * json)) (dtype : klass) (sh : shape_arg)
  : outcome (Tensor klass) :=
  let! r := Dict.item "rand" data in
  match r with
  | JStr distribution => tensor_rand distribution dtype sh
  | _ => Raise (TypeError "expected string or bytes-like object")
  end.

(** [dtype if 'dtype' in data else input_param.dtype] *)
Definition like_dtype (data : list (string * json)) (dtype : klass)
           (input_param : node klass other) : outcome klass :=
  if Dict.mem "dtype" data then Ok dtype else Torch.dtype_of input_param.

(** [data['dimension']] as the integer it must be for the slice. *)
Definition dimension_of (v : json) : outcome Z :=
  match v with
  | JNum (NInt z) => Ok z
  | JBool b => Ok (if b then 1 else 0)%Z
  | JNum (NFloat _ _) => Raise (Unmodelled "dimension is a float")
  | _ => Raise (TypeError "unsupported operand type(s) for /")
  end.

(** The [if]/[elif] chain that builds the tensor [t]. *)
Definition construct (data : list (string * json)) (dtype : klass) : R (Tensor klass) :=
  if Dict.mem "full_like" data then
    do! ref := lift (Dict.item "full_like" data) in
    do! input_param := process_object ref in
    do! dtype := lift (like_dtype data dtype input_param) in
    if Dict.mem "rand" data then
      lift (let! r := Dict.item "rand" data in
            let! dt := Torch.dtype_of input_param in
            let! sh := Torch.shape_of input_param in
            rand_fill data dt (SizeOf sh))
    else
      lift (let! values := Dict.item "tensor" data in
            let! input := Torch.tensor_of input_param in
            Torch.full_like input values dtype)
  else if Dict.mem "full" data then
    lift (let! size := Dict.item "full" data in
          if Dict.mem "rand" data then rand_fill data dtype (SizeJson size)
          else
            let! values := Dict.item "tensor" data in
            Torch.full size values dtype)
  else if Dict.mem "zeros_like" data then
    do! ref := lift (Dict.item "zeros_like" data) in
    do! input_param := process_object ref in
    do! dtype := lift (like_dtype data dtype input_param) in
    lift (let! input := Torch.tensor_of input_param in
          Torch.zeros_like input dtype)
  else if Dict.mem "zeros" data then
    lift (let! size := Dict.item "zeros" data in Torch.zeros size dtype)
  else if Dict.mem "ones_like" data then
    do! ref := lift (Dict.item "ones_like" data) in
    do! input_param := process_object ref in
    do! dtype := lift (like_dtype data dtype input_param) in
    lift (let! input := Torch.tensor_of input_param in
          Torch.ones_like input dtype)
  else if Dict.mem "ones" data then
    lift (let! size := Dict.item "ones" data in Torch.ones size dtype)
  else if Dict.mem "eye" data then
    lift (let! size := Dict.item "eye" data in Torch.eye size dtype)
  else
    lift (let! values := Dict.item "tensor" data in
          if Dict.mem "dimension" data then
            let! dim := Dict.item "dimension" data in
            let! l := Np.len values in
            let! d := dimension_of dim in
            let! repeated := Np.repeat values d l in
            Torch.tensor_of_array (Np.slice_to repeated d) dtype
          else Torch.tensor values dtype).

(** [data['id']] as the [_id] of the new parameter. *)
Definition id_of (v : json) : outcome (option string) :=
  match v with
  | JStr s => Ok (Some s)
  | JNull => Ok None
  | _ => Raise (Unmodelled "id is not a string")
  end.

Definition from_json (data : list (string * json)) : R (Parameter_ (Tensor klass)) :=
  do! dtype := lift (get_class_of
                       (default (JStr "torch.float64") (Dict.get "dtype" data))) in
  do! t := construct data dtype in
  lift (let nn := match Dict.get "nn" data with
                  | Some v => truthy v
                  | None => false
                  end in
        let! i := Dict.item "id" data in
        let! t' := (if nn then Torch.nn_Parameter t else Ok t) in
        let! id_ := id_of i in
        Ok (mkParameter id_ t' [])).

End ParameterFromJson.

(** The directive keys, in the order the [if]/[elif] chain of
    [Parameter.from_json] tests them; the first one a mapping contains; the
    others. *)
Definition directives : list string :=
  ["full_like"; "full"; "zeros_like"; "zeros"; "ones_like"; "ones"; "eye"].

Definition first_directive (data : list (string * json)) : option string :=
  List.find (fun k => Dict.mem k data) directives.

Definition other_directives (k : string) : list string :=
  List.filter (fun k' => negb (String.eqb k k')) directives.

(** The two groups of the specification. *)
Definition group_a : list string := ["full_like"; "zeros_like"; "ones_like"].
Definition group_b : list string := ["full"; "zeros"; "ones"; "eye"].

(** ** Plates: [replace_star_with_str] and [expand_plates] (utils.py)

    Both functions mutate the document in place.  The document is a tree
    (no value is shared), so a call is rendered as the function from the
    value before to the value after. *)

Module Plates.

(** [if key == 'id' and obj[key][-1] == '*': obj[key] = obj[key][:-1] + value],
    for [v = obj['id']]. *)
Definition star_id (v : json) (value : string) : outcome json :=
  match v with
  | JStr s =>
      match PyStr.last s with
      | None => Raise IndexError
      | Some c => if Ascii.eqb c "*" then Ok (JStr (PyStr.init s ++ value)) else Ok v
      end
  | JList l =>
      match List.last (map Some l) None with
      | None => Raise IndexError
      | Some (JStr "*") => Raise (TypeError "can only concatenate list (not 'str') to list")
      | Some _ => Ok v
      end
  | JDict _ => Raise (KeyError "-1")
  | _ => Raise (TypeError ("'" ++ type_name v ++ "' object is not subscriptable"))
  end.

Fixpoint replace_star_with_str (obj : json) (value : string) : outcome json :=
  match obj with
  | JList l =>
      let! l' := omap_list (fun element => replace_star_with_str element value) l in
      Ok (JList l')
  | JDict items =>
      let! items' :=
        omap_list (fun kv =>
                     let! v' := replace_star_with_str (snd kv) value in
                     let! v'' := (if String.eqb (fst kv) "id" then star_id v' value
                                  else Ok v') in
                     Ok (fst kv, v''))
                  items in
      Ok (JDict items')
  | _ => Ok obj
  end.

(** [range] applied to the items of [r]. *)
Definition py_range (r : list Z) : outcome (list Z) :=
  match r with
  | [stop] => Ok (map (fun k => Z.of_nat k) (seq 0 (Z.to_nat stop)))
  | [start; stop] =>
      Ok (map (fun k => (start + Z.of_nat k)%Z) (seq 0 (Z.to_nat (stop - start))))
  | [start; stop; step] =>
      if (step =? 0)%Z then Raise (ValueError "range() arg 3 must not be zero")
      else
        let n := if (0 <? step)%Z
                 then Z.to_nat ((stop - start + step - 1) / step)
                 else Z.to_nat ((start - stop - step - 1) / (- step)) in
        Ok (map (fun k => (start + Z.of_nat k * step)%Z) (seq 0 n))
  | _ => Raise (TypeError "range expected at most 3 arguments")
  end.

Definition plate_error : exn := JSONParseError "plate works only when part of a list".

(** [r = list(map(int, obj['range'].split(':')))] *)
Definition plate_range (v : json) : outcome (list Z) :=
  match v with
  | JStr s =>
      omap_list (fun w => match PyStr.int w with
                          | Some z => Ok z
                          | None => Raise (ValueError
                              ("invalid literal for int() with base 10: '" ++ w ++ "'"))
                          end)
                (PyStr.split ":" s)
  | _ => Raise (AttributeError ("'" ++ type_name v ++ "' object has no attribute 'split'"))
  end.

(** The loop that fills [objects]: one clone of [obj['object']] per index,
    the stars of its ids replaced by the index. *)
Definition plate_objects (items : list (string * json)) (indices : list Z)
  : outcome (list json) :=
  omap_list (fun i =>
               let! clone := Dict.item "object" items in
               replace_star_with_str clone (PyStr.str i))
            indices.

(** What a call [expand_plates(obj, parent, idx)] does: it changes [obj] in
    place and leaves [parent] alone, or it replaces [parent[idx]] by a list
    of objects. *)
Inductive expanded :=
| InPlace (obj : json)
| Spliced (objects : list json).

(** [del parent[idx]; parent[idx:idx] = objects] *)
Definition splice (parent : list json) (idx : nat) (objects : list json) : list json :=
  (take idx parent ++ objects ++ drop (S idx) parent)%list.

Definition apply_expanded (parent : list json) (idx : nat) (r : expanded) : list json :=
  match r with
  | InPlace obj => <[idx := obj]> parent
  | Spliced objects => splice parent idx objects
  end.

(** A computation that may run out of fuel ([None]). *)
Definition fbind {A B} (m : option (outcome A)) (k : A -> option (outcome B))
  : option (outcome B) :=
  match m with
  | None => None
  | Some (Raise e) => Some (Raise e)
  | Some (Ok a) => k a
  end.

Notation "'let?' x ':=' m 'in' k" := (fbind m (fun x => k))
  (at level 10, x pattern, m at level 100, k at level 200).

(** [for i, element in enumerate(obj): body]: the list iterator reads the
    list again at each step, so elements spliced in behind the current
    index are visited too. *)
Fixpoint enumerate_loop (steps : nat)
         (body : list json -> nat -> json -> option (outcome (list json)))
         (i : nat) (obj : list json) : option (outcome (list json)) :=
  match obj !! i with
  | None => Some (Ok obj)
  | Some element =>
      match steps with
      | O => None
      | S steps' =>
          let? obj' := body obj i element in
          enumerate_loop steps' body (S i) obj'
      end
  end.

(** [for value in obj.values(): body] *)
Fixpoint values_loop (body : json -> option (outcome json))
         (items : list (string * json)) : option (outcome (list (string * json))) :=
  match items with
  | [] => Some (Ok [])
  | (key, value) :: items' =>
      let? value' := body value in
      let? r := values_loop body items' in
      Some (Ok ((key, value') :: r))
  end.

(** [expand_plates(obj, parent, idx)]; [in_list] says that [idx] is not
    [None].  The fuel bounds the depth of the calls and the steps of each
    loop. *)
Fixpoint expand_plates (fuel : nat) (obj : json) (in_list : bool)
  : option (outcome expanded) :=
  match fuel with
  | O => None
  | S fuel' =>
      match obj with
      | JList l =>
          let? l' := enumerate_loop fuel'
                       (fun parent i element =>
                          let? r := expand_plates fuel' element true in
                          Some (Ok (apply_expanded parent i r)))
                       0 l in
          Some (Ok (InPlace (JList l')))
      | JDict items =>
          let is_plate :=
            match Dict.get "type" items with
            | None => Ok false
            | Some (JStr ty) => Ok (PyStr.endswith "Plate" ty)
            | Some v => Raise (AttributeError
                          ("'" ++ type_name v ++ "' object has no attribute 'endswith'"))
            end in
          let? plate := Some is_plate in
          if plate then
            if Dict.mem "range" items then
              let? objects := Some (let! rg := Dict.item "range" items in
                                    let! r := plate_range rg in
                                    let! indices := py_range r in
                                    plate_objects items indices) in
              if in_list then Some (Ok (Spliced objects))
              else Some (Raise plate_error)
            else Some (Ok (InPlace obj))
          else
            let? items' := values_loop
                             (fun value =>
                                let? r := expand_plates fuel' value false in
                                match r with
                                | InPlace value' => Some (Ok value')
                                | Spliced _ => Some (Ok value)
                                end)
                             items in
            Some (Ok (InPlace (JDict items')))
      | _ => Some (Ok (InPlace obj))
      end
  end.

(** The effect on the list [parent] of [expand_plates(parent[idx], parent, idx)]. *)
Definition expand_element (fuel : nat) (parent : list json) (idx : nat)
  : option (outcome (list json)) :=
  match parent !! idx with
  | None => Some (Raise IndexError)
  | Some element =>
      let? r := expand_plates fuel element true in
      Some (Ok (apply_expanded parent idx r))
  end.

(** Reading a document along a path of dict keys and list indices. *)
Fixpoint get_path (path : list (string + nat)) (v : json) : option json :=
  match path with
  | [] => Some v
  | inl key :: path' =>
      match v with
      | JDict items =>
          match Dict.get key items with
          | Some v' => get_path path' v'
          | None => None
          end
      | _ => None
      end
  | inr i :: path' =>
      match v with
      | JList l =>
          match l !! i with
          | Some v' => get_path path' v'
          | None => None
          end
      | _ => None
      end
  end.

(** Following the specification: "every string value ending in [*] at an
    [id] key" has "the trailing [*]" replaced by the index.  [star_value]
    rewrites one value; [star_subst] rewrites a document. *)
Definition star_value (value : string) (v : json) : json :=
  match v with
  | JStr s =>
      match PyStr.last s with
      | Some c => if Ascii.eqb c "*" then JStr (PyStr.init s ++ value) else v
      | None => v
      end
  | _ => v
  end.

Fixpoint star_subst (value : string) (obj : json) : json :=
  match obj with
  | JList l => JList (map (star_subst value) l)
  | JDict items =>
      JDict (map (fun kv =>
                    (fst kv,
                     if String.eqb (fst kv) "id"
                     then star_value value (star_subst value (snd kv))
                     else star_subst value (snd kv)))
                 items)
  | _ => obj
  end.

(** A document whose ids are names: every value at an [id] key is a
    string that is not empty. *)
Definition is_name (v : json) : bool :=
  match v with
  | JStr s => nonempty s
  | _ => false
  end.

Fixpoint names_ok (obj : json) : bool :=
  match obj with
  | JList l => forallb names_ok l
  | JDict items =>
      forallb (fun kv =>
                 names_ok (snd kv) &&
                 (if String.eqb (fst kv) "id" then is_name (snd kv) else true))
              items
  | _ => true
  end.

(** A path that ends at an [id] key. *)
Definition ends_with_id (path : list (string + nat)) : bool :=
  match List.last (map Some path) None with
  | Some (inl k) => String.eqb k "id"
  | _ => false
  end.

(** The clones of a template for the indices of [range(a, b)]. *)
Definition clones (template : json) (a b : Z) : list json :=
  map (fun k => star_subst (PyStr.str (a + Z.of_nat k)) template)
      (seq 0 (Z.to_nat (b - a))).

(** A plate directive with range [a:b] and a template. *)
Definition plate (items : list (string * json)) (a b : Z) (template : json) : Prop :=
  (exists ty, Dict.get "type" items = Some (JStr ty) /\
              PyStr.endswith "Plate" ty = true) /\
  (exists rg start stop,
      Dict.get "range" items = Some (JStr rg) /\
      PyStr.split ":" rg = [start; stop] /\
      PyStr.int start = Some a /\ PyStr.int stop = Some b) /\
  Dict.get "object" items = Some template.

(** [{"id": "b*", "type": "Plate", "range": "0:2",
      "object": {"id": "b*", "type": "Parameter", "zeros": [1]}}] *)
Definition plate_b : list (string * json) :=
  [("id", JStr "b*"); ("type", JStr "Plate"); ("range", JStr "0:2");
   ("object", JDict [("id", JStr "b*"); ("type", JStr "Parameter");
                     ("zeros", JList [JNum (NInt 1)])])].

Definition parameter_b (i : string) : json :=
  JDict [("id", JStr ("b" ++ i)); ("type", JStr "Parameter");
         ("zeros", JList [JNum (NInt 1)])].

(** No dict of the document, at any depth, is a plate: its [type], if it
    has one, is a string that does not end in [Plate]. *)
Fixpoint plate_free (obj : json) : bool :=
  match obj with
  | JList l => forallb plate_free l
  | JDict items =>
      match Dict.get "type" items with
      | None => true
      | Some (JStr ty) => negb (PyStr.endswith "Plate" ty)
      | Some _ => false
      end
      && forallb (fun kv => plate_free (snd kv)) items
  | _ => true
  end.

(** Fuel that is enough for a document: the calls nest as the document
    does and a loop makes a step for each element. *)
Fixpoint need (obj : json) : nat :=
  match obj with
  | JList l => S (length l + fold_right (fun element n => need element + n) 0 l)
  | JDict items => S (fold_right (fun kv n => need (snd kv) + n) 0 items)
  | _ => 1
  end.

End Plates.

(** ** Passes over a document: [remove_comments] and [update_parameters]
    (utils.py)

    Both mutate the document in place and return [None]; as for the plates
    a call is rendered as the function from the value before to the value
    after. *)

Module Documents.

(** [key.startswith('_')] *)
Definition is_comment (key : string) : bool :=
  match key with
  | String c _ => Ascii.eqb c "_"
  | EmptyString => false
  end.

(** The loop over [list(obj.keys())] deletes the keys that start with an
    underscore and descends into the values of the others. *)
Fixpoint remove_comments (obj : json) : json :=
  match obj with
  | JList l => JList (map remove_comments l)
  | JDict items =>
      JDict ((fix loop (items : list (string * json)) : list (string * json) :=
                match items with
                | [] => []
                | (key, v) :: rest =>
                    if is_comment key then loop rest
                    else (key, remove_comments v) :: loop rest
                end) items)
  | _ => obj
  end.

(** The entries of a dict. *)
Definition items_of (obj : json) : list (string * json) :=
  match obj with
  | JDict items => items
  | _ => []
  end.

(** Some dict of the document, at any depth, has a key that starts with an
    underscore. *)
Fixpoint has_comment (obj : json) : bool :=
  match obj with
  | JList l => existsb has_comment l
  | JDict items =>
      existsb (fun kv => is_comment (fst kv) || has_comment (snd kv)) items
  | _ => false
  end.

(** The type names that mark the description of a [Parameter]. *)
Definition parameter_types : list string :=
  ["phylotorch.core.model.Parameter"; "phylotorch.Parameter"; "Parameter"].

(** ['type' in json_object and json_object['type'] in (...)] *)
Definition is_parameter (items : list (string * json)) : bool :=
  match Dict.get "type" items with
  | Some (JStr s) => existsb (String.eqb s) parameter_types
  | _ => false
  end.

(** The keys the loop [for key in list(json_object.keys())] keeps. *)
Definition kept : list string := ["id"; "type"; "dtype"; "nn"].

Definition is_kept (key : string) : bool := existsb (String.eqb key) kept.

(** [parameters[id]['tensor']], for an id that is a key of [parameters]. *)
Definition new_tensor (parameters : list (string * json)) (i : string)
  : outcome json :=
  let! entry := Dict.item i parameters in
  match entry with
  | JDict d => Dict.item "tensor" d
  | JStr _ => Raise (TypeError "string indices must be integers")
  | JList _ => Raise (TypeError "list indices must be integers or slices, not str")
  | _ => Raise (TypeError ("'" ++ type_name entry ++ "' object is not subscriptable"))
  end.

(** The branch for the description of a [Parameter].  The keys of
    [parameters] are strings, so an id that is a number, a boolean or
    [None] is not among them; a list or a dict cannot be looked up.  The
    new [tensor] entry goes behind the entries that are kept, the old
    one, if any, having been deleted. *)
Definition update_parameter (items parameters : list (string * json))
  : outcome json :=
  let! i := Dict.item "id" items in
  match i with
  | JStr s =>
      if Dict.mem s parameters then
        let! t := new_tensor parameters s in
        Ok (JDict (List.filter (fun kv => is_kept (fst kv)) items
                   ++ [("tensor", t)])%list)
      else Ok (JDict items)
  | JList _ => Raise (TypeError "unhashable type: 'list'")
  | JDict _ => Raise (TypeError "unhashable type: 'dict'")
  | _ => Ok (JDict items)
  end.

(** [parameters] maps an id to a dict with the key [tensor]. *)
Fixpoint update_parameters (json_object : json) (parameters : list (string * json))
  : outcome json :=
  match json_object with
  | JList l =>
      let! l' := omap_list (fun element => update_parameters element parameters) l in
      Ok (JList l')
  | JDict items =>
      if is_parameter items then update_parameter items parameters
      else
        let! items' :=
          omap_list (fun kv =>
                       let! v' := update_parameters (snd kv) parameters in
                       Ok (fst kv, v'))
                    items in
        Ok (JDict items')
  | _ => Ok json_object
  end.

(** No [Parameter] description that [update_parameters] reaches has an id
    among the keys of [parameters]; each of them has an id, which is not
    a list or a dict. *)
Fixpoint unlisted (parameters : list (string * json)) (obj : json) : bool :=
  match obj with
  | JList l => forallb (unlisted parameters) l
  | JDict items =>
      if is_parameter items then
        match Dict.get "id" items with
        | Some (JStr s) => negb (Dict.mem s parameters)
        | Some (JList _) | Some (JDict _) | None => false
        | Some _ => true
        end
      else forallb (fun kv => unlisted parameters (snd kv)) items
  | _ => true
  end.

End Documents.

(** ** [validate] (utils.py)

    [data] is the description of an object and [rules] maps a key to a
    rule, itself a dict with the keys [type], [optional], [list], ...
    What the first loop prints about the other keys of a rule goes to the
    standard output and is not part of the result. *)

Module Validate.

(** What [validate] raises. *)
Inductive failure :=
| AssertionError                    (* a rule without [type] *)
| MissingKey (rule_key : string)    (* [ValueError('Missing key: ...')] *)
| KeyNotAllowed (datum_key : string) (* [ValueError('Key not allowed: ...')] *)
| TypeNotValid (datum : json)       (* [ValueError("'type' is not valid: ...")] *)
| NotAType                          (* [TypeError]: [isinstance(x, None)] *)
| NotIterable (datum : json)        (* [TypeError]: the value of a list rule *)
| NoSplit (type_ : json)            (* [AttributeError]: [type] is no string *)
| NoKey (key : string).             (* [KeyError] *)

Inductive verdict :=
| Valid
| Invalid (f : failure).

(** One statement after the other. *)
Definition and_then (v1 v2 : verdict) : verdict :=
  match v1 with
  | Valid => v2
  | Invalid f => Invalid f
  end.

(** A loop whose body may raise. *)
Fixpoint for_all {A} (body : A -> verdict) (l : list A) : verdict :=
  match l with
  | [] => Valid
  | a :: l' => and_then (body a) (for_all body l')
  end.

#[local] Abbreviation rule := (list (string * json)).

(** [rules[key]] *)
Fixpoint rule_of (key : string) (rules : list (string * rule)) : option rule :=
  match rules with
  | [] => None
  | (k, r) :: rules' => if String.eqb key k then Some r else rule_of key rules'
  end.

(** [isinstance(v, str)] and the like, on the values [json.load] builds:
    a [bool] is an [int] and a [numbers.Number], an [int] is no [float]. *)
Definition is_str (v : json) : bool :=
  match v with JStr _ => true | _ => false end.
Definition is_bool (v : json) : bool :=
  match v with JBool _ => true | _ => false end.
Definition is_int (v : json) : bool :=
  match v with JNum (NInt _) | JBool _ => true | _ => false end.
Definition is_float (v : json) : bool :=
  match v with JNum (NFloat _ _) => true | _ => false end.
Definition is_dict (v : json) : bool :=
  match v with JDict _ => true | _ => false end.
Definition is_number (v : json) : bool :=
  match v with JNum _ | JBool _ => true | _ => false end.

(** The dict [types]. *)
Definition types : list (string * (json -> bool)) :=
  [("string", is_str); ("bool", is_bool); ("int", is_int); ("float", is_float);
   ("object", is_dict); ("numbers.Number", is_number)].

Fixpoint types_get (rule_type : string) (l : list (string * (json -> bool)))
  : option (json -> bool) :=
  match l with
  | [] => None
  | (k, t) :: l' => if String.eqb rule_type k then Some t else types_get rule_type l'
  end.

(** [isinstance(v, types.get(rule_type))]: [None] where the name is not a
    key of [types] and [isinstance] raises [TypeError]. *)
Definition isinstance (v : json) (rule_type : string) : option bool :=
  match types_get rule_type types with
  | Some t => Some (t v)
  | None => None
  end.

(** [for x in v]: the elements of a list, the characters of a string, the
    keys of a dict; [None] where [v] is not iterable. *)
Definition iterate (v : json) : option (list json) :=
  match v with
  | JList l => Some l
  | JStr s => Some (map (fun c => JStr (String c EmptyString)) (list_ascii_of_string s))
  | JDict d => Some (map (fun kv => JStr (fst kv)) d)
  | _ => None
  end.

(** [all(isinstance(x, types.get(rule_type)) for x in xs)]: it stops at
    the first element that is no instance. *)
Fixpoint all_instances (xs : list json) (rule_type : string) : option bool :=
  match xs with
  | [] => Some true
  | x0 :: xs' =>
      match isinstance x0 rule_type with
      | None => None
      | Some false => Some false
      | Some true => all_instances xs' rule_type
      end
  end.

(** The loop over [rules[datum_key]['type'].split('|')] and the test of
    [type_found] behind it. *)
Fixpoint type_found (datum : json) (list_ : bool) (rule_types : list string)
  : verdict :=
  match rule_types with
  | [] => Invalid (TypeNotValid datum)
  | rule_type :: rest =>
      if list_ then
        match iterate datum with
        | None => Invalid (NotIterable datum)
        | Some xs =>
            match all_instances xs rule_type with
            | None => Invalid NotAType
            | Some true => Valid
            | Some false => type_found datum list_ rest
            end
        end
      else
        match isinstance datum rule_type with
        | None => Invalid NotAType
        | Some true => Valid
        | Some false => type_found datum list_ rest
        end
  end.

(** [rule.get('optional', False) is True] *)
Definition optional (r : rule) : bool :=
  match Dict.get "optional" r with
  | Some (JBool true) => true
  | _ => false
  end.

(** [rule.get('list', False)], as a condition *)
Definition is_list (r : rule) : bool :=
  match Dict.get "list" r with
  | Some v => truthy v
  | None => false
  end.

(** [datum_key in ('id', 'type')] *)
Definition exempt (datum_key : string) : bool :=
  String.eqb datum_key "id" || String.eqb datum_key "type".

(** The body of the last loop, for the entry [datum_key: datum] of
    [data]. *)
Definition check_type (rules : list (string * rule)) (entry : string * json)
  : verdict :=
  if exempt (fst entry) then Valid
  else
    match rule_of (fst entry) rules with
    | None => Invalid (NoKey (fst entry))
    | Some r =>
        match Dict.get "type" r with
        | None => Invalid (NoKey "type")
        | Some (JStr t) => type_found (snd entry) (is_list r) (PyStr.split "|" t)
        | Some v => Invalid (NoSplit v)
        end
    end.

Definition validate (data : list (string * json)) (rules : list (string * rule))
  : verdict :=
  and_then
    (for_all (fun kr : string * rule =>
                if Dict.mem "type" (snd kr) then Valid else Invalid AssertionError)
             rules)
    (and_then
       (for_all (fun kr : string * rule =>
                   if negb (Dict.mem (fst kr) data) && negb (optional (snd kr))
                   then Invalid (MissingKey (fst kr)) else Valid)
                rules)
       (and_then
          (for_all (fun entry : string * json =>
                      if negb (exempt (fst entry))
                         && match rule_of (fst entry) rules with
                            | Some _ => false
                            | None => true
                            end
                      then Invalid (KeyNotAllowed (fst entry)) else Valid)
                   data)
          (for_all (check_type rules) data))).

(** The value [v] has one of the types of the alternatives: as it is, or,
    for a list rule, in each of the elements it iterates over. *)
Definition conforms (v : json) (list_ : bool) (rule_types : list string) : Prop :=
  exists rule_type,
    In rule_type rule_types /\
    if list_
    then exists xs, iterate v = Some xs /\
                    Forall (fun x0 => isinstance x0 rule_type = Some true) xs
    else isinstance v rule_type = Some true.

(** The type of the rule names types of [types] only. *)
Definition known (r : rule) : Prop :=
  exists t, Dict.get "type" r = Some (JStr t) /\
            Forall (fun rule_type => types_get rule_type types <> None)
                   (PyStr.split "|" t).

End Validate.

(** ** The object graph: [Parameter], [TransformedParameter] and listeners
    (model.py)

    Parameters are mutable objects that refer to each other (a parameter
    holds its listeners, a transformed parameter holds its upstream [x]), so
    they live in a store: a list of objects, an object's address being its
    index, in order of construction.  The classes of the source that can be
    instantiated are [Parameter] and [TransformedParameter]; [Model] and
    [CallableModel] are abstract.

    A method is a function from the store to the result, the store after
    the call and the events of the call in the order they happened.  Two
    kinds of events are recorded: a call of [handle_parameter_changed],
    with the value [variable._tensor] has at that moment, and a call of the
    transform of a [TransformedParameter].  [None] stands for a call that
    does not return because the recursion is deeper than the fuel. *)

Module Graph.

Abbreviation addr := nat.

(** A [torch.distributions] transform: calling it and its
    [log_abs_det_jacobian]. *)
Record Transform (tensor : Type) := mkTransform {
  call : tensor -> tensor;
  log_abs_det_jacobian : tensor -> tensor -> tensor;
}.
Arguments mkTransform {tensor}.
Arguments call {tensor}.
Arguments log_abs_det_jacobian {tensor}.

(** [self.x]: one parameter or a list of parameters. *)
Inductive upstream :=
| XOne (x : addr)
| XList (xs : list addr).

(** The fields of a [TransformedParameter]: those of [Parameter] in
    [base], and [transform], [x], [need_update], [_parameters], [_models],
    [lp]. *)
Record TransformedParameter (tensor : Type) := mkTransformed {
  base : Parameter_ tensor;
  transform : Transform tensor;
  x : upstream;
  need_update : bool;
  _parameters : list addr;
  _models : list addr;
  lp : option tensor;
}.
Arguments mkTransformed {tensor}.
Arguments base {tensor}.
Arguments transform {tensor}.
Arguments x {tensor}.
Arguments need_update {tensor}.
Arguments _parameters {tensor}.
Arguments _models {tensor}.
Arguments lp {tensor}.

Inductive object (tensor : Type) :=
| Plain (p : Parameter_ tensor)
| Transformed (t : TransformedParameter tensor).
Arguments Plain {tensor}.
Arguments Transformed {tensor}.

Inductive event (tensor : Type) :=
| Notified (listener variable : addr) (seen : tensor)
| Applied (self : addr) (input : tensor).
Arguments Notified {tensor}.
Arguments Applied {tensor}.

(** [torch.cat] *)
Class Cat (tensor : Type) := cat : list tensor -> tensor.

Section Graph.
Context {tensor : Type} `{!Cat tensor}.

#[local] Abbreviation store := (list (object tensor)).
#[local] Abbreviation trace := (list (event tensor)).

Definition M (A : Type) : Type := store -> option (outcome A * store * trace).

Definition ret {A} (a : A) : M A := fun s => Some (Ok a, s, []).

Definition raise {A} (e : exn) : M A := fun s => Some (Raise e, s, []).

Definition out_of_fuel {A} : M A := fun _ => None.

Definition bind {A B} (m : M A) (k : A -> M B) : M B :=
  fun s =>
    match m s with
    | None => None
    | Some (Raise e, s', tr) => Some (Raise e, s', tr)
    | Some (Ok a, s', tr) =>
        match k a s' with
        | None => None
        | Some (r, s'', tr') => Some (r, s'', (tr ++ tr')%list)
        end
    end.

Notation "'do!' x ':=' m 'in' k" := (bind m (fun x => k))
  (at level 10, x pattern, m at level 100, k at level 200).
Notation "m ';;' k" := (bind m (fun _ => k))
  (at level 100, k at level 200, right associativity).

Definition emit (ev : event tensor) : M unit := fun s => Some (Ok tt, s, [ev]).

(** Reading and writing the object at an address. *)
Definition get (a : addr) : M (object tensor) :=
  fun s => match s !! a with
           | Some o => Some (Ok o, s, [])
           | None => Some (Raise (Unmodelled "no object at this address"), s, [])
           end.

Definition put (a : addr) (o : object tensor) : M unit :=
  fun s => Some (Ok tt, <[a := o]> s, []).

Fixpoint for_each {A} (l : list A) (body : A -> M unit) : M unit :=
  match l with
  | [] => ret tt
  | a :: l' => body a ;; for_each l' body
  end.

Fixpoint map_each {A B} (l : list A) (body : A -> M B) : M (list B) :=
  match l with
  | [] => ret []
  | a :: l' =>
      do! b := body a in
      do! bs := map_each l' body in
      ret (b :: bs)
  end.

(** Fields common to both classes. *)
Definition parameter_of (o : object tensor) : Parameter_ tensor :=
  match o with
  | Plain p => p
  | Transformed t => base t
  end.

Definition with_parameter (o : object tensor) (p : Parameter_ tensor) : object tensor :=
  match o with
  | Plain _ => Plain p
  | Transformed t =>
      Transformed (mkTransformed p (transform t) (x t) (need_update t)
                                 (_parameters t) (_models t) (lp t))
  end.

Definition set__tensor (o : object tensor) (v : tensor) : object tensor :=
  let p := parameter_of o in
  with_parameter o (mkParameter (_id p) v (listeners p)).

Definition set_need_update (t : TransformedParameter tensor) (b : bool)
  : TransformedParameter tensor :=
  mkTransformed (base t) (transform t) (x t) b (_parameters t) (_models t) (lp t).


(** [Parameter.add_parameter_listener]: [self.listeners.append(listener)] *)
Definition add_parameter_listener (self listener : addr) : M unit :=
  do! o := get self in
  let p := parameter_of o in
  put self (with_parameter o (mkParameter (_id p) (_tensor p)
                                          (listeners p ++ [listener])%list)).

(** [TransformedParameter.handle_parameter_changed], given the method
    [fire_parameter_changed] it calls.  A plain [Parameter] has no such
    method. *)
Definition handle_parameter_changed_with (fire : addr -> M unit)
           (self variable : addr) : M unit :=
  do! o := get self in
  match o with
  | Plain _ =>
      raise (AttributeError
               "'Parameter' object has no attribute 'handle_parameter_changed'")
  | Transformed t =>
      do! v := get variable in
      emit (Notified self variable (_tensor (parameter_of v))) ;;
      put self (Transformed (set_need_update t true)) ;;
      fire self
  end.

(** [Parameter.fire_parameter_changed]: the listeners are called in the
    order of the list.  No handler changes a listener list, so iterating
    over the list as it is when the loop starts is what the loop does. *)
Fixpoint fire_parameter_changed (fuel : nat) (self : addr) : M unit :=
  match fuel with
  | O => out_of_fuel
  | S fuel' =>
      do! o := get self in
      for_each (listeners (parameter_of o))
               (fun listener =>
                  handle_parameter_changed_with (fire_parameter_changed fuel')
                                                listener self)
  end.


(** The argument of the transform: [torch.cat([x.tensor for x in self.x])]
    for a list and [self.x.tensor] otherwise, given the getter of [tensor]. *)
Definition upstream_tensor_with (tensor_get : addr -> M tensor) (x0 : upstream)
  : M tensor :=
  match x0 with
  | XList xs => do! ts := map_each xs tensor_get in ret (cat ts)
  | XOne x1 => tensor_get x1
  end.

(** [TransformedParameter.apply_transform], given the getter of [tensor]
    it reads the upstream with. *)
Definition apply_transform_with (tensor_get : addr -> M tensor)
           (self : addr) (t : TransformedParameter tensor) : M unit :=
  do! input := upstream_tensor_with tensor_get (x t) in
  emit (Applied self input) ;;
  do! o := get self in
  put self (set__tensor o (call (transform t) input)).

(** The steps [if self.need_update: self.apply_transform();
    self.need_update = False] of the getter and of [_call]. *)
Definition refresh_with (tensor_get : addr -> M tensor)
           (self : addr) (t : TransformedParameter tensor) : M unit :=
  if need_update t then
    apply_transform_with tensor_get self t ;;
    do! o := get self in
    match o with
    | Transformed t' => put self (Transformed (set_need_update t' false))
    | Plain _ => ret tt
    end
  else ret tt.

(** The property [tensor]: [Parameter.tensor] returns the field,
    [TransformedParameter.tensor] first brings it up to date. *)
Fixpoint tensor_getter (fuel : nat) (self : addr) : M tensor :=
  match fuel with
  | O => out_of_fuel
  | S fuel' =>
      do! o := get self in
      match o with
      | Plain p => ret (_tensor p)
      | Transformed t =>
          refresh_with (tensor_getter fuel') self t ;;
          do! o' := get self in
          ret (_tensor (parameter_of o'))
      end
  end.

Definition apply_transform (fuel : nat) (self : addr) : M unit :=
  do! o := get self in
  match o with
  | Transformed t => apply_transform_with (tensor_getter fuel) self t
  | Plain _ => raise (AttributeError "'Parameter' object has no attribute 'apply_transform'")
  end.

Definition id_text (i : option string) : string :=
  match i with Some s => s | None => "None" end.

(** The setter of [tensor]. *)
Definition tensor_setter (fuel : nat) (self : addr) (v : tensor) : M unit :=
  do! o := get self in
  match o with
  | Plain p =>
      put self (Plain (mkParameter (_id p) v (listeners p))) ;;
      fire_parameter_changed fuel self
  | Transformed t =>
      raise (Exception_ ("Cannot assign tensor to TransformedParameter (ID: "
                         ++ id_text (_id (base t)) ++ ")"))
  end.

(** [update(value)]: [Parameter.update] assigns [value[self.id]] when the
    id is a key; [TransformedParameter.update] calls [self.x.update(value)]
    and [self.transform(self.x.tensor)], whatever [self.x] is. *)
Fixpoint update (fuel : nat) (self : addr) (value : gmap string tensor) : M unit :=
  match fuel with
  | O => out_of_fuel
  | S fuel' =>
      do! o := get self in
      match o with
      | Plain p =>
          match _id p with
          | Some i =>
              match value !! i with
              | Some v => tensor_setter fuel' self v
              | None => ret tt
              end
          | None => ret tt
          end
      | Transformed t =>
          match x t with
          | XList _ => raise (AttributeError "'list' object has no attribute 'update'")
          | XOne x0 =>
              update fuel' x0 value ;;
              do! input := tensor_getter fuel' x0 in
              emit (Applied self input) ;;
              do! o' := get self in
              put self (set__tensor o' (call (transform t) input))
          end
      end
  end.


(** [Parameter(id_, tensor)]: the new object's address is returned. *)
Definition new_Parameter (id_ : option string) (v : tensor) : M addr :=
  fun s => Some (Ok (length s), (s ++ [Plain (mkParameter id_ v [])])%list, []).

(** The upstream objects of [self.x]. *)
Definition upstream_list (x0 : upstream) : list addr :=
  match x0 with XList xs => xs | XOne x1 => [x1] end.

(** [TransformedParameter(id_, x, transform)]: the initial value is
    computed, the new object is subscribed to its upstream
    ([Model.add_parameter], which also appends to [_parameters]), and
    [Parameter.__init__] sets [_tensor] and an empty listener list.  The
    last statement of [Parameter.__init__], [super().__init__(id_)], is for
    a [TransformedParameter] the call of [CallableModel.__init__]: it runs
    [Model.__init__] and [Parametric.__init__] a second time, so the new
    object ends with [_parameters], [_models] and [listeners] empty and
    [lp] unset, whatever [add_parameter] has appended. *)
Definition new_TransformedParameter (fuel : nat) (id_ : option string)
           (x0 : upstream) (tr : Transform tensor) : M addr :=
  fun s =>
    let self := length s in
    (do! input := upstream_tensor_with (tensor_getter fuel) x0 in
     emit (Applied self input) ;;
     for_each (upstream_list x0) (fun xx => add_parameter_listener xx self) ;;
     (fun s' =>
        Some (Ok self,
              (s' ++ [Transformed
                        (mkTransformed (mkParameter id_ (call tr input) [])
                                       tr x0 false [] [] None)])%list,
              []))) s.

(** *** Stores that the constructors build

    A listener is a [TransformedParameter] constructed after the object it
    listens to, and the upstream of a [TransformedParameter] is constructed
    before it: that is how [TransformedParameter.__init__] wires objects. *)

Definition listeners_ok (s : store) : Prop :=
  forall a o l,
    s !! a = Some o -> In l (listeners (parameter_of o)) ->
    a < l /\ exists t, s !! l = Some (Transformed t).

Definition upstream_ok (s : store) : Prop :=
  forall a t x0,
    s !! a = Some (Transformed t) -> In x0 (upstream_list (x t)) -> x0 < a.

(** *** Reading a trace *)

(** A call of [handle_parameter_changed] made by [variable]. *)
Definition notified_by (variable : addr) (ev : event tensor) : bool :=
  match ev with
  | Notified _ v _ => Nat.eqb v variable
  | Applied _ _ => false
  end.

(** A call of [listener.handle_parameter_changed(variable, ...)]. *)
Definition notification (listener variable : addr) (ev : event tensor) : bool :=
  match ev with
  | Notified l v _ => Nat.eqb l listener && Nat.eqb v variable
  | Applied _ _ => false
  end.

(** A call of the transform of [self]. *)
Definition applied_at (self : addr) (ev : event tensor) : bool :=
  match ev with
  | Applied a _ => Nat.eqb a self
  | Notified _ _ _ => false
  end.

Definition is_applied (ev : event tensor) : bool :=
  match ev with
  | Applied _ _ => true
  | Notified _ _ _ => false
  end.

(** *** How a call may change the store *)

(** Firing notifications only raises [need_update] flags. *)
Definition raised (o o' : object tensor) : Prop :=
  o' = o \/ exists t, o = Transformed t /\ o' = Transformed (set_need_update t true).

(** Reading a tensor only brings cached values up to date. *)
Definition refreshed (o o' : object tensor) : Prop :=
  o' = o \/
  exists t v, o = Transformed t /\
              o' = Transformed (set_need_update
                                  (mkTransformed (mkParameter (_id (base t)) v
                                                              (listeners (base t)))
                                                 (transform t) (x t) (need_update t)
                                                 (_parameters t) (_models t) (lp t))
                                  false).

(** *** What the events and the result of a call look like *)

(** What the events of a firing from [a] look like: no transform is
    called, and every notification comes from [a] or from an object
    constructed later. *)
Definition fired_from (a : addr) (ev : event tensor) : Prop :=
  is_applied ev = false /\ forall b, notified_by b ev = true -> a <= b.

(** The events of reading the tensor of [a]: transforms of [a] or of
    objects constructed before it. *)
Definition computed_upto (a : addr) (ev : event tensor) : Prop :=
  match ev with
  | Applied b _ => b <= a
  | Notified _ _ _ => False
  end.

(** What reading the tensor of the object [o] at [a] does. *)
Definition read_result (a : addr) (o : object tensor) (s : store) (r : tensor)
           (s' : store) (tr : trace) : Prop :=
  match o with
  | Plain p => r = _tensor p /\ s' = s /\ tr = []
  | Transformed t =>
      (exists t', s' !! a = Some (Transformed t') /\ need_update t' = false /\
                  r = _tensor (base t') /\ listeners (base t') = listeners (base t)) /\
      (if need_update t
       then length (List.filter (applied_at a) tr) = 1
       else s' = s /\ tr = [])
  end.

Definition getter_spec_at (n : nat) : Prop :=
  forall s a o,
    upstream_ok s -> s !! a = Some o -> a < n ->
    exists r s' tr,
      tensor_getter n a s = Some (Ok r, s', tr) /\
      Forall2 refreshed s s' /\
      (forall b, a < b -> s' !! b = s !! b) /\
      Forall (computed_upto a) tr /\
      read_result a o s r s' tr.


(** [parameters()]: [Parameter.parameters] is [[self]];
    [TransformedParameter.parameters] collects those of the upstream,
    [[param for params in self.x for param in params.parameters()]] for a
    list and [self.x.parameters()] otherwise. *)
Fixpoint parameters (fuel : nat) (self : addr) : M (list addr) :=
  match fuel with
  | O => out_of_fuel
  | S fuel' =>
      do! o := get self in
      match o with
      | Plain _ => ret [self]
      | Transformed t =>
          match x t with
          | XList xs =>
              do! ps := map_each xs (parameters fuel') in
              ret (concat ps)
          | XOne x0 => parameters fuel' x0
          end
      end
  end.

(** [Parameter.assign(parameter)], which [TransformedParameter] inherits:
    [self._tensor = parameter.tensor; self.fire_parameter_changed()].  The
    field is written, not the property. *)
Definition assign (fuel : nat) (self parameter : addr) : M unit :=
  do! v := tensor_getter fuel parameter in
  do! o := get self in
  put self (set__tensor o v) ;;
  fire_parameter_changed fuel self.

(** [Parameter.clone()], which [TransformedParameter] inherits:
    [Parameter(None, self.tensor.clone())]. *)
Definition clone (fuel : nat) (self : addr) : M addr :=
  do! v := tensor_getter fuel self in
  new_Parameter None v.

(** The plain parameters a [TransformedParameter] at [a] depends on,
    through any number of [TransformedParameter]s in between. *)
Inductive depends_on (s : store) : addr -> addr -> Prop :=
| depends_plain a p : s !! a = Some (Plain p) -> depends_on s a a
| depends_upstream a t x0 u :
    s !! a = Some (Transformed t) -> In x0 (upstream_list (x t)) ->
    depends_on s x0 u -> depends_on s a u.

(** [d] listens to [a], or to a listener of [a], and so on. *)
Inductive listens (s : store) : addr -> addr -> Prop :=
| listens_direct a o l :
    s !! a = Some o -> In l (listeners (parameter_of o)) -> listens s a l
| listens_through a o l d :
    s !! a = Some o -> In l (listeners (parameter_of o)) ->
    listens s l d -> listens s a d.

(** The tensor an object stands for: a [Parameter] stands for its
    tensor, a [TransformedParameter] for its transform applied to what
    its upstream stands for, whatever its cache holds. *)
Inductive denotes (s : store) : addr -> tensor -> Prop :=
| denotes_plain a p : s !! a = Some (Plain p) -> denotes s a (_tensor p)
| denotes_one a t x1 r :
    s !! a = Some (Transformed t) -> x t = XOne x1 ->
    denotes s x1 r ->
    denotes s a (call (transform t) r)
| denotes_list a t xs rs :
    s !! a = Some (Transformed t) -> x t = XList xs ->
    Forall2 (denotes s) xs rs ->
    denotes s a (call (transform t) (cat rs)).

(** Every [TransformedParameter] is a listener of each of its upstream
    objects, as [TransformedParameter.__init__] leaves it. *)
Definition subscribed (s : store) : Prop :=
  forall d t x0,
    s !! d = Some (Transformed t) -> In x0 (upstream_list (x t)) ->
    exists o, s !! x0 = Some o /\ In d (listeners (parameter_of o)).

(** A cache whose flag is down holds the tensor the object stands for. *)
Definition coherent (s : store) : Prop :=
  forall d t,
    s !! d = Some (Transformed t) -> need_update t = false ->
    denotes s d (_tensor (base t)).

(** A store as constructors, assignments to [tensor] and reads leave
    it. *)
Definition sound (s : store) : Prop :=
  listeners_ok s /\ upstream_ok s /\ subscribed s /\ coherent s.

(** Two objects of the same class with the same listeners and, for a
    [TransformedParameter], the same upstream and transform. *)
Definition same_wiring (o o' : object tensor) : Prop :=
  listeners (parameter_of o') = listeners (parameter_of o) /\
  match o, o' with
  | Plain _, Plain _ => True
  | Transformed t, Transformed t' => x t' = x t /\ transform t' = transform t
  | _, _ => False
  end.

(** The same upstream and transform, and the same tensor for a
    [Parameter]. *)
Definition same_values (o o' : object tensor) : Prop :=
  match o, o' with
  | Plain p, Plain p' => _tensor p' = _tensor p
  | Transformed t, Transformed t' => x t' = x t /\ transform t' = transform t
  | _, _ => False
  end.

End Graph.
End Graph.

(** A store to run the graph on: tensors are lists of integers, [torch.cat]
    is concatenation and the transform doubles every element. *)
Module GraphSample.
Import Graph.

#[export] Instance cat_lists : Cat (list Z) := fun ts => List.concat ts.

Definition double : Transform (list Z) :=
  mkTransform (map (Z.mul 2)) (fun _ y => y).

(** [u = Parameter('u', [1])] and [d = TransformedParameter('d', u, double)]
    at addresses 0 and 1. *)
Definition single : list (object (list Z)) :=
  [ Plain (mkParameter (Some "u") [1%Z] [1%nat]);
    Transformed (mkTransformed (mkParameter (Some "d") [2%Z] [])
                               double (XOne 0%nat) false [] [] None) ].

(** [u1], [u2] and [d = TransformedParameter('d', [u1, u2], double)] at
    addresses 0, 1 and 2. *)
Definition pair : list (object (list Z)) :=
  [ Plain (mkParameter (Some "u1") [1%Z] [2%nat]);
    Plain (mkParameter (Some "u2") [2%Z] [2%nat]);
    Transformed (mkTransformed (mkParameter (Some "d") [2%Z; 4%Z] [])
                               double (XList [0%nat; 1%nat]) false
                               [] [] None) ].

(** [u] with two listeners [d1] and [d2], and [d3] listening to [d1]. *)
Definition fan : list (object (list Z)) :=
  [ Plain (mkParameter (Some "u") [1%Z] [1%nat; 2%nat]);
    Transformed (mkTransformed (mkParameter (Some "d1") [2%Z] [3%nat])
                               double (XOne 0%nat) false [] [] None);
    Transformed (mkTransformed (mkParameter (Some "d2") [2%Z] [])
                               double (XOne 0%nat) false [] [] None);
    Transformed (mkTransformed (mkParameter (Some "d3") [4%Z] [])
                               double (XOne 1%nat) false [] [] None) ].

End GraphSample.

(** ** A small environment, to run the definitions on concrete documents *)

Module Sample.

(** A Python value of the registry: an opaque object or a list of values. *)
Inductive pyobj :=
| Atom (n : nat)
| PyList (l : list pyobj).

(** Classes and dtypes are named by their dotted path; the modules that
    can be imported are [torch] and [phylotorch]. *)
Definition import_by_name (name : string) : outcome string :=
  if String.eqb name "" then Raise (ValueError "Empty module name")
  else if String.eqb name "torch" || String.eqb name "phylotorch" then Ok name
  else Raise (ModuleNotFoundError ("No module named '" ++ name ++ "'")).

Definition attribute (module name : string) : outcome string :=
  Ok (module ++ "." ++ name).

#[export] Instance importer : Importer string string :=
  {| import_module := import_by_name; getattr := attribute |}.

(** A factory that builds the same object for every description. *)
Definition factory {object : Type} (o : object) : Factory string object :=
  {| from_json_safe := fun _ _ dic => (Ok o, dic); format_json := fun _ => "" |}.

(** The dtypes of the sample: the floating point and complex ones by their
    names, every other one an integer type of 64 bits.  A float is truncated
    toward zero at an integer dtype, and a value outside the 64 bits is the
    error of torch; at a floating point dtype a number is written as the
    document writes it. *)
Definition is_floating (k : string) : bool :=
  String.prefix "torch.float" k || String.prefix "torch.complex" k
  || existsb (String.eqb k) ["torch.double"; "torch.half"; "torch.bfloat16";
                               "torch.cfloat"; "torch.cdouble"].

Definition truncate (x : number) : Z :=
  match x with
  | NInt z => z
  | NFloat m e => if (0 <=? e)%Z then (m * 10 ^ e)%Z else Z.quot m (10 ^ (- e))
  end.

Definition convert (k : string) (x : number) : outcome number :=
  if is_floating k then Ok x
  else
    let z := truncate x in
    if Np.is_int64 (NInt z) then Ok (NInt z)
    else Raise (RuntimeError "value cannot be converted to type int64 without overflow").

#[export] Instance attributes : Attributes string Empty_set :=
  {| is_dtype := fun k => String.prefix "torch." k;
     can_require_grad := is_floating;
     cast := convert;
     other_tensor := fun o : Empty_set => match o with end;
     other_dtype := fun o : Empty_set => match o with end;
     other_shape := fun o : Empty_set => match o with end |}.

(** Fillers that leave the elements out. *)
Definition fill (sh : shape_arg) (dt : string) (_ : list string)
  : outcome (Tensor string) :=
  Ok (mkTensor (match sh with SizeOf sz => sz | SizeJson _ => [] end) dt [] false).

#[export] Instance random : TorchRandom (Tensor string) string shape_arg string :=
  {| py_float := fun p => Some p;
     normal_ := fill; log_normal_ := fill; uniform_ := fill;
     random_ := fill; bernoulli_ := fill |}.

Definition registry3 : gmap string pyobj :=
  <["x0" := Atom 10]> (<["x1" := Atom 11]> (<["x2" := Atom 12]> ∅)).

(** A registered parameter [q] of shape [(3,)], and [Parameter.from_json]
    in this environment. *)
Definition q3 : Parameter_ (Tensor string) :=
  mkParameter (Some "q") (mkTensor [3%Z] "torch.float64" [NInt 0; NInt 0; NInt 0] false) [].

Definition registry_q : gmap string (node string Empty_set) :=
  <["q" := NodeParameter q3]> ∅.

Definition build (data : list (string * json))
  : R (klass := string) (other := Empty_set) (Parameter_ (Tensor string)) :=
  @from_json _ _ _ _ importer (factory (NodeParameter q3)) attributes random data.

(** [{"id": "p", "zeros_like": "q", "full": [2], "tensor": 1.5}] *)
Definition zeros_like_and_full : list (string * json) :=
  [("id", JStr "p"); ("zeros_like", JStr "q");
   ("full", JList [JNum (NInt 2)]); ("tensor", JNum (NFloat 15 (-1)))].

(** [{"id": "p", "tensor": [1, 2, 3], "dimension": 5}] *)
Definition tensor_123_dimension_5 : list (string * json) :=
  [("id", JStr "p");
   ("tensor", JList [JNum (NInt 1); JNum (NInt 2); JNum (NInt 3)]);
   ("dimension", JNum (NInt 5))].

(** [process_object] in this environment. *)
Definition resolve (data : json) (dic : gmap string pyobj)
  : outcome pyobj * gmap string pyobj :=
  @process_object _ _ _ importer (factory (Atom 0)) data dic.

End Sample.

(** * Properties *)

(** ** Strings *)

Example split_brace : PyStr.split "{" "x{0:3}" = ["x"; "0:3}"].
Proof. reflexivity. Qed.

Example split_regex :
  PyStr.split_on (PyStr.chr_in "(),") "normal(1.0, 2.0)" = ["normal"; "1.0"; " 2.0"; ""].
Proof. reflexivity. Qed.

Example rstrip_brace : PyStr.rstrip "}" "0:3}" = "0:3".
Proof. reflexivity. Qed.

Example int_examples :
  PyStr.int " 12 " = Some 12%Z /\ PyStr.int "-3" = Some (-3)%Z /\
  PyStr.int "+1_000" = Some 1000%Z /\ PyStr.int "" = None /\
  PyStr.int "1__0" = None /\ PyStr.int "a" = None /\ PyStr.int "007" = Some 7%Z.
Proof. repeat split; reflexivity. Qed.

Example str_examples : PyStr.str 0 = "0" /\ PyStr.str 12 = "12" /\ PyStr.str (-5) = "-5".
Proof. repeat split; reflexivity. Qed.

Example endswith_examples :
  PyStr.endswith "Plate" "phylotorch.Plate" = true /\ PyStr.endswith "Plate" "late" = false.
Proof. split; reflexivity. Qed.

(** Splitting at a separator and joining again. *)
Lemma split_on_nonempty p s : PyStr.split_on p s <> [].
Proof.
  destruct s as [|c s]; simpl; [done|].
  destruct (p c); [done|]. by destruct (PyStr.split_on p s).
Qed.

Lemma split_on_app p s1 c s2 :
  p c = true ->
  PyStr.split_on p (s1 ++ String c s2)
  = (PyStr.split_on p s1 ++ PyStr.split_on p s2)%list.
Proof.
  intros Hc. induction s1 as [|c1 s1 IH]; simpl.
  - by rewrite Hc.
  - rewrite IH. destruct (p c1); [done|].
    pose proof (split_on_nonempty p s1).
    by destruct (PyStr.split_on p s1).
Qed.

Lemma split_on_none p s :
  existsb p (list_ascii_of_string s) = false -> PyStr.split_on p s = [s].
Proof.
  induction s as [|c s IH]; simpl; [done|]. intros Hs.
  apply orb_false_iff in Hs. destruct Hs as [-> Hs]. by rewrite (IH Hs).
Qed.

Lemma join_split c s : PyStr.join (String c "") (PyStr.split c s) = s.
Proof.
  unfold PyStr.split. induction s as [|c1 s IH]; [done|]. simpl.
  pose proof (split_on_nonempty (Ascii.eqb c) s) as Hne.
  destruct (Ascii.eqb c c1) eqn:Hc.
  - apply Ascii.eqb_eq in Hc. subst c1.
    destruct (PyStr.split_on (Ascii.eqb c) s) as [|w ws]; [done|].
    by rewrite <- IH.
  - destruct (PyStr.split_on (Ascii.eqb c) s) as [|w [|w' ws]]; [done| |];
      by rewrite <- IH.
Qed.

Lemma split_on_separators p s :
  forallb p (list_ascii_of_string s) = true ->
  List.filter nonempty (PyStr.split_on p s) = [].
Proof.
  induction s as [|c s IH]; simpl; [done|]. intros Hs.
  apply andb_true_iff in Hs. destruct Hs as [-> Hs]. simpl. by apply IH.
Qed.

(** *** [int(str(z))] *)

Lemma list_ascii_app s t :
  list_ascii_of_string (s ++ t) = (list_ascii_of_string s ++ list_ascii_of_string t)%list.
Proof. induction s as [|c s IH]; [done|]. simpl. by rewrite IH. Qed.

Lemma rev_rev s : PyStr.rev (PyStr.rev s) = s.
Proof.
  unfold PyStr.rev.
  by rewrite list_ascii_of_string_of_list_ascii, rev_involutive,
       string_of_list_ascii_of_string.
Qed.

Lemma existsb_rev {A} (p : A -> bool) (l : list A) :
  existsb p (List.rev l) = existsb p l.
Proof.
  induction l as [|y l IH]; [done|]. simpl.
  rewrite existsb_app, IH. simpl. rewrite orb_false_r. apply orb_comm.
Qed.

Lemma lstrip_on_none p s :
  existsb p (list_ascii_of_string s) = false -> PyStr.lstrip_on p s = s.
Proof.
  destruct s as [|c s]; [done|]. simpl. intros Hs.
  apply orb_false_iff in Hs. by destruct Hs as [-> _].
Qed.

Lemma rstrip_on_none p s :
  existsb p (list_ascii_of_string s) = false -> PyStr.rstrip_on p s = s.
Proof.
  intros Hs. unfold PyStr.rstrip_on. rewrite lstrip_on_none; [apply rev_rev|].
  unfold PyStr.rev. by rewrite list_ascii_of_string_of_list_ascii, existsb_rev.
Qed.

(** One separator at the end is stripped. *)
Lemma rstrip_on_last p s c :
  existsb p (list_ascii_of_string s) = false -> p c = true ->
  PyStr.rstrip_on p (s ++ String c "") = s.
Proof.
  intros Hs Hc. unfold PyStr.rstrip_on.
  assert (PyStr.rev (s ++ String c "") = String c (PyStr.rev s)) as ->.
  { unfold PyStr.rev. rewrite list_ascii_app, rev_app_distr. done. }
  simpl. rewrite Hc. rewrite lstrip_on_none; [apply rev_rev|].
  unfold PyStr.rev. by rewrite list_ascii_of_string_of_list_ascii, existsb_rev.
Qed.

Lemma numeral_chars_none (p : ascii -> bool) s :
  forallb numeral_char (list_ascii_of_string s) = true ->
  forallb (fun c => negb (p c))
          (list_ascii_of_string "0123456789-") = true ->
  existsb p (list_ascii_of_string s) = false.
Proof.
  intros Hs Hp. induction s as [|c s IH]; [done|]. simpl in Hs.
  apply andb_true_iff in Hs. destruct Hs as [Hc Hs]. simpl. rewrite (IH Hs).
  rewrite orb_false_r.
  assert (In c (list_ascii_of_string "0123456789-")) as Hin.
  { clear -Hc. destruct c as [[] [] [] [] [] [] [] []]; try discriminate Hc;
      simpl; tauto. }
  rewrite forallb_forall in Hp. apply negb_true_iff. by apply Hp.
Qed.

Lemma uint_digits u :
  forallb PyStr.is_digit (list_ascii_of_string (NilEmpty.string_of_uint u)) = true.
Proof. induction u; simpl; done. Qed.

Lemma digits_numeral s :
  forallb PyStr.is_digit (list_ascii_of_string s) = true ->
  forallb numeral_char (list_ascii_of_string s) = true.
Proof.
  induction s as [|c s IH]; [done|]. simpl. intros Hs.
  apply andb_true_iff in Hs. destruct Hs as [Hc Hs].
  unfold numeral_char at 1. by rewrite Hc, (IH Hs).
Qed.

(** [str(z)]: the digits of [|z|], behind a minus sign if [z] is
    negative. *)
Lemma str_digits z :
  exists u, u <> Decimal.Nil /\
            Z.of_uint u = Z.abs z /\
            PyStr.str z = (if (z <? 0)%Z then String "-" (NilEmpty.string_of_uint u)
                           else NilEmpty.string_of_uint u).
Proof.
  destruct z as [|p|p].
  - exists (Decimal.D0 Decimal.Nil). done.
  - exists (Pos.to_uint p). split; [apply Unsigned.to_uint_nonnil|]. split.
    + unfold Z.of_uint. by rewrite DecimalPos.Unsigned.of_to.
    + unfold PyStr.str. simpl.
      pose proof (Unsigned.to_uint_nonnil p). by destruct (Pos.to_uint p).
  - exists (Pos.to_uint p). split; [apply Unsigned.to_uint_nonnil|]. split.
    + unfold Z.of_uint. by rewrite DecimalPos.Unsigned.of_to.
    + unfold PyStr.str. simpl.
      pose proof (Unsigned.to_uint_nonnil p). by destruct (Pos.to_uint p).
Qed.

Lemma str_numeral z :
  forallb numeral_char (list_ascii_of_string (PyStr.str z)) = true.
Proof.
  destruct (str_digits z) as (u & _ & _ & ->).
  destruct (z <? 0)%Z; [simpl|]; by apply digits_numeral, uint_digits.
Qed.

Lemma digits_ok_digits s :
  forallb PyStr.is_digit (list_ascii_of_string s) = true ->
  PyStr.digits_ok true s = true /\ PyStr.drop_underscores s = s.
Proof.
  induction s as [|c s IH]; [done|]. simpl. intros Hs.
  apply andb_true_iff in Hs. destruct Hs as [Hc Hs]. rewrite Hc.
  destruct (IH Hs) as [-> ->]. split; [done|].
  destruct (Ascii.eqb c "_") eqn:Heq; [|done].
  apply Ascii.eqb_eq in Heq. by subst c.
Qed.

Lemma unsigned_digits u :
  u <> Decimal.Nil ->
  PyStr.unsigned (NilEmpty.string_of_uint u) = Some (Z.of_uint u).
Proof.
  intros Hu. unfold PyStr.unsigned.
  pose proof (uint_digits u) as Hd.
  destruct (digits_ok_digits _ Hd) as [Hok Hdrop].
  assert (PyStr.digits_ok false (NilEmpty.string_of_uint u) = true) as ->.
  { destruct u; try done; simpl in *; exact Hok. }
  by rewrite Hdrop, NilEmpty.usu.
Qed.

(** A sign is read at the front only; a digit is none. *)
Lemma int_unsigned c s :
  PyStr.is_digit c = true -> PyStr.strip (String c s) = String c s ->
  PyStr.int (String c s) = PyStr.unsigned (String c s).
Proof.
  intros Hc Hstrip. unfold PyStr.int. rewrite Hstrip.
  destruct c as [[] [] [] [] [] [] [] []]; try discriminate Hc; reflexivity.
Qed.

Lemma strip_numeral s :
  forallb numeral_char (list_ascii_of_string s) = true -> PyStr.strip s = s.
Proof.
  intros Hs. unfold PyStr.strip.
  assert (existsb PyStr.is_space (list_ascii_of_string s) = false) as Hsp
      by (by apply numeral_chars_none).
  by rewrite (lstrip_on_none _ _ Hsp), (rstrip_on_none _ _ Hsp).
Qed.

Lemma int_str z : PyStr.int (PyStr.str z) = Some z.
Proof.
  pose proof (strip_numeral _ (str_numeral z)) as Hstrip.
  destruct (str_digits z) as (u & Hu & Habs & Hstr). rewrite Hstr in *.
  destruct (z <? 0)%Z eqn:Hneg.
  - unfold PyStr.int. rewrite Hstrip. rewrite (unsigned_digits u Hu). simpl.
    f_equal. apply Z.ltb_lt in Hneg. lia.
  - pose proof (uint_digits u) as Hd.
    destruct (NilEmpty.string_of_uint u) as [|c s] eqn:Hs.
    { destruct u; done. }
    simpl in Hd. apply andb_true_iff in Hd. destruct Hd as [Hc _].
    rewrite (int_unsigned c s Hc Hstrip), <- Hs, (unsigned_digits u Hu).
    f_equal. apply Z.ltb_ge in Hneg. lia.
Qed.

(** *** References as [str] prints their bounds *)

Lemma append_assoc_string (s t u : string) : (s ++ t) ++ u = s ++ t ++ u.
Proof.
  induction s as [|c s IH]; [done|].
  change (String c ((s ++ t) ++ u) = String c (s ++ t ++ u)). by rewrite IH.
Qed.

Lemma str_without (p : ascii -> bool) z :
  forallb (fun c => negb (p c)) (list_ascii_of_string "0123456789-") = true ->
  existsb p (list_ascii_of_string (PyStr.str z)) = false.
Proof. apply numeral_chars_none, str_numeral. Qed.

Lemma range_reference_canonical stem a b :
  PyStr.contains "{" stem = false ->
  range_reference (canonical_reference stem a b) stem a b.
Proof.
  intros Hstem. unfold canonical_reference.
  set (sa := PyStr.str a). set (sb := PyStr.str b).
  change (stem ++ "{" ++ sa ++ ":" ++ sb ++ "}")
    with (stem ++ String "{" (sa ++ ":" ++ sb ++ "}")).
  split.
  { unfold PyStr.contains, PyStr.chr_in. rewrite list_ascii_app, existsb_app.
    simpl. by rewrite orb_true_r. }
  exists (sa ++ ":" ++ sb ++ "}"), sa, sb.
  assert (forall p, forallb (fun c => negb (p c))
                            (list_ascii_of_string "0123456789-") = true ->
                    p ":"%char = false ->
                    existsb p (list_ascii_of_string (sa ++ ":" ++ sb)) = false) as Hmid.
  { intros p Hp Hcolon.
    change (sa ++ ":" ++ sb) with (sa ++ String ":" sb).
    rewrite list_ascii_app, existsb_app. simpl.
    unfold sa, sb. by rewrite !str_without, Hcolon. }
  assert (sa ++ ":" ++ sb ++ "}" = (sa ++ ":" ++ sb) ++ String "}" "") as Hrest
      by (by rewrite !append_assoc_string).
  split; [|split; [|split; apply int_str]].
  - unfold PyStr.split. rewrite split_on_app by done.
    unfold PyStr.contains, PyStr.chr_in in Hstem.
    rewrite (split_on_none _ stem Hstem).
    rewrite (split_on_none _ (sa ++ ":" ++ sb ++ "}")); [done|].
    rewrite Hrest, list_ascii_app, existsb_app, Hmid; done.
  - unfold PyStr.rstrip. rewrite Hrest.
    rewrite rstrip_on_last; [|by apply Hmid|done].
    change (sa ++ ":" ++ sb) with (sa ++ String ":" sb).
    unfold PyStr.split. rewrite split_on_app by done.
    unfold sa, sb. by rewrite !split_on_none by (by apply str_without).
Qed.

(** ** [tensor_rand] *)

Section TensorRandFacts.
Context {tensor dtype shape float : Type} `{!TorchRandom tensor dtype shape float}.

(** A one-character string is none of the four longer names. *)
Lemma first_eq_long_name name lit b :
  (1 < String.length lit)%nat -> first_eq name lit = Ok b -> b = false.
Proof.
  unfold first_eq. destruct name as [|c name]; simpl; [discriminate|].
  intros Hlen [= <-].
  destruct lit as [|c1 [|c2 lit]]; simpl in Hlen; try lia.
  simpl. destruct (Ascii.eqb c c1); reflexivity.
Qed.

(** Whatever the fillers do, a directive that [tensor_rand] accepts is
    named [normal]. *)
Lemma tensor_rand_ok_only_normal distribution dt sh t :
  tensor_rand distribution dt sh = Ok t ->
  directive_name distribution = Some "normal".
Proof.
  unfold tensor_rand, directive_name.
  destruct (List.filter nonempty _) as [|name rest]; [discriminate|].
  simpl.
  destruct (match rest with [] => Ok [] | _ => parse_params rest end) as [params|e];
    simpl; [|discriminate].
  destruct (String.eqb name "normal") eqn:Hn.
  { apply String.eqb_eq in Hn. by subst. }
  destruct (first_eq name "log_normal") as [b|] eqn:H1; simpl; [|discriminate].
  apply first_eq_long_name in H1; [subst b|simpl; lia].
  destruct (first_eq name "uniform") as [b|] eqn:H2; simpl; [|discriminate].
  apply first_eq_long_name in H2; [subst b|simpl; lia].
  destruct (first_eq name "random") as [b|] eqn:H3; simpl; [|discriminate].
  apply first_eq_long_name in H3; [subst b|simpl; lia].
  destruct (first_eq name "bernoulli") as [b|] eqn:H4; simpl; [|discriminate].
  apply first_eq_long_name in H4; [subst b|simpl; lia].
  discriminate.
Qed.

(** C4 (the code at the failing inputs).  The documented names
    [log_normal], [uniform], [random] and [bernoulli] are all rejected
    with the "not a valid distribution" exception: the source compares
    [name[0]], one character, with the whole name. *)
Theorem tensor_rand_rejects_documented_names (dt : dtype) (sh : shape) :
  Forall (fun name => tensor_rand name dt sh = Raise (invalid_distribution name name))
         ["log_normal"; "uniform"; "random"; "bernoulli"].
Proof. repeat constructor. Qed.

Lemma tensor_rand_rejects_with_arguments (dt : dtype) (sh : shape) x y :
  py_float "0.0" = Some x -> py_float "1.0" = Some y ->
  tensor_rand "uniform(0.0,1.0)" dt sh
  = Raise (invalid_distribution "uniform" "uniform(0.0,1.0)").
Proof.
  intros Hx Hy. unfold tensor_rand. simpl. unfold parse_params. simpl.
  rewrite Hx, Hy. reflexivity.
Qed.

Lemma tensor_rand_normal (dt : dtype) (sh : shape) :
  tensor_rand "normal" dt sh = normal_ sh dt [].
Proof. reflexivity. Qed.

(** X24.  A directive that [tensor_rand] accepts is named [normal], and
    the tensor returned is the one that [normal_] draws with the
    parameters written behind the name, converted by [float] in the order
    they are written (none if the name stands alone): whatever the
    fillers do, no other filler is called. *)
Theorem tensor_rand_accepted distribution (dt : dtype) (sh : shape) t :
  tensor_rand distribution dt sh = Ok t ->
  exists rest params,
    List.filter nonempty (PyStr.split_on (PyStr.chr_in "(),") distribution)
    = "normal" :: rest /\
    omap_list (fun p => match py_float p with
                        | Some x0 => Ok x0
                        | None => Raise (ValueError
                                           ("could not convert string to float: " ++ p))
                        end) rest = Ok params /\
    normal_ sh dt params = Ok t.
Proof.
  unfold tensor_rand.
  destruct (List.filter nonempty _) as [|name rest]; [discriminate|].
  assert (match rest with [] => Ok [] | _ => parse_params rest end = parse_params rest)
    as -> by (by destruct rest).
  destruct (parse_params rest) as [params|e] eqn:Hparams; simpl; [|discriminate].
  destruct (String.eqb name "normal") eqn:Hn.
  { apply String.eqb_eq in Hn. subst name. intros Ht. by exists rest, params. }
  destruct (first_eq name "log_normal") as [b|] eqn:H1; simpl; [|discriminate].
  apply first_eq_long_name in H1; [subst b|simpl; lia].
  destruct (first_eq name "uniform") as [b|] eqn:H2; simpl; [|discriminate].
  apply first_eq_long_name in H2; [subst b|simpl; lia].
  destruct (first_eq name "random") as [b|] eqn:H3; simpl; [|discriminate].
  apply first_eq_long_name in H3; [subst b|simpl; lia].
  destruct (first_eq name "bernoulli") as [b|] eqn:H4; simpl; [|discriminate].
  apply first_eq_long_name in H4; [subst b|simpl; lia].
  discriminate.
Qed.

(** X25.  A directive without a name (the empty string, or parentheses
    and commas only) makes [tensor_rand] raise [IndexError] at [temp[0]],
    not the exception that reports an invalid distribution. *)
Theorem tensor_rand_no_name distribution (dt : dtype) (sh : shape) :
  forallb (PyStr.chr_in "(),") (list_ascii_of_string distribution) = true ->
  tensor_rand distribution dt sh = Raise IndexError.
Proof.
  intros Hsep. unfold tensor_rand. by rewrite (split_on_separators _ _ Hsep).
Qed.

End TensorRandFacts.

Lemma tensor_rand_accepted_witness :
  exists rest params,
    List.filter nonempty (PyStr.split_on (PyStr.chr_in "(),") "normal(1.0,2.0)")
    = "normal" :: rest /\
    omap_list (fun p => match py_float (TorchRandom := Sample.random) p with
                        | Some x0 => Ok x0
                        | None => Raise (ValueError
                                           ("could not convert string to float: " ++ p))
                        end) rest = Ok params /\
    normal_ (TorchRandom := Sample.random) (SizeOf [2%Z]) "torch.float64" params
    = Ok (mkTensor [2%Z] "torch.float64" [] false).
Proof.
  apply (tensor_rand_accepted "normal(1.0,2.0)" "torch.float64" (SizeOf [2%Z])).
  reflexivity.
Defined.

Lemma tensor_rand_no_name_witness :
  tensor_rand (TorchRandom0 := Sample.random) "()" "torch.float64" (SizeOf [2%Z])
  = Raise IndexError.
Proof. apply tensor_rand_no_name. reflexivity. Defined.

(** ** [process_object]: references *)

Section ReferenceFacts.
Context {object : Type}.
Implicit Types (dic : gmap string object) (stem : string).

(** The loop stops at the first id that is not registered. *)
Lemma range_loop_missing dic stem (n : nat) (a i : Z) obj :
  (a <= i < a + Z.of_nat n)%Z ->
  dic !! (stem ++ PyStr.str i) = None ->
  exists key, range_loop dic stem a n obj = Raise (KeyError key).
Proof.
  revert a obj. induction n as [|n IH]; intros a obj Hi Hnone; [lia|].
  simpl. unfold registry_item.
  destruct (dic !! (stem ++ PyStr.str a)) as [o|] eqn:Ha; simpl.
  - apply IH; [|done].
    destruct (decide (i = a)) as [->|]; [congruence|lia].
  - eauto.
Qed.

(** When every id is registered the loop leaves in [obj] the entry it
    looked up last. *)
Lemma range_loop_present dic stem (n : nat) (a : Z) obj :
  (forall i, (a <= i < a + Z.of_nat n)%Z -> is_Some (dic !! (stem ++ PyStr.str i))) ->
  range_loop dic stem a n obj
  = Ok (match n with
        | O => obj
        | S n' => dic !! (stem ++ PyStr.str (a + Z.of_nat n'))
        end).
Proof.
  revert a obj. induction n as [|n IH]; intros a obj Hall; [done|].
  simpl. unfold registry_item.
  destruct (Hall a ltac:(lia)) as [o Ho]. rewrite Ho. simpl.
  rewrite IH by (intros i Hi; apply Hall; lia).
  destruct n as [|n'].
  - simpl. by rewrite Z.add_0_r, Ho.
  - by replace (a + 1 + Z.of_nat n')%Z with (a + Z.of_nat (S n'))%Z by lia.
Qed.

Lemma reference_body_range data stem a b dic :
  range_reference data stem a b ->
  reference_body data dic = range_loop dic stem a (Z.to_nat (b - a)) None.
Proof.
  intros (Hc & indices & start & stop & Hs & Hi & Ha & Hb).
  unfold reference_body, to_int. by rewrite Hc, Hs, Hi, Ha, Hb.
Qed.

Lemma process_reference_missing data stem a b i dic :
  range_reference data stem a b ->
  (a <= i < b)%Z ->
  dic !! (stem ++ PyStr.str i) = None ->
  process_reference data dic = Raise (not_found data).
Proof.
  intros Hr Hi Hnone. unfold process_reference.
  rewrite (reference_body_range _ _ _ _ _ Hr).
  destruct (range_loop_missing dic stem (Z.to_nat (b - a)) a i None) as [key ->];
    [lia|done|done].
Qed.

(** What the source returns when every id of a non-empty range is
    registered: the entry of the last index alone. *)
Lemma process_reference_last data stem a b dic :
  range_reference data stem a b ->
  (a < b)%Z ->
  (forall i, (a <= i < b)%Z -> is_Some (dic !! (stem ++ PyStr.str i))) ->
  exists o, dic !! (stem ++ PyStr.str (b - 1)) = Some o /\
            process_reference data dic = Ok o.
Proof.
  intros Hr Hab Hall. unfold process_reference.
  rewrite (reference_body_range _ _ _ _ _ Hr).
  rewrite range_loop_present by (intros i Hi; apply Hall; lia).
  destruct (Z.to_nat (b - a)) as [|n'] eqn:Hn; [lia|].
  replace (a + Z.of_nat n')%Z with (b - 1)%Z by lia.
  destruct (Hall (b - 1)%Z ltac:(lia)) as [o Ho]. rewrite Ho. eauto.
Qed.

(** An empty range leaves [obj] unassigned. *)
Lemma process_reference_empty data stem a b dic :
  range_reference data stem a b ->
  (b <= a)%Z ->
  process_reference data dic = Raise (UnboundLocalError "obj").
Proof.
  intros Hr Hab. unfold process_reference.
  rewrite (reference_body_range _ _ _ _ _ Hr).
  by replace (Z.to_nat (b - a)) with O by lia.
Qed.

Lemma range_reference_x03 : range_reference "x{0:3}" "x" 0 3.
Proof. split; [done|]. by exists "0:3}", "0", "3". Qed.

End ReferenceFacts.

Section ResolverFacts.
Context {pymodule klass object : Type}
        `{!Importer pymodule klass} `{!Factory klass object}.
Implicit Types (dic : gmap string object).

(** C1 (amended).  For a reference [stem{start:stop}], if the id
    [stem + str(i)] of some index [i] of [start, stop) is not registered,
    [process_object] fails with the not-found error that names the
    reference as it is written; nothing is returned and the registry is
    left as it was. *)
Theorem process_object_range_not_found data stem a b i dic :
  range_reference data stem a b ->
  (a <= i < b)%Z ->
  dic !! (stem ++ PyStr.str i) = None ->
  process_object (JStr data) dic
  = (Raise (JSONParseError ("Object with ID `" ++ data ++ "' not found")), dic).
Proof.
  intros Hr Hi Hnone. simpl.
  by rewrite (process_reference_missing data stem a b i dic Hr Hi Hnone).
Qed.

(** C9.  A mapping whose [id] is already a key of the registry is
    rejected with the "already exists" error; the registry is returned
    unchanged.  The statement holds for every importer and every factory:
    neither is consulted. *)
Theorem process_object_already_exists items id_ dic :
  Dict.get "id" items = Some (JStr id_) ->
  is_Some (dic !! id_) ->
  process_object (JDict items) dic
  = (Raise (JSONParseError ("Object with ID `" ++ id_ ++ "' already exists")), dic).
Proof.
  intros Hid Hin. simpl. rewrite Hid.
  by rewrite decide_True.
Qed.

(** A construction that succeeds registers the object under its id. *)
Lemma process_object_registers items id_ ty k o dic dic' :
  Dict.get "id" items = Some (JStr id_) ->
  dic !! id_ = None ->
  Dict.get "type" items = Some (JStr ty) ->
  get_class ty = Ok k ->
  from_json_safe k (JDict items) dic = (Ok o, dic') ->
  process_object (JDict items) dic = (Ok o, <[id_ := o]> dic').
Proof.
  intros Hid Hfree Hty Hk Hf. simpl. rewrite Hid.
  rewrite decide_False by (rewrite Hfree; by intros [? ?]).
  unfold Dict.mem, Dict.item. rewrite Hty. simpl. rewrite Hk, Hf. done.
Qed.

(** X26.  [get_class] takes what follows the last dot as the name of the
    class and everything before that dot, other dots included, as the
    name of the module to import; a name without a dot imports the module
    named by the empty string. *)
Theorem get_class_dotted module_name class_name :
  PyStr.contains "." class_name = false ->
  get_class (module_name ++ "." ++ class_name)
  = (let! module := import_module module_name in getattr module class_name) /\
  get_class class_name
  = (let! module := import_module "" in getattr module class_name).
Proof.
  intros Hdot. unfold get_class, PyStr.split. split.
  - change (module_name ++ "." ++ class_name)
      with (module_name ++ String "." class_name).
    rewrite (split_on_app _ module_name "." class_name) by done.
    rewrite (split_on_none _ class_name Hdot).
    rewrite last_last, removelast_last.
    change (PyStr.split_on (Ascii.eqb ".") module_name)
      with (PyStr.split "." module_name).
    by rewrite (join_split "." module_name).
  - by rewrite (split_on_none _ class_name Hdot).
Qed.

(** X22.  A reference [stem{start:stop}] with [start < stop], every id
    [stem + str(i)] of the range being registered: [process_object]
    returns the object registered for the last index, [stop - 1], alone
    (each pass of the loop overwrites the variable that is returned), and
    leaves the registry as it is. *)
Theorem process_object_range_last data stem a b dic :
  range_reference data stem a b ->
  (a < b)%Z ->
  (forall i, (a <= i < b)%Z -> is_Some (dic !! (stem ++ PyStr.str i))) ->
  exists o, dic !! (stem ++ PyStr.str (b - 1)) = Some o /\
            process_object (JStr data) dic = (Ok o, dic).
Proof.
  intros Hr Hab Hall.
  destruct (process_reference_last data stem a b dic Hr Hab Hall) as (o & Ho & Hp).
  exists o. split; [exact Ho|]. simpl. by rewrite Hp.
Qed.

(** X23.  A reference [stem{start:stop}] with [stop <= start]: the loop
    body never runs, the variable that is returned is unbound and
    [process_object] raises [UnboundLocalError], not the parse error,
    whatever the registry holds. *)
Theorem process_object_range_empty data stem a b dic :
  range_reference data stem a b ->
  (b <= a)%Z ->
  process_object (JStr data) dic = (Raise (UnboundLocalError "obj"), dic).
Proof.
  intros Hr Hab. simpl. by rewrite (process_reference_empty data stem a b dic Hr Hab).
Qed.

(** X27.  The reference [stem{a:b}], for every stem without an opening
    brace and all integers [a] and [b] written as [str] prints them, is
    read as the range of the indices from [a] to [b - 1].  [process_object]
    then raises [UnboundLocalError] if [b <= a], the parse error that
    names the whole reference if some id [stem + str(i)] of the range is
    not registered, and returns the object registered for [b - 1] if they
    all are; the registry is never changed. *)
Theorem process_object_canonical_range stem a b dic :
  PyStr.contains "{" stem = false ->
  ((b <= a)%Z ->
   process_object (JStr (canonical_reference stem a b)) dic
   = (Raise (UnboundLocalError "obj"), dic)) /\
  (forall i, (a <= i < b)%Z -> dic !! (stem ++ PyStr.str i) = None ->
   process_object (JStr (canonical_reference stem a b)) dic
   = (Raise (not_found (canonical_reference stem a b)), dic)) /\
  ((a < b)%Z ->
   (forall i, (a <= i < b)%Z -> is_Some (dic !! (stem ++ PyStr.str i))) ->
   exists o, dic !! (stem ++ PyStr.str (b - 1)) = Some o /\
             process_object (JStr (canonical_reference stem a b)) dic = (Ok o, dic)).
Proof.
  intros Hstem. pose proof (range_reference_canonical stem a b Hstem) as Hr.
  split; [|split].
  - intros Hab. simpl. by rewrite (process_reference_empty _ stem a b dic Hr Hab).
  - intros i Hi Hnone. simpl.
    by rewrite (process_reference_missing _ stem a b i dic Hr Hi Hnone).
  - intros Hab Hall.
    destruct (process_reference_last _ stem a b dic Hr Hab Hall) as (o & Ho & Hp).
    exists o. split; [exact Ho|]. simpl. by rewrite Hp.
Qed.

(** The reference to a registered id without a range marker. *)
Lemma process_reference_plain data dic o :
  PyStr.contains "{" data = false -> dic !! data = Some o ->
  process_reference data dic = Ok o.
Proof.
  intros Hplain Ho. unfold process_reference, reference_body, registry_item.
  by rewrite Hplain, Ho.
Qed.

(** X15.  Construction, then reference: when [process_object] builds the
    object [o] from a description with the id [id_] (a string without
    range marker), the id was not registered before and is registered
    afterwards; the reference [id_] then resolves to [o] itself and leaves
    the registry as it is, and the same description is refused as
    "already exists". *)
Theorem process_object_round_trip items id_ o dic dic1 :
  Dict.get "id" items = Some (JStr id_) ->
  PyStr.contains "{" id_ = false ->
  process_object (JDict items) dic = (Ok o, dic1) ->
  dic !! id_ = None /\ dic1 !! id_ = Some o /\
  process_object (JStr id_) dic1 = (Ok o, dic1) /\
  process_object (JDict items) dic1 = (Raise (already_exists id_), dic1).
Proof.
  intros Hid Hplain Hbuild.
  assert (dic !! id_ = None /\ dic1 !! id_ = Some o) as [Hfree Hreg].
  { simpl in Hbuild. rewrite Hid in Hbuild.
    destruct (decide (is_Some (dic !! id_))) as [|Hfree]; [done|].
    destruct (negb (Dict.mem "type" items)); [done|].
    destruct (obind (Dict.item "type" items) get_class_of) as [k|e].
    - destruct (from_json_safe k (JDict items) dic) as [[obj|e] dic'] eqn:Hf; [|done].
      injection Hbuild as <- <-. split.
      + by apply eq_None_not_Some.
      + apply lookup_insert_eq.
    - by destruct e. }
  split; [exact Hfree|]. split; [exact Hreg|]. split.
  - simpl. by rewrite (process_reference_plain id_ dic1 o Hplain Hreg).
  - simpl. rewrite Hid. rewrite decide_True by (by eexists). done.
Qed.

(** X16.  A list of references to registered ids, none with a range
    marker, resolves to the list of the registered objects, in the order
    of the list; the registry is left as it is. *)
Theorem process_objects_references (ids : list string) (os : list object) dic :
  Forall (fun i => PyStr.contains "{" i = false) ids ->
  Forall2 (fun i o => dic !! i = Some o) ids os ->
  process_objects (JList (map JStr ids)) dic = (Ok (inr os), dic).
Proof.
  intros Hplain Hreg.
  assert (process_list (map JStr ids) dic = (Ok os, dic)) as Hlist.
  { induction Hreg as [|i o ids os Ho _ IH]; [done|].
    apply Forall_cons in Hplain. destruct Hplain as [Hi Hids].
    change (process_list (map JStr (i :: ids)) dic)
      with (match process_object (JStr i) dic with
            | (Raise e, dic') => (Raise e : outcome (list object), dic')
            | (Ok o0, dic') =>
                match process_list (map JStr ids) dic' with
                | (Raise e, dic'') => (Raise e, dic'')
                | (Ok os0, dic'') => (Ok (o0 :: os0), dic'')
                end
            end).
    simpl. rewrite (process_reference_plain i dic o Hi Ho).
    by rewrite (IH Hids). }
  simpl. by rewrite Hlist.
Qed.

End ResolverFacts.

(** C1 (as stated, refuted).  With [x0], [x1] and [x2] registered, the
    reference [x{0:3}] resolves to the entry of [x2] alone, not to the list
    of the three entries; and with [x1] missing the error names [x{0:3}],
    not [x1]. *)
Lemma process_object_range_counterexample :
  fst (Sample.resolve (JStr "x{0:3}") Sample.registry3) = Ok (Sample.Atom 12) /\
  Ok (Sample.Atom 12)
  <> Ok (Sample.PyList [Sample.Atom 10; Sample.Atom 11; Sample.Atom 12]) /\
  fst (Sample.resolve (JStr "x{0:3}") (delete "x1" Sample.registry3))
  = Raise (JSONParseError "Object with ID `x{0:3}' not found") /\
  JSONParseError "Object with ID `x{0:3}' not found"
  <> JSONParseError "Object with ID `x1' not found".
Proof.
  unfold Sample.resolve.
  split; [reflexivity|]. split; [discriminate|]. split; [reflexivity|discriminate].
Qed.

Lemma process_object_range_not_found_witness :
  fst (Sample.resolve (JStr "x{0:3}") (delete "x1" Sample.registry3))
  = Raise (JSONParseError "Object with ID `x{0:3}' not found").
Proof.
  unfold Sample.resolve. rewrite (process_object_range_not_found "x{0:3}" "x" 0 3 1).
  - reflexivity.
  - exact range_reference_x03.
  - lia.
  - apply lookup_delete_eq.
Defined.

Lemma process_object_already_exists_witness :
  fst (Sample.resolve
         (JDict [("id", JStr "x1"); ("type", JStr "phylotorch.Parameter")])
         Sample.registry3)
  = Raise (JSONParseError "Object with ID `x1' already exists").
Proof.
  unfold Sample.resolve. rewrite (process_object_already_exists _ "x1").
  - reflexivity.
  - reflexivity.
  - by eexists.
Defined.

Lemma get_class_dotted_witness :
  @get_class _ _ Sample.importer ("torch" ++ "." ++ "float64")
  = (let! module := Sample.import_by_name "torch" in Sample.attribute module "float64") /\
  @get_class _ _ Sample.importer "float64"
  = (let! module := Sample.import_by_name "" in Sample.attribute module "float64").
Proof. exact (@get_class_dotted _ _ Sample.importer "torch" "float64" eq_refl). Defined.

Lemma range_reference_x30 : range_reference "x{3:0}" "x" 3 0.
Proof. split; [done|]. by exists "3:0}", "3", "0". Defined.

Lemma process_object_range_last_witness :
  exists o, Sample.registry3 !! ("x" ++ PyStr.str (3 - 1)) = Some o /\
            Sample.resolve (JStr "x{0:3}") Sample.registry3 = (Ok o, Sample.registry3).
Proof.
  unfold Sample.resolve.
  apply (process_object_range_last "x{0:3}" "x" 0 3 Sample.registry3).
  - split; [reflexivity|]. by exists "0:3}", "0", "3".
  - lia.
  - intros i Hi.
    assert (Hcases : (i = 0 \/ i = 1 \/ i = 2)%Z) by lia.
    destruct Hcases as [Hi0|[Hi0|Hi0]]; subst i; by eexists.
Defined.

Lemma process_object_range_empty_witness :
  Sample.resolve (JStr "x{3:0}") Sample.registry3
  = (Raise (UnboundLocalError "obj"), Sample.registry3).
Proof.
  unfold Sample.resolve.
  apply (process_object_range_empty "x{3:0}" "x" 3 0 Sample.registry3).
  - exact range_reference_x30.
  - lia.
Defined.

Lemma process_object_canonical_range_witness :
  (Sample.resolve (JStr (canonical_reference "x" 2 2)) Sample.registry3
   = (Raise (UnboundLocalError "obj"), Sample.registry3)) /\
  (Sample.resolve (JStr (canonical_reference "x" 1 5)) Sample.registry3
   = (Raise (not_found (canonical_reference "x" 1 5)), Sample.registry3)) /\
  (exists o, Sample.registry3 !! ("x" ++ PyStr.str (2 - 1)) = Some o /\
             Sample.resolve (JStr (canonical_reference "x" 0 2)) Sample.registry3
             = (Ok o, Sample.registry3)).
Proof.
  unfold Sample.resolve. split; [|split].
  - apply (process_object_canonical_range "x" 2 2 Sample.registry3 eq_refl). lia.
  - apply (process_object_canonical_range "x" 1 5 Sample.registry3 eq_refl) with (i := 3%Z).
    + lia.
    + reflexivity.
  - apply (process_object_canonical_range "x" 0 2 Sample.registry3 eq_refl).
    + lia.
    + intros i Hi. assert (Hcases : (i = 0 \/ i = 1)%Z) by lia.
      destruct Hcases as [Hi0|Hi0]; subst i; by eexists.
Defined.

Lemma process_object_round_trip_witness :
  let description := [("id", JStr "y"); ("type", JStr "phylotorch.Parameter")] in
  let dic1 := <["y" := Sample.Atom 0]> Sample.registry3 in
  Sample.registry3 !! "y" = None /\ dic1 !! "y" = Some (Sample.Atom 0) /\
  Sample.resolve (JStr "y") dic1 = (Ok (Sample.Atom 0), dic1) /\
  Sample.resolve (JDict description) dic1
  = (Raise (JSONParseError "Object with ID `y' already exists"), dic1).
Proof.
  intros description dic1. unfold Sample.resolve.
  apply (process_object_round_trip description "y" (Sample.Atom 0) Sample.registry3 dic1);
    reflexivity.
Defined.

Lemma process_objects_references_witness :
  @process_objects _ _ _ Sample.importer (Sample.factory (Sample.Atom 0))
                   (JList (map JStr ["x2"; "x0"])) Sample.registry3
  = (Ok (inr [Sample.Atom 12; Sample.Atom 10]), Sample.registry3).
Proof.
  apply process_objects_references.
  - repeat constructor.
  - repeat constructor.
Defined.


(** ** [Parameter.from_json] *)

Section DictFacts.
Implicit Types (items : list (string * json)) (k : string).

Lemma get_without k ks items :
  Dict.get k (Dict.without ks items)
  = if existsb (String.eqb k) ks then None else Dict.get k items.
Proof.
  induction items as [|[k' v] items IH]; simpl.
  - by destruct (existsb _ ks).
  - destruct (existsb (String.eqb k') ks) eqn:Hk'; simpl.
    + rewrite IH. destruct (String.eqb k k') eqn:Hkk; [|done].
      apply String.eqb_eq in Hkk. subst. by rewrite Hk'.
    + destruct (String.eqb k k') eqn:Hkk.
      * apply String.eqb_eq in Hkk. subst. by rewrite Hk'.
      * apply IH.
Qed.

Lemma mem_without k ks items :
  Dict.mem k (Dict.without ks items)
  = negb (existsb (String.eqb k) ks) && Dict.mem k items.
Proof. unfold Dict.mem. rewrite get_without. by destruct (existsb _ ks). Qed.

Lemma item_without k ks items :
  existsb (String.eqb k) ks = false ->
  Dict.item k (Dict.without ks items) = Dict.item k items.
Proof. intros H. unfold Dict.item. by rewrite get_without, H. Qed.

End DictFacts.

Section FromJsonFacts.
Context {pymodule klass other float : Type}
        `{!Importer pymodule klass} `{!Factory klass (node klass other)}
        `{!Attributes klass other}
        `{!TorchRandom (Tensor klass) klass shape_arg float}.
Implicit Types (data : list (string * json)) (dic : gmap string (node klass other)).

Lemma rand_fill_without ks data dt sh :
  existsb (String.eqb "rand") ks = false ->
  rand_fill (Dict.without ks data) dt sh = rand_fill data dt sh.
Proof. intros H. unfold rand_fill. by rewrite item_without. Qed.

Lemma like_dtype_without ks data dt o :
  existsb (String.eqb "dtype") ks = false ->
  like_dtype (Dict.without ks data) dt o = like_dtype data dt o.
Proof. intros H. unfold like_dtype. by rewrite mem_without, H. Qed.

(** A key that is no directive survives the removal of directives. *)
Lemma other_directives_spare k key :
  existsb (String.eqb key) directives = false ->
  existsb (String.eqb key) (other_directives k) = false.
Proof.
  intros Hkey. apply not_true_is_false. intros Hex.
  apply existsb_exists in Hex as (k' & Hin & Heq).
  apply filter_In in Hin as [Hin _].
  assert (existsb (String.eqb key) directives = true); [|congruence].
  apply existsb_exists. eauto.
Qed.

Lemma rbind_cong {A B} (m1 m2 : R A) (k1 k2 : A -> R B) dic :
  (forall dic', m1 dic' = m2 dic') ->
  (forall a dic', k1 a dic' = k2 a dic') ->
  rbind m1 k1 dic = rbind m2 k2 dic.
Proof.
  intros Hm Hk. unfold rbind. rewrite Hm.
  destruct (m2 dic) as [[a|e] dic']; [apply Hk|done].
Qed.

Lemma obind_cong {A B} (m1 m2 : outcome A) (k1 k2 : A -> outcome B) :
  m1 = m2 -> (forall a, k1 a = k2 a) -> obind m1 k1 = obind m2 k2.
Proof. intros -> Hk. destruct m2; [apply Hk|done]. Qed.

Lemma lift_cong {A} (m1 m2 : outcome A) dic :
  m1 = m2 -> lift m1 dic = lift m2 dic.
Proof. by intros ->. Qed.

(** Both sides are walked in step; every place where the mapping is read
    asks for a key that has not been removed. *)
Ltac without_step :=
  first
    [ reflexivity
    | rewrite mem_without; simpl
    | rewrite item_without by reflexivity
    | rewrite get_without; simpl
    | rewrite like_dtype_without by reflexivity
    | rewrite rand_fill_without by reflexivity
    | apply rbind_cong; intros
    | apply lift_cong
    | apply obind_cong; intros
    | match goal with
      | H : Dict.mem ?k ?d = _ |- context [Dict.mem ?k ?d] => rewrite H; simpl
      | |- context [if Dict.mem ?k ?d then _ else _] => destruct (Dict.mem k d) eqn:?
      end ].

Lemma construct_without data dtype dic k :
  first_directive data = Some k ->
  construct (Dict.without (other_directives k) data) dtype dic
  = construct data dtype dic.
Proof.
  unfold first_directive, directives. simpl.
  destruct (Dict.mem "full_like" data) eqn:H1;
    [|destruct (Dict.mem "full" data) eqn:H2;
      [|destruct (Dict.mem "zeros_like" data) eqn:H3;
        [|destruct (Dict.mem "zeros" data) eqn:H4;
          [|destruct (Dict.mem "ones_like" data) eqn:H5;
            [|destruct (Dict.mem "ones" data) eqn:H6;
              [|destruct (Dict.mem "eye" data) eqn:H7; [|discriminate]]]]]]];
    intros [= <-]; unfold other_directives, directives; simpl;
    unfold construct; repeat without_step.
Qed.

(** C6 (amended).  The directives are resolved by first match in the order
    of the source, [full_like], [full], [zeros_like], [zeros], [ones_like],
    [ones], [eye]: the first of these keys that the mapping contains
    determines the parameter, and the construction goes as if the other
    directive keys were not there. *)
Theorem from_json_first_directive data dic k :
  first_directive data = Some k ->
  from_json data dic = from_json (Dict.without (other_directives k) data) dic.
Proof.
  intros Hk. unfold from_json.
  rewrite !get_without.
  rewrite !(other_directives_spare k) by reflexivity.
  apply rbind_cong; [done|]. intros dtype dic1.
  apply rbind_cong; [intros; symmetry; by apply construct_without|].
  intros t dic2. apply lift_cong.
  rewrite item_without; [done|].
  by apply other_directives_spare.
Qed.

(** What a mapping without any directive key looks like to the chain. *)
Lemma first_directive_none data :
  first_directive data = None ->
  Forall (fun k => Dict.mem k data = false) directives.
Proof.
  unfold first_directive. intros H.
  apply List.Forall_forall. intros k Hk.
  exact (find_none _ _ H k Hk).
Qed.

Lemma nested_numbers (xs : list number) :
  nested (JList (map JNum xs)) = Ok ([Z.of_nat (length xs)], xs).
Proof.
  simpl.
  assert (omap_list nested (map JNum xs) = Ok (map (fun n => ([], [n])) xs)) as ->.
  { induction xs as [|n xs IH]; [done|]. simpl. by rewrite IH. }
  simpl. destruct xs as [|n xs]; [done|].
  cbn [map]. cbv beta iota.
  change ((([] : list Z), [n]) :: map (fun n0 : number => (([] : list Z), [n0])) xs)
    with (map (fun n0 : number => (([] : list Z), [n0])) (n :: xs)).
  match goal with
  | |- context [forallb ?f ?l] => assert (forallb f l = true) as ->
  end.
  { apply forallb_forall. intros r Hr. apply in_map_iff in Hr as (? & <- & _).
    by apply bool_decide_eq_true. }
  do 2 f_equal.
  - by rewrite length_map.
  - clear. induction (n :: xs) as [|m l IH]; [done|]. simpl. by rewrite IH.
Qed.

Lemma length_repeat_each (xs : list number) r :
  length (Np.repeat_each xs r) = (length xs * r)%nat.
Proof.
  unfold Np.repeat_each. induction xs as [|x xs IH]; [done|].
  simpl. rewrite length_app, length_replicate, IH. lia.
Qed.

(** Element [i] of the repeated array is element [i / r] of the array. *)
Lemma repeat_each_lookup (xs : list number) r i :
  (0 < r)%nat -> Np.repeat_each xs r !! i = xs !! (i / r)%nat.
Proof.
  intros Hr. unfold Np.repeat_each. revert i.
  induction xs as [|x xs IH]; intros i; [done|].
  simpl. destruct (decide (i < r)%nat) as [Hlt|Hge].
  - rewrite lookup_app_l by (by rewrite length_replicate).
    rewrite Nat.div_small by done. simpl.
    by apply lookup_replicate_2.
  - rewrite lookup_app_r by (rewrite length_replicate; lia).
    rewrite length_replicate, IH.
    replace i with (1 * r + (i - r))%nat at 2 by lia.
    rewrite Nat.div_add_l by lia. done.
Qed.

Lemma omap_list_Forall2 {A B} (f : A -> outcome B) (l : list A) (l' : list B) :
  Forall2 (fun x y => f x = Ok y) l l' -> omap_list f l = Ok l'.
Proof. induction 1 as [|x y l l' Hxy _ IH]; [done|]. simpl. by rewrite Hxy, IH. Qed.

Lemma Forall2_repeat_each (P : number -> number -> Prop) xs ys r :
  Forall2 P xs ys -> Forall2 P (Np.repeat_each xs r) (Np.repeat_each ys r).
Proof.
  unfold Np.repeat_each. induction 1 as [|x y xs ys Hxy _ IH]; [constructor|].
  simpl. apply Forall2_app; [|done]. by apply Forall2_replicate.
Qed.

(** The array numpy makes of a list of numbers that it can hold. *)
Lemma array_numbers (xs : list number) :
  forallb Np.is_int64 xs = true ->
  Np.array xs = Ok (map (Np.element (existsb Np.is_float xs)) xs).
Proof. intros H. unfold Np.array. by rewrite H. Qed.

(** C7 (amended).  A parameter built from a list of [L >= 1] numbers, whose
    integers fit in 64 bits and which torch converts to the dtype, and a
    [dimension] [d >= 0] has a tensor of length [d] whose element [i] is the
    conversion of [values[i div r]], with [r = d div L + 1]: every value is
    repeated [r] times in a row and the result is cut after [d] elements.
    For [d < L] this is the list of the first [d] values.  With a true [nn]
    the dtype has to be one that can require gradients. *)
Theorem from_json_dimension data dic (xs ys : list number) (d : Z) dt i :
  first_directive data = None ->
  Dict.get "tensor" data = Some (JList (map JNum xs)) ->
  xs <> [] ->
  Dict.get "dimension" data = Some (JNum (NInt d)) ->
  (0 <= d)%Z ->
  get_class_of (default (JStr "torch.float64") (Dict.get "dtype" data)) = Ok dt ->
  is_dtype dt = true ->
  forallb Np.is_int64 xs = true ->
  Forall2 (fun x y => cast dt (Np.element (existsb Np.is_float xs) x) = Ok y) xs ys ->
  (match Dict.get "nn" data with Some v => truthy v | None => false end = true ->
   can_require_grad dt = true) ->
  Dict.get "id" data = Some (JStr i) ->
  exists p,
    from_json data dic = (Ok p, dic) /\
    _id p = Some i /\
    t_shape (_tensor p) = [d] /\
    t_dtype (_tensor p) = dt /\
    t_requires_grad (_tensor p)
    = match Dict.get "nn" data with Some v => truthy v | None => false end /\
    length (t_values (_tensor p)) = Z.to_nat d /\
    (forall j, (j < Z.to_nat d)%nat ->
       t_values (_tensor p) !! j
       = ys !! (j / Z.to_nat (d / Z.of_nat (length xs) + 1))%nat) /\
    ((d < Z.of_nat (length xs))%Z -> t_values (_tensor p) = take (Z.to_nat d) ys).
Proof.
  intros Hnone Hten Hxs Hdim Hd Hdt Hok Harr Hcast Hnn Hid.
  apply first_directive_none in Hnone.
  unfold directives in Hnone.
  repeat (apply Forall_cons in Hnone as [? Hnone]).
  pose proof (Forall2_length _ _ _ Hcast) as Hlenys.
  set (fl := existsb Np.is_float xs) in *.
  set (l := Z.of_nat (length xs)).
  assert (0 < l)%Z as Hl by (subst l; destruct xs; [done|simpl; lia]).
  set (r := Z.to_nat (d / l + 1)).
  assert (0 < r)%nat as Hr
      by (subst r; pose proof (Z.div_pos d l Hd Hl); lia).
  set (zs := map (Np.element fl) xs).
  set (vals := take (Z.to_nat d) (Np.repeat_each ys r)).
  assert (length vals = Z.to_nat d) as Hlen.
  { subst vals. rewrite length_take, length_repeat_each.
    apply Nat.min_l.
    assert (d < l * (d / l + 1))%Z.
    { pose proof (Z.mul_succ_div_gt d l Hl). lia. }
    subst r l. nia. }
  assert (omap_list (cast dt) (take (Z.to_nat d) (Np.repeat_each zs r)) = Ok vals)
    as Hvals.
  { apply omap_list_Forall2. subst vals. apply Forall2_take.
    apply Forall2_repeat_each. subst zs. by apply Forall2_fmap_l. }
  assert (length (take (Z.to_nat d) (Np.repeat_each zs r)) = Z.to_nat d) as Hlenz.
  { transitivity (length vals); [|done]. subst vals zs.
    rewrite !length_take, !length_repeat_each, length_map. by rewrite Hlenys. }
  assert (construct data dt dic
          = (Ok (mkTensor [d] dt vals false), dic)) as Hc.
  { unfold construct.
    repeat match goal with H : Dict.mem _ data = false |- _ => rewrite H; clear H end.
    unfold lift, Dict.item, Dict.mem. rewrite Hten, Hdim. simpl.
    rewrite length_map. fold l.
    unfold Np.repeat.
    rewrite (proj2 (Z.eqb_neq l 0)) by lia.
    rewrite Z.quot_div_nonneg by lia.
    replace ((d + l) / l)%Z with (d / l + 1)%Z
      by (rewrite <- (Z.mul_1_l l) at 2; rewrite Z.div_add by lia; done).
    rewrite (proj2 (Z.ltb_ge (d / l + 1) 0))
      by (pose proof (Z.div_pos d l Hd Hl); lia).
    unfold Np.flatten. rewrite nested_numbers. simpl.
    rewrite (array_numbers xs Harr). fold fl zs. simpl.
    unfold Torch.tensor_of_array. rewrite Hok. simpl.
    unfold Np.slice_to. rewrite (proj2 (Z.ltb_ge d 0)) by lia.
    fold r. rewrite Hvals, Hlenz. simpl. by rewrite Z2Nat.id by lia. }
  set (nn := match Dict.get "nn" data with Some v => truthy v | None => false end) in *.
  exists (mkParameter (Some i) (mkTensor [d] dt vals nn) []).
  split.
  { unfold from_json, rbind, lift. rewrite Hdt, Hc.
    unfold Dict.item. rewrite Hid. fold nn. simpl.
    destruct nn; [|done].
    unfold Torch.nn_Parameter. simpl. by rewrite Hnn. }
  simpl. repeat (split; [done|]).
  assert (forall j, (j < Z.to_nat d)%nat -> vals !! j = ys !! (j / r)%nat) as Hlook.
  { intros j Hj. subst vals. rewrite lookup_take_lt by done.
    by apply repeat_each_lookup. }
  split; [exact Hlook|].
  intros Hshort.
  assert (r = 1%nat) as Hr1 by (subst r; rewrite Z.div_small by lia; lia).
  apply list_eq. intros j.
  destruct (decide (j < Z.to_nat d)%nat) as [Hj|Hj].
  - rewrite (Hlook j Hj), Hr1, Nat.div_1_r. by rewrite lookup_take_lt.
  - rewrite lookup_ge_None_2 by lia.
    symmetry. apply lookup_ge_None_2. rewrite length_take. lia.
Qed.

(** *** The registry and the [_like] directives *)

(** Resolving a value that is no dict registers nothing. *)
Lemma process_object_registry v dic :
  (forall items, v <> JDict items) -> snd (process_object v dic) = dic.
Proof. intros Hv. destruct v; try done. by destruct (Hv items). Qed.

Lemma construct_registry data dt dic :
  (forall k items, In k group_a -> Dict.get k data <> Some (JDict items)) ->
  snd (construct data dt dic) = dic.
Proof.
  intros Hinline.
  assert (forall k (rest : node klass other -> R (Tensor klass)),
             In k group_a ->
             (forall o dic', snd (rest o dic') = dic') ->
             snd (rbind (lift (Dict.item k data))
                        (fun ref => rbind (process_object ref) rest) dic) = dic) as Hlike.
  { intros k rest Hk Hrest. unfold rbind, lift, Dict.item.
    destruct (Dict.get k data) as [v|] eqn:Hv; [|done].
    pose proof (process_object_registry v dic) as Hreg.
    destruct (process_object v dic) as [[o|e] dic'] eqn:Hp; simpl in Hreg.
    - rewrite Hrest. apply Hreg. intros items ->. by eapply Hinline.
    - apply Hreg. intros items ->. by eapply Hinline. }
  assert (forall (m : outcome klass) (rest : klass -> R (Tensor klass)) dic',
             (forall d dic'', snd (rest d dic'') = dic'') ->
             snd (rbind (lift m) rest dic') = dic') as Hdt.
  { intros m rest dic' Hrest. unfold rbind, lift. destruct m; [apply Hrest|done]. }
  unfold construct.
  destruct (Dict.mem "full_like" data).
  { apply Hlike; [by left|]. intros o dic'.
    apply Hdt. intros d dic''.
    by destruct (Dict.mem "rand" data). }
  destruct (Dict.mem "full" data); [done|].
  destruct (Dict.mem "zeros_like" data).
  { apply Hlike; [right; by left|]. intros o dic'.
    by apply Hdt. }
  destruct (Dict.mem "zeros" data); [done|].
  destruct (Dict.mem "ones_like" data).
  { apply Hlike; [right; right; by left|]. intros o dic'.
    by apply Hdt. }
  destruct (Dict.mem "ones" data); [done|].
  by destruct (Dict.mem "eye" data).
Qed.

(** X17.  [Parameter.from_json] registers nothing itself: unless the
    value of [full_like], [zeros_like] or [ones_like] is a description
    written in place (a dict, which [process_object] constructs and
    registers), the registry is the same after the call as before, whether
    the call returns a parameter or raises. *)
Theorem from_json_registry data dic :
  (forall k items, In k group_a -> Dict.get k data <> Some (JDict items)) ->
  snd (from_json data dic) = dic.
Proof.
  intros Hinline. unfold from_json, rbind, lift.
  destruct (get_class_of _) as [dt|e]; [|done].
  pose proof (construct_registry data dt dic Hinline) as Hc.
  destruct (construct data dt dic) as [[t|e] dic']; simpl in Hc; by subst.
Qed.

(** X18.  With [full_like] and [rand] the tensor is drawn with the dtype
    and the shape of the referenced object: the [dtype] entry of the
    description, once it names a class that can be resolved, has no effect
    on the result. *)
Theorem from_json_rand_ignores_dtype data v1 v2 dt1 dt2 dic :
  Dict.mem "full_like" data = true ->
  Dict.mem "rand" data = true ->
  get_class_of v1 = Ok dt1 -> get_class_of v2 = Ok dt2 ->
  from_json (("dtype", v1) :: data) dic = from_json (("dtype", v2) :: data) dic.
Proof.
  intros Hlike Hrand H1 H2. unfold from_json, rbind, lift. simpl.
  rewrite H1, H2.
  assert (construct (("dtype", v1) :: data) dt1 dic
          = construct (("dtype", v2) :: data) dt2 dic) as ->; [|done].
  unfold construct, Dict.mem, Dict.item in *. simpl.
  destruct (Dict.get "full_like" data) as [ref|]; [|done].
  destruct (Dict.get "rand" data) as [r|]; [|done].
  unfold rbind, lift, like_dtype, rand_fill, Dict.mem, Dict.item. simpl.
  destruct (process_object ref dic) as [[o|e] dic']; [|done].
  destruct (Dict.get "rand" data); done.
Qed.

(** X19.  A description whose first directive is [zeros_like], with the
    id of a registered [Parameter] [q] as its value: the new parameter has
    the shape of [q], the dtype of [q] unless the description has a
    [dtype] of its own, all elements zero, as many as the product of the
    dimensions, no listeners, and [requires_grad] as [nn] says; the
    registry is left as it is.  With a true [nn] this dtype has to be one
    that can require gradients: with any other one the call raises the
    [RuntimeError] of [nn.Parameter], the registry again as it was.  The
    default dtype [torch.float64] has to resolve even when the dtype of [q]
    is the one used. *)
Theorem from_json_zeros_like data dic ref (q : Parameter_ (Tensor klass)) dt0 i :
  Dict.mem "full_like" data = false -> Dict.mem "full" data = false ->
  Dict.get "zeros_like" data = Some (JStr ref) ->
  PyStr.contains "{" ref = false -> dic !! ref = Some (NodeParameter q) ->
  get_class_of (default (JStr "torch.float64") (Dict.get "dtype" data)) = Ok dt0 ->
  is_dtype (if Dict.mem "dtype" data then dt0 else t_dtype (_tensor q)) = true ->
  Forall (fun d => (0 <= d)%Z) (t_shape (_tensor q)) ->
  Dict.get "id" data = Some (JStr i) ->
  let dt := if Dict.mem "dtype" data then dt0 else t_dtype (_tensor q) in
  let nn := match Dict.get "nn" data with Some v => truthy v | None => false end in
  if nn && negb (can_require_grad dt)
  then exists msg, from_json data dic = (Raise (RuntimeError msg), dic)
  else
    exists p,
      from_json data dic = (Ok p, dic) /\
      _id p = Some i /\ listeners p = [] /\
      t_shape (_tensor p) = t_shape (_tensor q) /\
      t_dtype (_tensor p) = dt /\
      t_values (_tensor p)
      = replicate (Z.to_nat (Torch.numel (t_shape (_tensor q)))) (NInt 0) /\
      t_requires_grad (_tensor p) = nn.
Proof.
  intros Hfl Hf Hzl Hplain Hq Hdt0 Hdt Hshape Hid dt nn.
  fold dt in Hdt.
  set (t := mkTensor (t_shape (_tensor q)) dt
                     (replicate (Z.to_nat (Torch.numel (t_shape (_tensor q)))) (NInt 0))
                     false).
  assert (construct data dt0 dic = (Ok t, dic)) as Hc.
  { unfold construct. rewrite Hfl, Hf. unfold Dict.mem at 1. rewrite Hzl.
    unfold rbind, lift, Dict.item. rewrite Hzl. simpl.
    rewrite (process_reference_plain ref dic _ Hplain Hq).
    unfold like_dtype. fold dt.
    assert ((if Dict.mem "dtype" data then Ok dt0 else Ok (t_dtype (_tensor q)))
            = Ok dt) as Hlike by (unfold dt; by destruct (Dict.mem "dtype" data)).
    simpl. rewrite Hlike. simpl. unfold Torch.zeros_like, Torch.filled.
    rewrite Hdt. simpl.
    assert (existsb (fun d => (d <? 0)%Z) (t_shape (_tensor q)) = false) as ->; [|done].
    apply not_true_is_false. intros Hex.
    apply existsb_exists in Hex as (d & Hin & Hneg).
    rewrite List.Forall_forall in Hshape. specialize (Hshape d Hin). lia. }
  assert (from_json data dic
          = (let! t' := (if nn then Torch.nn_Parameter t else Ok t) in
             Ok (mkParameter (Some i) t' []), dic)) as ->.
  { unfold from_json, rbind, lift. rewrite Hdt0, Hc.
    unfold Dict.item. rewrite Hid. fold nn. simpl.
    by destruct (if nn then Torch.nn_Parameter t else Ok t). }
  unfold Torch.nn_Parameter. simpl.
  destruct nn; simpl.
  - destruct (can_require_grad dt); simpl; [|by eexists].
    eexists. split; [reflexivity|]. by simpl.
  - eexists. split; [reflexivity|]. by simpl.
Qed.

End FromJsonFacts.

(** C6 (as stated, refuted).  A mapping with [zeros_like] (group a) and
    [full] (group b) is built from [full]: the result is the tensor of shape
    [(2,)] filled with 1.5, not the zeros of the shape [(3,)] of [q] that
    the same mapping without the keys of group b yields. *)
Lemma from_json_priority_counterexample :
  existsb (fun k => Dict.mem k Sample.zeros_like_and_full) group_a = true /\
  existsb (fun k => Dict.mem k Sample.zeros_like_and_full) group_b = true /\
  fst (Sample.build Sample.zeros_like_and_full Sample.registry_q)
  = Ok (mkParameter (Some "p")
          (mkTensor [2%Z] "torch.float64" [NFloat 15 (-1); NFloat 15 (-1)] false) []) /\
  fst (Sample.build (Dict.without group_b Sample.zeros_like_and_full) Sample.registry_q)
  = Ok (mkParameter (Some "p")
          (mkTensor [3%Z] "torch.float64" [NInt 0; NInt 0; NInt 0] false) []) /\
  fst (Sample.build Sample.zeros_like_and_full Sample.registry_q)
  <> fst (Sample.build (Dict.without group_b Sample.zeros_like_and_full)
            Sample.registry_q).
Proof.
  split; [reflexivity|]. split; [reflexivity|].
  split; [reflexivity|]. split; [reflexivity|]. discriminate.
Qed.

Lemma from_json_first_directive_witness :
  first_directive Sample.zeros_like_and_full = Some "full" /\
  Sample.build Sample.zeros_like_and_full Sample.registry_q
  = Sample.build (Dict.without (other_directives "full") Sample.zeros_like_and_full)
      Sample.registry_q.
Proof.
  split; [reflexivity|].
  unfold Sample.build. apply from_json_first_directive. reflexivity.
Defined.

(** C7 (as stated, refuted).  The values [1, 2, 3] with dimension 5 give
    [1, 1, 2, 2, 3]; the cyclic repetition would be [1, 2, 3, 1, 2]. *)
Lemma from_json_dimension_counterexample :
  fst (Sample.build Sample.tensor_123_dimension_5 Sample.registry_q)
  = Ok (mkParameter (Some "p")
          (mkTensor [5%Z] "torch.float64"
             [NInt 1; NInt 1; NInt 2; NInt 2; NInt 3] false) []) /\
  [NInt 1; NInt 1; NInt 2; NInt 2; NInt 3]
  <> map (fun j => default (NInt 0) ([NInt 1; NInt 2; NInt 3] !! (j mod 3)%nat)) (seq 0 5).
Proof. split; [reflexivity|discriminate]. Qed.

Lemma from_json_dimension_witness :
  let data := [("id", JStr "p"); ("dtype", JStr "torch.int64");
               ("tensor", JList [JNum (NFloat 15 (-1)); JNum (NInt 2); JNum (NInt 7)]);
               ("dimension", JNum (NInt 2))] in
  (exists p,
     Sample.build Sample.tensor_123_dimension_5 Sample.registry_q
     = (Ok p, Sample.registry_q) /\
     _id p = Some "p" /\
     t_shape (_tensor p) = [5%Z] /\
     t_dtype (_tensor p) = "torch.float64" /\
     t_requires_grad (_tensor p) = false /\
     length (t_values (_tensor p)) = 5%nat /\
     (forall j, (j < 5)%nat ->
        t_values (_tensor p) !! j = [NInt 1; NInt 2; NInt 3] !! (j / 2)%nat) /\
     ((5 < 3)%Z -> t_values (_tensor p) = take 5 [NInt 1; NInt 2; NInt 3])) /\
  (exists p,
     Sample.build data Sample.registry_q = (Ok p, Sample.registry_q) /\
     _id p = Some "p" /\
     t_shape (_tensor p) = [2%Z] /\
     t_dtype (_tensor p) = "torch.int64" /\
     t_requires_grad (_tensor p) = false /\
     length (t_values (_tensor p)) = 2%nat /\
     (forall j, (j < 2)%nat ->
        t_values (_tensor p) !! j = [NInt 1; NInt 2; NInt 7] !! (j / 1)%nat) /\
     ((2 < 3)%Z -> t_values (_tensor p) = [NInt 1; NInt 2])).
Proof.
  intros data. unfold Sample.build. split.
  - apply (from_json_dimension Sample.tensor_123_dimension_5 Sample.registry_q
             [NInt 1; NInt 2; NInt 3] [NInt 1; NInt 2; NInt 3] 5 "torch.float64" "p");
      try reflexivity; try discriminate; try lia.
    repeat constructor.
  - apply (from_json_dimension data Sample.registry_q
             [NFloat 15 (-1); NInt 2; NInt 7] [NInt 1; NInt 2; NInt 7] 2 "torch.int64" "p");
      try reflexivity; try discriminate; try lia.
    repeat constructor.
Defined.

Lemma from_json_registry_witness :
  snd (Sample.build Sample.zeros_like_and_full Sample.registry_q) = Sample.registry_q.
Proof.
  unfold Sample.build. apply from_json_registry.
  intros k items [<-|[<-|[<-|[]]]]; discriminate.
Defined.

Lemma from_json_rand_ignores_dtype_witness :
  let data := [("id", JStr "p"); ("full_like", JStr "q"); ("rand", JStr "normal")] in
  Sample.build (("dtype", JStr "torch.float32") :: data) Sample.registry_q
  = Sample.build (("dtype", JStr "torch.int64") :: data) Sample.registry_q.
Proof.
  intros data. unfold Sample.build.
  apply (from_json_rand_ignores_dtype data (JStr "torch.float32") (JStr "torch.int64")
           "torch.float32" "torch.int64");
    reflexivity.
Defined.

Lemma from_json_zeros_like_witness :
  let data := [("id", JStr "p"); ("zeros_like", JStr "q"); ("nn", JBool true)] in
  (exists p,
     Sample.build data Sample.registry_q = (Ok p, Sample.registry_q) /\
     _id p = Some "p" /\ listeners p = [] /\
     t_shape (_tensor p) = [3%Z] /\
     t_dtype (_tensor p) = "torch.float64" /\
     t_values (_tensor p) = [NInt 0; NInt 0; NInt 0] /\
     t_requires_grad (_tensor p) = true) /\
  (exists msg,
     Sample.build (("dtype", JStr "torch.int64") :: data) Sample.registry_q
     = (Raise (RuntimeError msg), Sample.registry_q)).
Proof.
  intros data. unfold Sample.build.
  assert (Forall (fun d => (0 <= d)%Z) (t_shape (_tensor Sample.q3))) as Hshape
      by (repeat constructor; discriminate).
  split.
  - pose proof (@from_json_zeros_like _ _ _ _ Sample.importer
                  (Sample.factory (NodeParameter Sample.q3)) Sample.attributes
                  Sample.random data Sample.registry_q "q" Sample.q3
                  "torch.float64" "p") as H.
    do 7 (specialize (H ltac:(reflexivity))).
    exact (H Hshape ltac:(reflexivity)).
  - pose proof (@from_json_zeros_like _ _ _ _ Sample.importer
                  (Sample.factory (NodeParameter Sample.q3)) Sample.attributes
                  Sample.random (("dtype", JStr "torch.int64") :: data)
                  Sample.registry_q "q" Sample.q3 "torch.int64" "p") as H.
    do 7 (specialize (H ltac:(reflexivity))).
    exact (H Hshape ltac:(reflexivity)).
Defined.

(** ** The object graph *)

Module GraphFacts.
Import Graph.

Section GraphFacts.
Context {tensor : Type} `{!Cat tensor}.
Implicit Types (s : list (object tensor)) (tr : list (event tensor))
         (o : object tensor) (a l u d : addr) (v : tensor).

(** *** Running the monad *)

Lemma bind_ok {A B} (m : M A) (k : A -> M B) s x1 s1 tr1 r s2 tr2 :
  m s = Some (Ok x1, s1, tr1) ->
  k x1 s1 = Some (r, s2, tr2) ->
  bind m k s = Some (r, s2, (tr1 ++ tr2)%list).
Proof. intros Hm Hk. unfold bind. by rewrite Hm, Hk. Qed.

Lemma bind_raise {A B} (m : M A) (k : A -> M B) s e s1 tr1 :
  m s = Some (Raise e, s1, tr1) ->
  bind m k s = Some (Raise e, s1, tr1).
Proof. intros Hm. unfold bind. by rewrite Hm. Qed.

Lemma bind_get {B} a (k : object tensor -> M B) s o :
  s !! a = Some o -> bind (get a) k s = k o s.
Proof.
  intros Ho. unfold bind, get. rewrite Ho.
  by destruct (k o s) as [[[r s'] tr']|].
Qed.

Lemma get_ok a s o : s !! a = Some o -> get a s = Some (Ok o, s, []).
Proof. intros Ho. unfold get. by rewrite Ho. Qed.

(** *** [TransformedParameter.update] *)

(** With a list as upstream, [update] stops at [self.x.update]: a list has
    no such method.  Nothing is forwarded and nothing is recomputed. *)
Lemma TransformedParameter_update_list fuel d (t : TransformedParameter tensor) xs
      (value : gmap string tensor) s :
  s !! d = Some (Transformed t) ->
  x t = XList xs ->
  update (S fuel) d value s
  = Some (Raise (AttributeError "'list' object has no attribute 'update'"), s, []).
Proof.
  intros Hd Hx. simpl. rewrite (bind_get _ _ _ _ Hd). by rewrite Hx.
Qed.

(** *** Raising flags *)

Lemma raised_refl o : raised o o.
Proof. by left. Qed.

Lemma raised_trans o1 o2 o3 : raised o1 o2 -> raised o2 o3 -> raised o1 o3.
Proof.
  intros [->|(t & -> & ->)] [->|(t' & Ht' & ->)].
  - by left.
  - right. eauto.
  - right. eauto.
  - injection Ht' as <-. right. exists t. done.
Qed.

Lemma raised_parameter o o' : raised o o' -> parameter_of o' = parameter_of o.
Proof. by intros [->|(t & -> & ->)]. Qed.

Lemma raised_plain (p : Parameter_ tensor) o' : raised (Plain p) o' -> o' = Plain p.
Proof. by intros [->|(t & Ht & _)]. Qed.

Lemma raised_transformed (t : TransformedParameter tensor) o' :
  raised (Transformed t) o' ->
  exists t', o' = Transformed t' /\ base t' = base t /\ x t' = x t /\
             transform t' = transform t /\
             (need_update t = true -> need_update t' = true).
Proof.
  intros [->|(t0 & [= <-] & ->)]; eexists; (split; [done|]); done.
Qed.

Lemma raised_transformed_inv o (t' : TransformedParameter tensor) :
  raised o (Transformed t') -> exists t, o = Transformed t.
Proof. intros [<-|(t & -> & _)]; eauto. Qed.

Lemma raises_refl s : Forall2 raised s s.
Proof. induction s; constructor; [apply raised_refl|done]. Qed.

Lemma raises_trans s1 s2 s3 :
  Forall2 raised s1 s2 -> Forall2 raised s2 s3 -> Forall2 raised s1 s3.
Proof.
  intros H12. revert s3. induction H12 as [|o1 o2 s1 s2 Ho Hs IH]; intros s3 H23.
  - by inversion H23.
  - inversion H23 as [|? o3 ? s3' Ho' Hs']; subst. constructor.
    + by eapply raised_trans.
    + by apply IH.
Qed.

Lemma raises_flag s l (t : TransformedParameter tensor) :
  s !! l = Some (Transformed t) ->
  Forall2 raised s (<[l := Transformed (set_need_update t true)]> s).
Proof.
  intros Hl. rewrite <- (list_insert_id s l _ Hl) at 1.
  apply Forall2_insert; [apply raises_refl|]. right. eauto.
Qed.

Lemma listeners_ok_raises s s' :
  Forall2 raised s s' -> listeners_ok s -> listeners_ok s'.
Proof.
  intros Hr Hok a o' l Ha Hl.
  destruct (Forall2_lookup_r _ _ _ _ _ Hr Ha) as (o & Ho & Hoo').
  rewrite (raised_parameter _ _ Hoo') in Hl.
  destruct (Hok a o l Ho Hl) as (Hlt & t & Ht). split; [done|].
  destruct (Forall2_lookup_l _ _ _ _ _ Hr Ht) as (ol & Hol & Hraise).
  destruct (raised_transformed _ _ Hraise) as (t' & -> & _). eauto.
Qed.

(** A flag that is up stays up. *)
Lemma raises_keeps_flag s s' l (t : TransformedParameter tensor) :
  Forall2 raised s s' ->
  s !! l = Some (Transformed t) -> need_update t = true ->
  exists t', s' !! l = Some (Transformed t') /\ need_update t' = true /\
             base t' = base t.
Proof.
  intros Hr Hl Hflag.
  destruct (Forall2_lookup_l _ _ _ _ _ Hr Hl) as (o' & Ho' & Hraise).
  destruct (raised_transformed _ _ Hraise) as (t' & -> & Hb & _ & _ & Hf). eauto.
Qed.

(** *** [fire_parameter_changed] *)

(** One call of the handler, given what the nested firing does. *)
Lemma handle_step (fire : addr -> M unit) l a s (t : TransformedParameter tensor) o s' tr :
  s !! l = Some (Transformed t) ->
  s !! a = Some o ->
  fire l (<[l := Transformed (set_need_update t true)]> s) = Some (Ok tt, s', tr) ->
  handle_parameter_changed_with fire l a s
  = Some (Ok tt, s', Notified l a (_tensor (parameter_of o)) :: tr).
Proof.
  intros Hl Ha Hfire. unfold handle_parameter_changed_with.
  rewrite (bind_get _ _ _ _ Hl). rewrite (bind_get _ _ _ _ Ha).
  unfold bind, emit, put. by rewrite Hfire.
Qed.

Lemma fired_from_later a b tr :
  a < b -> Forall (fired_from b) tr -> List.filter (notified_by a) tr = [].
Proof.
  intros Hab Hall. induction Hall as [|ev tr [_ Hev] _ IH]; [done|].
  simpl. destruct (notified_by a ev) eqn:Hn; [|done].
  specialize (Hev a Hn). lia.
Qed.

Lemma fired_from_weaken a b tr :
  a <= b -> Forall (fired_from b) tr -> Forall (fired_from a) tr.
Proof.
  intros Hab Hall. eapply Forall_impl; [exact Hall|].
  intros ev [? Hev]. split; [done|].
  intros c Hc. specialize (Hev c Hc). lia.
Qed.

Lemma fire_spec (n : nat) :
  forall s a o,
    listeners_ok s -> s !! a = Some o -> length s - a <= n ->
    exists s' tr,
      fire_parameter_changed n a s = Some (Ok tt, s', tr) /\
      Forall2 raised s s' /\
      (forall l, In l (listeners (parameter_of o)) ->
         exists t', s' !! l = Some (Transformed t') /\ need_update t' = true) /\
      List.filter (notified_by a) tr
      = map (fun l => Notified l a (_tensor (parameter_of o)))
            (listeners (parameter_of o)) /\
      Forall (fired_from a) tr.
Proof.
  induction n as [|n IH]; intros s a o Hok Ha Hn.
  { apply lookup_lt_Some in Ha. lia. }
  simpl. rewrite (bind_get _ _ _ _ Ha).
  set (v := _tensor (parameter_of o)).
  assert (forall ls s1,
             Forall2 raised s s1 ->
             (forall l, In l ls -> In l (listeners (parameter_of o))) ->
             exists s' tr,
               for_each ls (fun listener =>
                              handle_parameter_changed_with
                                (fire_parameter_changed n) listener a) s1
               = Some (Ok tt, s', tr) /\
               Forall2 raised s1 s' /\
               (forall l, In l ls ->
                  exists t', s' !! l = Some (Transformed t') /\ need_update t' = true) /\
               List.filter (notified_by a) tr = map (fun l => Notified l a v) ls /\
               Forall (fired_from a) tr) as Hloop.
  { induction ls as [|l ls IHls]; intros s1 Hr Hin.
    { exists s1, []. repeat split; try done. apply raises_refl. }
    destruct (Hok a o l Ha (Hin l (or_introl eq_refl))) as (Hlt & t & Ht).
    destruct (Forall2_lookup_l _ _ _ _ _ Hr Ht) as (ol & Hl1 & Hraise).
    destruct (raised_transformed _ _ Hraise) as (t1 & -> & _).
    destruct (Forall2_lookup_l _ _ _ _ _ Hr Ha) as (o1 & Ha1 & Hraise_a).
    apply raised_parameter in Hraise_a.
    pose proof (raises_flag s1 l t1 Hl1) as Hr12.
    set (s2 := <[l := Transformed (set_need_update t1 true)]> s1) in *.
    assert (s2 !! l = Some (Transformed (set_need_update t1 true))) as Hl2.
    { apply list_lookup_insert_eq. by eapply lookup_lt_Some. }
    assert (length s2 = length s) as Hlen2.
    { unfold s2. rewrite length_insert. symmetry. by eapply Forall2_length. }
    destruct (IH s2 l _ (listeners_ok_raises _ _ (raises_trans _ _ _ Hr Hr12) Hok)
                 Hl2 ltac:(lia))
      as (s3 & tr3 & Hfire & Hr23 & _ & _ & Hall3).
    pose proof (handle_step _ l a s1 t1 o1 s3 tr3 Hl1 Ha1 Hfire) as Hstep.
    rewrite Hraise_a in Hstep. fold v in Hstep.
    destruct (IHls s3 (raises_trans _ _ _ Hr (raises_trans _ _ _ Hr12 Hr23))
                   (fun l' Hl' => Hin l' (or_intror Hl')))
      as (s' & tr' & Hrest & Hr3 & Hflags & Hfilter & Hall').
    exists s', ((Notified l a v :: tr3) ++ tr')%list.
    split; [|split; [|split; [|split]]].
    - simpl for_each. apply (bind_ok _ _ _ _ _ _ _ _ _ Hstep Hrest).
    - eapply raises_trans; [exact Hr12|]. by eapply raises_trans.
    - intros l' [<-|Hl']; [|by apply Hflags].
      destruct (raises_keeps_flag _ _ _ _ (raises_trans _ _ _ Hr23 Hr3) Hl2 eq_refl)
        as (t' & ? & ? & _). eauto.
    - simpl. rewrite Nat.eqb_refl. rewrite List.filter_app.
      rewrite (fired_from_later a l tr3 Hlt Hall3). simpl. by rewrite Hfilter.
    - apply Forall_app. split; [|done]. constructor.
      + split; [done|]. simpl. intros b Hb. apply Nat.eqb_eq in Hb. lia.
      + eapply fired_from_weaken; [|exact Hall3]. lia. }
  destruct (Hloop (listeners (parameter_of o)) s (raises_refl s) (fun _ H => H))
    as (s' & tr & ? & ? & ? & ? & ?).
  by exists s', tr.
Qed.

(** *** The setter of [tensor] *)

Lemma parameter_of_set__tensor o v :
  parameter_of (set__tensor o v)
  = mkParameter (_id (parameter_of o)) v (listeners (parameter_of o)).
Proof. by destruct o. Qed.

Lemma set__tensor_transformed (t : TransformedParameter tensor) v :
  exists t', set__tensor (Transformed t) v = Transformed t' /\
             x t' = x t /\ transform t' = transform t /\
             need_update t' = need_update t /\
             base t' = mkParameter (_id (base t)) v (listeners (base t)).
Proof. eexists. split; [reflexivity|]. done. Qed.

Lemma listeners_ok_set_tensor s a o v :
  listeners_ok s -> s !! a = Some o -> listeners_ok (<[a := set__tensor o v]> s).
Proof.
  intros Hok Ha b ob l Hb Hl.
  assert (a < length s) as Hlt by (by eapply lookup_lt_Some).
  assert (exists ob0, s !! b = Some ob0 /\
                      listeners (parameter_of ob) = listeners (parameter_of ob0))
    as (ob0 & Hb0 & Hls).
  { destruct (decide (b = a)) as [Heq|Hne]; [subst b|].
    - rewrite list_lookup_insert_eq in Hb by done. injection Hb as <-.
      exists o. by rewrite parameter_of_set__tensor.
    - rewrite list_lookup_insert_ne in Hb by done. eauto. }
  rewrite Hls in Hl. destruct (Hok b ob0 l Hb0 Hl) as (Hbl & t & Ht).
  split; [done|].
  destruct (decide (l = a)) as [Heq|Hne]; [subst l|].
  - rewrite list_lookup_insert_eq by done.
    rewrite Ha in Ht. injection Ht as ->.
    destruct (set__tensor_transformed t v) as (t' & -> & _). eauto.
  - rewrite list_lookup_insert_ne by done. eauto.
Qed.

Lemma filter_filter_implied {A} (f g : A -> bool) (l : list A) :
  (forall y, f y = true -> g y = true) ->
  List.filter f (List.filter g l) = List.filter f l.
Proof.
  intros Hfg. induction l as [|y l IH]; [done|]. simpl.
  destruct (g y) eqn:Hg; simpl.
  - by rewrite IH.
  - rewrite IH. destruct (f y) eqn:Hf; [|done].
    rewrite (Hfg y Hf) in Hg. discriminate.
Qed.

Lemma count_notifications l a v (ls : list addr) :
  length (List.filter (notification l a) (map (fun l' => Notified l' a v) ls))
  = count_occ Nat.eq_dec ls l.
Proof.
  induction ls as [|l' ls IH]; [done|]. simpl.
  rewrite Nat.eqb_refl, andb_true_r.
  destruct (Nat.eq_dec l' l) as [->|Hne].
  - rewrite Nat.eqb_refl. simpl. by rewrite IH.
  - rewrite (proj2 (Nat.eqb_neq l' l) Hne). done.
Qed.

(** C2.  Assigning [v] to the tensor of a [Parameter] [p] (at address [a])
    returns normally, with [p._tensor = v], after calling
    [handle_parameter_changed] of the listeners of [p]: the notifications
    that [p] makes during the call are exactly one per entry of
    [p.listeners], in the order of the list, and at each of them
    [p._tensor] already is the new value [v].  Hence a listener that is
    registered once is notified once. *)
Theorem tensor_setter_notifies s a (p : Parameter_ tensor) v fuel :
  listeners_ok s ->
  s !! a = Some (Plain p) ->
  length s - a <= fuel ->
  exists s' tr,
    tensor_setter fuel a v s = Some (Ok tt, s', tr) /\
    s' !! a = Some (Plain (mkParameter (_id p) v (listeners p))) /\
    List.filter (notified_by a) tr = map (fun l => Notified l a v) (listeners p) /\
    (forall l, length (List.filter (notification l a) tr)
               = count_occ Nat.eq_dec (listeners p) l) /\
    List.filter is_applied tr = [].
Proof.
  intros Hok Ha Hfuel.
  assert (a < length s) as Hlt by (by eapply lookup_lt_Some).
  set (p' := mkParameter (_id p) v (listeners p)).
  set (s1 := <[a := Plain p']> s).
  assert (s1 !! a = Some (Plain p')) as Ha1 by (by apply list_lookup_insert_eq).
  assert (listeners_ok s1) as Hok1
      by exact (listeners_ok_set_tensor s a (Plain p) v Hok Ha).
  destruct (fire_spec fuel s1 a (Plain p') Hok1 Ha1) as (s' & tr & Hfire & Hr & _ & Hfilter & Hall).
  { unfold s1. rewrite length_insert. done. }
  exists s', tr. split; [|split; [|split; [|split]]].
  - unfold tensor_setter. rewrite (bind_get _ _ _ _ Ha).
    unfold bind, put. fold p'. fold s1. by rewrite Hfire.
  - destruct (Forall2_lookup_l _ _ _ _ _ Hr Ha1) as (o' & Ho' & Hraise).
    apply raised_plain in Hraise. by subst.
  - exact Hfilter.
  - intros l.
    rewrite <- (filter_filter_implied (notification l a) (notified_by a)).
    + rewrite Hfilter. apply count_notifications.
    + intros [l' b seen|? ?]; simpl; [|done].
      intros H. by apply andb_true_iff in H as [_ H].
  - clear -Hall. induction Hall as [|ev tr [Hev _] _ IH]; [done|].
    simpl. by rewrite Hev.
Qed.

(** *** Reading [tensor] *)

Lemma refreshed_refl o : refreshed o o.
Proof. by left. Qed.

Lemma refreshed_trans o1 o2 o3 : refreshed o1 o2 -> refreshed o2 o3 -> refreshed o1 o3.
Proof.
  intros [->|(t & v1 & -> & ->)] [->|(t' & v2 & Ht' & ->)].
  - by left.
  - right. eauto.
  - right. eauto.
  - injection Ht' as <-. right. exists t, v2. done.
Qed.

Lemma refreshed_plain (p : Parameter_ tensor) o' : refreshed (Plain p) o' -> o' = Plain p.
Proof. by intros [->|(t & ? & Ht & _)]. Qed.

Lemma refreshed_transformed (t : TransformedParameter tensor) o' :
  refreshed (Transformed t) o' ->
  exists t', o' = Transformed t' /\ x t' = x t /\ transform t' = transform t /\
             listeners (base t') = listeners (base t).
Proof.
  intros [->|(t0 & v0 & [= <-] & ->)]; eexists; (split; [done|]); done.
Qed.

Lemma stores_trans (R : object tensor -> object tensor -> Prop) s1 s2 s3 :
  (forall o1 o2 o3, R o1 o2 -> R o2 o3 -> R o1 o3) ->
  Forall2 R s1 s2 -> Forall2 R s2 s3 -> Forall2 R s1 s3.
Proof.
  intros HR H12. revert s3. induction H12 as [|o1 o2 s1 s2 Ho Hs IH]; intros s3 H23.
  - by inversion H23.
  - inversion H23 as [|? o3 ? s3' Ho' Hs']; subst. constructor; eauto.
Qed.

Lemma refreshes_refl s : Forall2 refreshed s s.
Proof. induction s; constructor; [apply refreshed_refl|done]. Qed.

Lemma refreshes_trans s1 s2 s3 :
  Forall2 refreshed s1 s2 -> Forall2 refreshed s2 s3 -> Forall2 refreshed s1 s3.
Proof. apply stores_trans, refreshed_trans. Qed.

Lemma upstream_ok_refreshes s s' :
  Forall2 refreshed s s' -> upstream_ok s -> upstream_ok s'.
Proof.
  intros Hr Hok a t' x0 Ha Hx.
  destruct (Forall2_lookup_r _ _ _ _ _ Hr Ha) as (o & Ho & Hoo').
  destruct o as [p|t].
  - apply refreshed_plain in Hoo'. discriminate.
  - destruct (refreshed_transformed _ _ Hoo') as (t1 & [= <-] & Hx1 & _).
    rewrite Hx1 in Hx. by eapply Hok.
Qed.

Lemma upstream_ok_raises s s' :
  Forall2 raised s s' -> upstream_ok s -> upstream_ok s'.
Proof.
  intros Hr Hok a t' x0 Ha Hx.
  destruct (Forall2_lookup_r _ _ _ _ _ Hr Ha) as (o & Ho & Hoo').
  destruct o as [p|t].
  - apply raised_plain in Hoo'. discriminate.
  - destruct (raised_transformed _ _ Hoo') as (t1 & [= <-] & _ & Hx1 & _).
    rewrite Hx1 in Hx. by eapply Hok.
Qed.

Lemma upstream_ok_set_tensor s a o v :
  upstream_ok s -> s !! a = Some o -> upstream_ok (<[a := set__tensor o v]> s).
Proof.
  intros Hok Ha b t' x0 Hb Hx.
  assert (a < length s) as Hlt by (by eapply lookup_lt_Some).
  destruct (decide (b = a)) as [Heq|Hne]; [subst b|].
  - rewrite list_lookup_insert_eq in Hb by done. injection Hb as Hb.
    destruct o as [p|t]; [discriminate|].
    destruct (set__tensor_transformed t v) as (t1 & Ht1 & Hx1 & _).
    rewrite Ht1 in Hb. injection Hb as <-.
    rewrite Hx1 in Hx. by eapply Hok.
  - rewrite list_lookup_insert_ne in Hb by done. by eapply Hok.
Qed.

Lemma computed_upto_weaken a b tr :
  a <= b -> Forall (computed_upto a) tr -> Forall (computed_upto b) tr.
Proof.
  intros Hab Hall. eapply Forall_impl; [exact Hall|].
  intros [? ? ?|c inp]; simpl; [done|lia].
Qed.

Lemma computed_below a b tr :
  a < b -> Forall (computed_upto a) tr -> List.filter (applied_at b) tr = [].
Proof.
  intros Hab Hall. induction Hall as [|ev tr Hev _ IH]; [done|].
  simpl. destruct ev as [? ? ?|c inp]; simpl in *; [done|].
  rewrite (proj2 (Nat.eqb_neq c b)) by lia. done.
Qed.

Lemma computed_no_notification a tr :
  Forall (computed_upto a) tr -> forall b, List.filter (notified_by b) tr = [].
Proof.
  intros Hall b. induction Hall as [|ev tr Hev _ IH]; [done|].
  simpl. by destruct ev.
Qed.

Lemma apply_transform_step (getter : addr -> M tensor) a
      (t : TransformedParameter tensor) s input s1 tr0 o1 :
  upstream_tensor_with getter (x t) s = Some (Ok input, s1, tr0) ->
  s1 !! a = Some o1 ->
  apply_transform_with getter a t s
  = Some (Ok tt, <[a := set__tensor o1 (call (transform t) input)]> s1,
          (tr0 ++ [Applied a input])%list).
Proof.
  intros Hin Ho1. unfold apply_transform_with.
  eapply bind_ok; [exact Hin|].
  unfold bind, emit, get, put. by rewrite Ho1.
Qed.

Lemma refresh_dirty_step (getter : addr -> M tensor) a
      (t t2 : TransformedParameter tensor) s s2 tr :
  need_update t = true ->
  apply_transform_with getter a t s = Some (Ok tt, s2, tr) ->
  s2 !! a = Some (Transformed t2) ->
  refresh_with getter a t s
  = Some (Ok tt, <[a := Transformed (set_need_update t2 false)]> s2, tr).
Proof.
  intros Hflag Happly Ht2. unfold refresh_with. rewrite Hflag.
  unfold bind. rewrite Happly. unfold get, put. rewrite Ht2.
  by rewrite app_nil_r.
Qed.

Lemma refresh_clean_step (getter : addr -> M tensor) a
      (t : TransformedParameter tensor) s :
  need_update t = false ->
  refresh_with getter a t s = Some (Ok tt, s, []).
Proof. intros Hflag. unfold refresh_with. by rewrite Hflag. Qed.

Lemma getter_transformed_step n a (t : TransformedParameter tensor) s s1 tr o1 :
  s !! a = Some (Transformed t) ->
  refresh_with (tensor_getter n) a t s = Some (Ok tt, s1, tr) ->
  s1 !! a = Some o1 ->
  tensor_getter (S n) a s = Some (Ok (_tensor (parameter_of o1)), s1, tr).
Proof.
  intros Ha Hrefresh Ho1. simpl. rewrite (bind_get _ _ _ _ Ha).
  unfold bind. rewrite Hrefresh. unfold get, ret. rewrite Ho1.
  by rewrite app_nil_r.
Qed.

(** Reading the upstream of an object at [a], given that reading works
    for the objects constructed before [a]. *)
Lemma upstream_read n a x0 s :
  getter_spec_at n ->
  upstream_ok s -> a <= n -> a <= length s ->
  (forall x1, In x1 (upstream_list x0) -> x1 < a) ->
  exists input s' tr,
    upstream_tensor_with (tensor_getter n) x0 s = Some (Ok input, s', tr) /\
    Forall2 refreshed s s' /\
    (forall b, a <= b -> s' !! b = s !! b) /\
    List.filter (applied_at a) tr = [] /\
    Forall (computed_upto a) tr.
Proof.
  intros IH Hok Han Hlen Hbelow.
  assert (forall x1 s1, x1 < a -> upstream_ok s1 -> length s1 = length s ->
            exists r s' tr,
              tensor_getter n x1 s1 = Some (Ok r, s', tr) /\
              Forall2 refreshed s1 s' /\
              (forall b, a <= b -> s' !! b = s1 !! b) /\
              List.filter (applied_at a) tr = [] /\
              Forall (computed_upto a) tr) as Hone.
  { intros x1 s1 Hx1 Hok1 Hlen1.
    destruct (lookup_lt_is_Some_2 s1 x1 ltac:(lia)) as [o1 Ho1].
    destruct (IH s1 x1 o1 Hok1 Ho1 ltac:(lia)) as (r & s' & tr & Hget & Hr & Hfar & Hall & _).
    exists r, s', tr. repeat split; try done.
    - intros b Hb. apply Hfar. lia.
    - by apply (computed_below x1 a).
    - eapply computed_upto_weaken; [|exact Hall]. lia. }
  destruct x0 as [x1|xs]; simpl in *.
  - apply Hone; [apply Hbelow; by left|done|done].
  - assert (forall s1, upstream_ok s1 -> length s1 = length s ->
              exists ts s' tr,
                map_each xs (tensor_getter n) s1 = Some (Ok ts, s', tr) /\
                Forall2 refreshed s1 s' /\
                (forall b, a <= b -> s' !! b = s1 !! b) /\
                List.filter (applied_at a) tr = [] /\
                Forall (computed_upto a) tr) as Hall.
    { induction xs as [|x1 xs IHxs]; intros s1 Hok1 Hlen1.
      { exists [], s1, []. repeat split; try done. apply refreshes_refl. }
      destruct (Hone x1 s1 (Hbelow x1 (or_introl eq_refl)) Hok1 Hlen1)
        as (r & s2 & tr2 & Hget & Hr12 & Hfar12 & Hf2 & Hall2).
      destruct (IHxs (fun y Hy => Hbelow y (or_intror Hy)) s2
                     (upstream_ok_refreshes _ _ Hr12 Hok1))
        as (ts & s3 & tr3 & Hrest & Hr23 & Hfar23 & Hf3 & Hall3).
      { rewrite <- Hlen1. symmetry. by eapply Forall2_length. }
      exists (r :: ts), s3, (tr2 ++ tr3)%list. split; [|split; [|split; [|split]]].
      - simpl. eapply bind_ok; [exact Hget|].
        unfold bind. rewrite Hrest. unfold ret. by rewrite app_nil_r.
      - by eapply refreshes_trans.
      - intros b Hb. rewrite Hfar23, Hfar12; done.
      - by rewrite List.filter_app, Hf2, Hf3.
      - apply Forall_app. done. }
    destruct (Hall s Hok eq_refl) as (ts & s' & tr & Hmap & ? & ? & ? & ?).
    exists (cat ts), s', tr. split; [|done].
    unfold bind. rewrite Hmap. unfold ret. by rewrite app_nil_r.
Qed.

(** The steps [if self.need_update: self.apply_transform();
    self.need_update = False] on the object [t] at [a]. *)
Lemma refresh_spec n a (t : TransformedParameter tensor) s :
  getter_spec_at n ->
  upstream_ok s -> s !! a = Some (Transformed t) -> a <= n ->
  exists s' tr,
    refresh_with (tensor_getter n) a t s = Some (Ok tt, s', tr) /\
    Forall2 refreshed s s' /\
    (forall b, a < b -> s' !! b = s !! b) /\
    Forall (computed_upto a) tr /\
    (exists t', s' !! a = Some (Transformed t') /\ need_update t' = false /\
                x t' = x t /\ transform t' = transform t /\
                listeners (base t') = listeners (base t)) /\
    (if need_update t
     then length (List.filter (applied_at a) tr) = 1
     else s' = s /\ tr = []).
Proof.
  intros IH Hok Ha Han.
  destruct (need_update t) eqn:Hflag.
  2:{ exists s, []. split; [by apply refresh_clean_step|].
      split; [apply refreshes_refl|]. split; [done|]. split; [done|].
      split; [|done]. exists t. done. }
  assert (a < length s) as Hlen by (by eapply lookup_lt_Some).
  destruct (upstream_read n a (x t) s IH Hok Han (Nat.lt_le_incl _ _ Hlen))
    as (input & s1 & tr0 & Hread & Hr01 & Hfar & Hf0 & Hall0).
  { intros x1 Hx1. by eapply Hok. }
  assert (s1 !! a = Some (Transformed t)) as Ha1 by (rewrite Hfar; [done|lia]).
  pose proof (apply_transform_step _ a t s input s1 tr0 _ Hread Ha1) as Happly.
  destruct (set__tensor_transformed t (call (transform t) input))
    as (t2 & Ht2 & Hx2 & Htr2 & Hf2 & Hb2).
  rewrite Ht2 in Happly.
  assert (a < length s1) as Hlen1 by (by eapply lookup_lt_Some).
  set (s2 := <[a := Transformed t2]> s1) in *.
  assert (s2 !! a = Some (Transformed t2)) as Ha2
      by (by apply list_lookup_insert_eq).
  pose proof (refresh_dirty_step _ a t t2 s s2 _ Hflag Happly Ha2) as Hrefresh.
  set (s3 := <[a := Transformed (set_need_update t2 false)]> s2) in *.
  assert (s3 !! a = Some (Transformed (set_need_update t2 false))) as Ha3.
  { apply list_lookup_insert_eq. unfold s2. by rewrite length_insert. }
  eexists s3, _. split; [exact Hrefresh|]. split; [|split; [|split; [|split]]].
  - eapply refreshes_trans; [exact Hr01|].
    unfold s3, s2. rewrite list_insert_insert_eq.
    rewrite <- (list_insert_id s1 a _ Ha1) at 1.
    apply Forall2_insert; [apply refreshes_refl|].
    right. exists t, (call (transform t) input).
    split; [done|]. f_equal.
    destruct t2 as [b2 tf2 x2 nu2 ps2 ms2 lp2]. simpl in *.
    injection Ht2 as <- <- <- <- <- <- <-. done.
  - intros b Hb. unfold s3, s2.
    rewrite !list_lookup_insert_ne by lia. apply Hfar. lia.
  - apply Forall_app. split; [done|]. constructor; [simpl; lia|constructor].
  - exists (set_need_update t2 false). simpl. rewrite Hb2. done.
  - rewrite List.filter_app, Hf0. simpl. by rewrite Nat.eqb_refl.
Qed.

Lemma getter_spec n : getter_spec_at n.
Proof.
  induction n as [|n IH]; intros s a o Hok Ha Han; [lia|].
  destruct o as [p|t].
  { exists (_tensor p), s, []. split; [|split; [|split; [|split]]]; try done.
    - simpl. by rewrite (bind_get _ _ _ _ Ha).
    - apply refreshes_refl. }
  destruct (refresh_spec n a t s IH Hok Ha ltac:(lia))
    as (s' & tr & Hrefresh & Hr & Hfar & Hall & (t' & Ha' & Hclean & _ & _ & Hls) & Hcount).
  pose proof (getter_transformed_step n a t s s' tr _ Ha Hrefresh Ha') as Hget.
  eexists _, s', tr. split; [exact Hget|]. repeat (split; [done|]).
  split; [|done]. exists t'. done.
Qed.


(** *** Notifications and laziness *)

Lemma fired_no_applied a tr :
  Forall (fired_from a) tr -> List.filter is_applied tr = [].
Proof.
  intros Hall. induction Hall as [|ev tr [Hev _] _ IH]; [done|].
  simpl. by rewrite Hev.
Qed.




(** *** [Parameter.update] *)

(** C10.  For a [Parameter] [p] at address [a]: when [p.id] is not a key
    of [value] (or [p] has no id), [update] returns with the store as it
    was and without any event, so the tensor is unchanged and nothing is
    notified; when [p.id] is a key, [update] is the call of the setter of
    [tensor] with [value[p.id]], with the same result, store and events.
    In a store whose listeners are transformed parameters constructed
    later, that call returns with [value[p.id]] as the tensor of [p], the
    other objects as they were but for [need_update] flags that went up,
    the flag of every listener of [p] up, the notifications made by [p] one
    per entry of [p.listeners], in the order of the list and with the new
    tensor in place, and without any call of a transform. *)
Theorem Parameter_update_spec fuel a (p : Parameter_ tensor) (value : gmap string tensor) s :
  s !! a = Some (Plain p) ->
  ((forall i, _id p = Some i -> value !! i = None) ->
   update (S fuel) a value s = Some (Ok tt, s, [])) /\
  (forall i v, _id p = Some i -> value !! i = Some v ->
   update (S fuel) a value s = tensor_setter fuel a v s /\
   (listeners_ok s -> length s - a <= fuel ->
    exists s' tr,
      update (S fuel) a value s = Some (Ok tt, s', tr) /\
      s' !! a = Some (Plain (mkParameter (Some i) v (listeners p))) /\
      Forall2 raised (<[a := Plain (mkParameter (Some i) v (listeners p))]> s) s' /\
      (forall l, In l (listeners p) ->
         exists t', s' !! l = Some (Transformed t') /\ need_update t' = true) /\
      List.filter (notified_by a) tr = map (fun l => Notified l a v) (listeners p) /\
      List.filter is_applied tr = [])).
Proof.
  intros Ha. split.
  - intros Habsent. simpl. rewrite (bind_get _ _ _ _ Ha).
    destruct (_id p) as [i|] eqn:Hi; [|done].
    by rewrite (Habsent i eq_refl).
  - intros i v Hi Hv.
    assert (update (S fuel) a value s = tensor_setter fuel a v s) as Hset.
    { simpl. rewrite (bind_get _ _ _ _ Ha). by rewrite Hi, Hv. }
    split; [exact Hset|].
    intros Hok Hfuel. rewrite Hset.
    assert (a < length s) as Hlt by (by eapply lookup_lt_Some).
    set (p' := mkParameter (Some i) v (listeners p)).
    set (s1 := <[a := Plain p']> s).
    assert (s1 !! a = Some (Plain p')) as Ha1 by (by apply list_lookup_insert_eq).
    assert (listeners_ok s1) as Hok1.
    { pose proof (listeners_ok_set_tensor s a (Plain p) v Hok Ha) as H.
      unfold set__tensor in H. simpl in H. by rewrite Hi in H. }
    destruct (fire_spec fuel s1 a (Plain p') Hok1 Ha1)
      as (s' & tr & Hfire & Hr & Hflags & Hfilter & Hall).
    { unfold s1. by rewrite length_insert. }
    exists s', tr. split; [|split; [|split; [|split; [|split]]]].
    + unfold tensor_setter. rewrite (bind_get _ _ _ _ Ha).
      unfold bind, put. rewrite Hi. fold p'. fold s1. by rewrite Hfire.
    + destruct (Forall2_lookup_l _ _ _ _ _ Hr Ha1) as (o' & Ho' & Hraise).
      apply raised_plain in Hraise. by subst.
    + exact Hr.
    + exact Hflags.
    + exact Hfilter.
    + by eapply fired_no_applied.
Qed.



(** *** More of the two classes *)

Lemma refreshed_listeners o o' :
  refreshed o o' -> listeners (parameter_of o') = listeners (parameter_of o).
Proof. intros [->|(t & v & -> & ->)]; done. Qed.

Lemma listeners_ok_refreshes s s' :
  Forall2 refreshed s s' -> listeners_ok s -> listeners_ok s'.
Proof.
  intros Hr Hok a o' l Ha Hl.
  destruct (Forall2_lookup_r _ _ _ _ _ Hr Ha) as (o & Ho & Hoo').
  rewrite (refreshed_listeners _ _ Hoo') in Hl.
  destruct (Hok a o l Ho Hl) as (Hlt & t & Ht). split; [done|].
  destruct (Forall2_lookup_l _ _ _ _ _ Hr Ht) as (ol & Hol & Hrefresh).
  destruct (refreshed_transformed _ _ Hrefresh) as (t' & -> & _). eauto.
Qed.

Lemma depends_on_plain s a u :
  depends_on s a u -> exists p, s !! u = Some (Plain p).
Proof. induction 1; eauto. Qed.

Lemma depends_on_before s a u :
  upstream_ok s -> depends_on s a u -> u <= a.
Proof.
  intros Hok. induction 1 as [a p Ha|a t x0 u Ha Hx _ IH]; [done|].
  pose proof (Hok a t x0 Ha Hx). lia.
Qed.

(** *** [parameters()] *)

(** X1.  On a store wired by the constructors, [parameters()] of the
    object at [a] returns, given fuel above [a], a list whose members are
    exactly the plain [Parameter]s that [a] depends on through its
    upstream links ([a] itself for a [Parameter]); the store is left as it
    is, no transform is called and nobody is notified. *)
Theorem parameters_spec n :
  forall s a o,
    upstream_ok s -> s !! a = Some o -> a < n ->
    exists ps,
      parameters n a s = Some (Ok ps, s, []) /\
      (forall u, In u ps <-> depends_on s a u) /\
      (forall u, In u ps -> exists p, s !! u = Some (Plain p)).
Proof.
  induction n as [|n IH]; intros s a o Hok Ha Han; [lia|].
  assert (forall ps, (forall u, In u ps <-> depends_on s a u) ->
                     forall u, In u ps -> exists p, s !! u = Some (Plain p)) as Hplain.
  { intros ps Hps u Hu. eapply depends_on_plain. by apply Hps. }
  assert (a < length s) as Hlen by (by eapply lookup_lt_Some).
  assert (forall x0, x0 < a ->
            exists ps, parameters n x0 s = Some (Ok ps, s, []) /\
                       forall u, In u ps <-> depends_on s x0 u) as Hone.
  { intros x0 Hx0.
    destruct (lookup_lt_is_Some_2 s x0 ltac:(lia)) as [o0 Ho0].
    destruct (IH s x0 o0 Hok Ho0 ltac:(lia)) as (ps & Hps & Hiff & _). eauto. }
  simpl. rewrite (bind_get _ _ _ _ Ha). destruct o as [p|t].
  { exists [a]. split; [done|]. split; [|intros u [<-|[]]; eauto].
    intros u. split.
    - intros [<-|[]]. by econstructor.
    - inversion 1; simplify_eq. by left. }
  destruct (x t) as [x0|xs] eqn:Hx.
  - destruct (Hone x0) as (ps & Hps & Hiff).
    { eapply Hok; [exact Ha|]. rewrite Hx. by left. }
    exists ps. split; [done|].
    assert (forall u, In u ps <-> depends_on s a u) as Hiff'.
    { intros u. rewrite Hiff. split.
      - intros Hd. eapply depends_upstream; [exact Ha| |exact Hd]. rewrite Hx. by left.
      - inversion 1 as [|a' t' x1 u' Ha' Hx1 Hd]; simplify_eq.
        rewrite Hx in Hx1. destruct Hx1 as [<-|[]]. done. }
    split; [done|by apply Hplain].
  - assert (forall ys, (forall y, In y ys -> y < a) ->
              exists pss, map_each ys (parameters n) s = Some (Ok pss, s, []) /\
                          forall u, In u (concat pss) <->
                                    exists y, In y ys /\ depends_on s y u) as Hall.
    { induction ys as [|y ys IHys]; intros Hys.
      { exists []. split; [done|]. intros u. split; [intros []|intros (? & [] & _)]. }
      destruct (Hone y (Hys y (or_introl eq_refl))) as (ps & Hps & Hiff).
      destruct (IHys (fun z Hz => Hys z (or_intror Hz))) as (pss & Hpss & Hiffs).
      exists (ps :: pss). split.
      - simpl. unfold bind. rewrite Hps, Hpss. done.
      - intros u. simpl. rewrite in_app_iff, Hiff, Hiffs. split.
        + intros [Hd|(z & Hz & Hd)]; eauto.
        + intros (z & [<-|Hz] & Hd); eauto. }
    destruct (Hall xs) as (pss & Hpss & Hiffs).
    { intros y Hy. eapply Hok; [exact Ha|]. by rewrite Hx. }
    exists (concat pss). split.
    { unfold bind. rewrite Hpss. done. }
    assert (forall u, In u (concat pss) <-> depends_on s a u) as Hiff'.
    { intros u. rewrite Hiffs. split.
      - intros (y & Hy & Hd). eapply depends_upstream; [exact Ha| |exact Hd].
        by rewrite Hx.
      - inversion 1 as [|a' t' x1 u' Ha' Hx1 Hd]; simplify_eq.
        rewrite Hx in Hx1. eauto. }
    split; [done|by apply Hplain].
Qed.

(** *** The value a read returns *)

(** What an assignment [u.tensor = v] leaves at a listener of [u]: the
    object as it was, with [need_update] up. *)
Lemma setter_listener s u (p : Parameter_ tensor) d (t : TransformedParameter tensor)
      v fuel :
  listeners_ok s ->
  s !! u = Some (Plain p) -> s !! d = Some (Transformed t) ->
  In d (listeners p) ->
  length s - u <= fuel ->
  exists s' tr,
    tensor_setter fuel u v s = Some (Ok tt, s', tr) /\
    Forall2 raised (<[u := Plain (mkParameter (_id p) v (listeners p))]> s) s' /\
    s' !! u = Some (Plain (mkParameter (_id p) v (listeners p))) /\
    (exists t', s' !! d = Some (Transformed t') /\ need_update t' = true /\
                base t' = base t /\ x t' = x t /\ transform t' = transform t) /\
    List.filter (notified_by u) tr = map (fun l => Notified l u v) (listeners p) /\
    List.filter is_applied tr = [].
Proof.
  intros Hok Hu Hd Hin Hfuel.
  set (p' := mkParameter (_id p) v (listeners p)).
  set (s1 := <[u := Plain p']> s).
  assert (u < length s) as Hlt by (by eapply lookup_lt_Some).
  assert (s1 !! u = Some (Plain p')) as Hu1 by (by apply list_lookup_insert_eq).
  assert (listeners_ok s1) as Hok1
      by exact (listeners_ok_set_tensor s u (Plain p) v Hok Hu).
  assert (length s1 = length s) as Hlen1 by (unfold s1; by rewrite length_insert).
  destruct (fire_spec fuel s1 u (Plain p') Hok1 Hu1 ltac:(lia))
    as (s' & tr & Hfire & Hr & Hflags & Hnot & Hall).
  exists s', tr. split; [|split; [|split; [|split; [|split]]]].
  - unfold tensor_setter. rewrite (bind_get _ _ _ _ Hu).
    unfold bind, put. fold p'. fold s1. by rewrite Hfire.
  - exact Hr.
  - destruct (Forall2_lookup_l _ _ _ _ _ Hr Hu1) as (o' & Ho' & Hraise).
    apply raised_plain in Hraise. by subst.
  - destruct (Hok u (Plain p) d Hu Hin) as (Hud & _).
    assert (s1 !! d = Some (Transformed t)) as Hd1.
    { unfold s1. rewrite list_lookup_insert_ne by lia. done. }
    destruct (Forall2_lookup_l _ _ _ _ _ Hr Hd1) as (o' & Ho' & Hraise).
    destruct (raised_transformed _ _ Hraise) as (t' & -> & Hb & Hx & Htr & _).
    destruct (Hflags d Hin) as (t'' & Ht'' & Hflag).
    rewrite Ho' in Ht''. injection Ht'' as <-.
    exists t'. done.
  - exact Hnot.
  - by eapply fired_no_applied.
Qed.

(** Reading a [TransformedParameter] whose flag is up and whose upstream
    is one plain [Parameter]. *)
Lemma getter_dirty_single n d (t : TransformedParameter tensor) u
      (p : Parameter_ tensor) s :
  s !! d = Some (Transformed t) -> s !! u = Some (Plain p) ->
  x t = XOne u -> need_update t = true ->
  exists t',
    tensor_getter (S (S n)) d s
    = Some (Ok (call (transform t) (_tensor p)), <[d := Transformed t']> s,
            [Applied d (_tensor p)]) /\
    need_update t' = false /\ x t' = x t /\ transform t' = transform t /\
    base t' = mkParameter (_id (base t)) (call (transform t) (_tensor p))
                          (listeners (base t)).
Proof.
  intros Hd Hu Hx Hflag.
  assert (d < length s) as Hlen by (by eapply lookup_lt_Some).
  assert (upstream_tensor_with (tensor_getter (S n)) (x t) s
          = Some (Ok (_tensor p), s, [])) as Hread.
  { rewrite Hx. simpl. by rewrite (bind_get _ _ _ _ Hu). }
  pose proof (apply_transform_step _ d t s _ s [] _ Hread Hd) as Happly.
  destruct (set__tensor_transformed t (call (transform t) (_tensor p)))
    as (t2 & Ht2 & Hx2 & Htr2 & Hf2 & Hb2).
  rewrite Ht2 in Happly.
  assert (<[d := Transformed t2]> s !! d = Some (Transformed t2)) as Hd2
      by (by apply list_lookup_insert_eq).
  pose proof (refresh_dirty_step _ d t t2 s _ _ Hflag Happly Hd2) as Hrefresh.
  rewrite list_insert_insert_eq in Hrefresh.
  assert (<[d := Transformed (set_need_update t2 false)]> s !! d
          = Some (Transformed (set_need_update t2 false))) as Hd3
      by (by apply list_lookup_insert_eq).
  pose proof (getter_transformed_step (S n) d t s _ _ _ Hd Hrefresh Hd3) as Hget.
  exists (set_need_update t2 false). split; [|done].
  rewrite Hget. simpl. by rewrite Hb2.
Qed.

(** Reading a [TransformedParameter] whose flag is down. *)
Lemma getter_clean n d (t : TransformedParameter tensor) s :
  s !! d = Some (Transformed t) -> need_update t = false ->
  tensor_getter (S n) d s = Some (Ok (_tensor (base t)), s, []).
Proof.
  intros Hd Hflag.
  exact (getter_transformed_step n d t s s [] _ Hd
           (refresh_clean_step _ d t s Hflag) Hd).
Qed.

(** X2.  For a [TransformedParameter] [d] whose upstream is the single
    plain [Parameter] [u] (and that is subscribed to [u], as the
    constructor leaves it): after [u.tensor = v] the next read of
    [d.tensor] returns [transform(v)], calling the transform once on [v];
    a second read returns the same tensor without calling it. *)
Theorem read_after_assignment s u (p : Parameter_ tensor) d
        (t : TransformedParameter tensor) v fuel :
  listeners_ok s ->
  s !! u = Some (Plain p) -> s !! d = Some (Transformed t) ->
  x t = XOne u -> In d (listeners p) ->
  length s <= fuel -> 2 <= fuel ->
  exists s1 tr1 s2,
    tensor_setter fuel u v s = Some (Ok tt, s1, tr1) /\
    List.filter is_applied tr1 = [] /\
    tensor_getter fuel d s1
    = Some (Ok (call (transform t) v), s2, [Applied d v]) /\
    tensor_getter fuel d s2 = Some (Ok (call (transform t) v), s2, []).
Proof.
  intros Hok Hu Hd Hx Hin Hfuel Hfuel2.
  destruct (setter_listener s u p d t v fuel Hok Hu Hd Hin ltac:(lia))
    as (s1 & tr1 & Hset & _ & Hu1 & (t1 & Hd1 & Hflag & Hb1 & Hx1 & Htr1) & _ & Hna).
  destruct fuel as [|[|n]]; [lia|lia|].
  rewrite Hx in Hx1.
  destruct (getter_dirty_single n d t1 u _ s1 Hd1 Hu1 Hx1 Hflag)
    as (t2 & Hget & Hclean & _ & _ & Hb2).
  simpl in Hget. rewrite Htr1 in Hget.
  exists s1, tr1, (<[d := Transformed t2]> s1).
  split; [exact Hset|]. split; [exact Hna|]. split; [exact Hget|].
  assert (<[d := Transformed t2]> s1 !! d = Some (Transformed t2)) as Hd2.
  { apply list_lookup_insert_eq. by eapply lookup_lt_Some. }
  rewrite (getter_clean (S n) d t2 _ Hd2 Hclean), Hb2. simpl. by rewrite Htr1.
Qed.

(** *** [TransformedParameter.update] with one upstream *)

(** X3.  For a [TransformedParameter] [d] whose upstream is the single
    plain [Parameter] [u], subscribed to it, and a mapping [value] with
    [u.id] among its keys: [d.update(value)] assigns [value[u.id]] to
    [u.tensor] (notifying the listeners of [u] in order), then calls the
    transform on the new value and stores the result in [d._tensor].  It
    does not lower [need_update], which the notification has raised: the
    next read of [d.tensor] calls the transform once more, on the same
    input, and returns the same tensor. *)
Theorem TransformedParameter_update_single s u (p : Parameter_ tensor) i d
        (t : TransformedParameter tensor) (value : gmap string tensor) v fuel :
  listeners_ok s ->
  s !! u = Some (Plain p) -> _id p = Some i -> value !! i = Some v ->
  s !! d = Some (Transformed t) -> x t = XOne u -> In d (listeners p) ->
  length s <= fuel ->
  exists s' tr1 t' s'',
    update (S (S fuel)) d value s = Some (Ok tt, s', (tr1 ++ [Applied d v])%list) /\
    List.filter (notified_by u) tr1 = map (fun l => Notified l u v) (listeners p) /\
    List.filter is_applied tr1 = [] /\
    s' !! u = Some (Plain (mkParameter (Some i) v (listeners p))) /\
    s' !! d = Some (Transformed t') /\
    _tensor (base t') = call (transform t) v /\
    need_update t' = true /\
    tensor_getter (S (S fuel)) d s'
    = Some (Ok (call (transform t) v), s'', [Applied d v]).
Proof.
  intros Hok Hu Hid Hv Hd Hx Hin Hfuel.
  destruct (setter_listener s u p d t v fuel Hok Hu Hd Hin ltac:(lia))
    as (s1 & tr1 & Hset & _ & Hu1 & (t1 & Hd1 & Hflag & Hb1 & Hx1 & Htr1) & Hnot & Hna).
  destruct (set__tensor_transformed t1 (call (transform t) v))
    as (t2 & Ht2 & Hx2 & Htr2 & Hf2 & Hb2).
  assert (d < length s1) as Hlen1 by (by eapply lookup_lt_Some).
  assert (u <> d) as Hud.
  { intros ->. rewrite Hu in Hd. done. }
  set (s2 := <[d := Transformed t2]> s1).
  assert (s2 !! d = Some (Transformed t2)) as Hd2 by (by apply list_lookup_insert_eq).
  assert (s2 !! u = Some (Plain (mkParameter (_id p) v (listeners p)))) as Hu2.
  { unfold s2. rewrite list_lookup_insert_ne by done. done. }
  assert (update (S (S fuel)) d value s
          = Some (Ok tt, s2, (tr1 ++ [Applied d v])%list)) as Hupdate.
  { change (update (S (S fuel)) d value)
      with (bind (get d) (fun o =>
              match o with
              | Plain p0 =>
                  match _id p0 with
                  | Some i0 =>
                      match value !! i0 with
                      | Some v0 => tensor_setter (S fuel) d v0
                      | None => ret tt
                      end
                  | None => ret tt
                  end
              | Transformed t0 =>
                  match x t0 with
                  | XList _ =>
                      raise (AttributeError "'list' object has no attribute 'update'")
                  | XOne x0 =>
                      bind (update (S fuel) x0 value) (fun _ =>
                      bind (tensor_getter (S fuel) x0) (fun input =>
                      bind (emit (Applied d input)) (fun _ =>
                      bind (get d) (fun o' =>
                      put d (set__tensor o' (call (transform t0) input))))))
                  end
              end)).
    rewrite (bind_get _ _ _ _ Hd). rewrite Hx.
    assert (update (S fuel) u value s = Some (Ok tt, s1, tr1)) as Hup.
    { simpl. rewrite (bind_get _ _ _ _ Hu). rewrite Hid, Hv. exact Hset. }
    eapply bind_ok; [exact Hup|].
    assert (tensor_getter (S fuel) u s1 = Some (Ok v, s1, [])) as Hget.
    { simpl. by rewrite (bind_get _ _ _ _ Hu1). }
    unfold bind. rewrite Hget. unfold emit, get, put. rewrite Hd1, Ht2.
    by rewrite app_nil_r. }
  rewrite Hx in Hx1.
  destruct (getter_dirty_single fuel d t2 u _ s2 Hd2 Hu2) as (t3 & Hget & _).
  { by rewrite Hx2. }
  { by rewrite Hf2. }
  simpl in Hget. rewrite Htr2, Htr1 in Hget.
  exists s2, tr1, t2, (<[d := Transformed t3]> s2).
  split; [exact Hupdate|]. split; [exact Hnot|]. split; [exact Hna|].
  split; [by rewrite <- Hid|]. split; [exact Hd2|].
  split; [by rewrite Hb2|]. split; [by rewrite Hf2|]. exact Hget.
Qed.

(** *** The constructors *)

Lemma with_parameter_same o :
  with_parameter o (mkParameter (_id (parameter_of o)) (_tensor (parameter_of o))
                                (listeners (parameter_of o) ++ [])%list) = o.
Proof. rewrite app_nil_r. by destruct o as [[]|[[] ? ? ? ? ? ?]]. Qed.

Lemma parameter_of_with_parameter o (p : Parameter_ tensor) :
  parameter_of (with_parameter o p) = p.
Proof. by destruct o. Qed.

Lemma with_parameter_twice o (p q : Parameter_ tensor) :
  with_parameter (with_parameter o p) q = with_parameter o q.
Proof. by destruct o. Qed.

Lemma with_parameter_transformed o (p : Parameter_ tensor)
      (t' : TransformedParameter tensor) :
  with_parameter o p = Transformed t' ->
  exists t, o = Transformed t /\ x t' = x t /\ transform t' = transform t /\
            need_update t' = need_update t.
Proof. destruct o as [|t]; [done|]. intros [= <-]. by exists t. Qed.

(** The loop [for xx in x: xx.add_parameter_listener(self)]: [self] is
    appended to the listeners of every upstream object, once for each of
    its occurrences, and nothing else changes. *)
Lemma add_listeners_spec self (xs : list addr) :
  forall s,
    (forall x1, In x1 xs -> x1 < length s) ->
    exists s',
      for_each xs (fun xx => add_parameter_listener xx self) s = Some (Ok tt, s', []) /\
      length s' = length s /\
      (forall b o, s !! b = Some o ->
         exists k,
           s' !! b
           = Some (with_parameter o
                     (mkParameter (_id (parameter_of o)) (_tensor (parameter_of o))
                                  (listeners (parameter_of o) ++ replicate k self)%list)) /\
           (In b xs -> 0 < k)).
Proof.
  induction xs as [|x1 xs IH]; intros s Hlt.
  { exists s. split; [done|]. split; [done|]. intros b o Hb. exists 0. split.
    - simpl. by rewrite with_parameter_same.
    - intros []. }
  destruct (lookup_lt_is_Some_2 s x1 (Hlt x1 (or_introl eq_refl))) as [o1 Ho1].
  set (o1' := with_parameter o1
                (mkParameter (_id (parameter_of o1)) (_tensor (parameter_of o1))
                             (listeners (parameter_of o1) ++ [self])%list)).
  set (s1 := <[x1 := o1']> s).
  assert (length s1 = length s) as Hlen1 by (unfold s1; by rewrite length_insert).
  destruct (IH s1) as (s' & Hloop & Hlen & Hall).
  { intros y Hy. rewrite Hlen1. apply Hlt. by right. }
  exists s'. split; [|split; [lia|]].
  { assert (add_parameter_listener x1 self s = Some (Ok tt, s1, [])) as Hadd.
    { unfold add_parameter_listener. by rewrite (bind_get _ _ _ _ Ho1). }
    exact (bind_ok _ _ _ _ _ _ _ _ _ Hadd Hloop). }
  intros b o Hb. destruct (decide (b = x1)) as [Heq|Hne].
  - subst b. rewrite Ho1 in Hb. injection Hb as <-.
    destruct (Hall x1 o1') as (k & Hk & _).
    { apply list_lookup_insert_eq. by eapply lookup_lt_Some. }
    exists (S k). split; [|lia].
    rewrite Hk. unfold o1'. rewrite parameter_of_with_parameter, with_parameter_twice.
    simpl. by rewrite <- app_assoc.
  - destruct (Hall b o) as (k & Hk & Hpos).
    { unfold s1. by rewrite list_lookup_insert_ne. }
    exists k. split; [done|]. intros [Heq|Hin]; [by subst|by apply Hpos].
Qed.

(** [TransformedParameter(id_, x, transform)] on a store wired by the
    constructors, with every upstream object already constructed: the
    upstream is read, the new object is appended to the listeners of
    every upstream object, and the store is again wired as the
    constructors wire it. *)
Lemma new_TransformedParameter_spec s fuel id_ x0 (tf : Transform tensor) :
  listeners_ok s -> upstream_ok s ->
  (forall x1, In x1 (upstream_list x0) -> x1 < length s) ->
  length s <= fuel ->
  exists input s1 s' tr0,
    upstream_tensor_with (tensor_getter fuel) x0 s = Some (Ok input, s1, tr0) /\
    Forall2 refreshed s s1 /\
    (forall b o, s1 !! b = Some o ->
       exists k, s' !! b
                 = Some (with_parameter o
                           (mkParameter (_id (parameter_of o)) (_tensor (parameter_of o))
                                        (listeners (parameter_of o)
                                         ++ replicate k (length s))%list))) /\
    new_TransformedParameter fuel id_ x0 tf s
    = Some (Ok (length s), s', (tr0 ++ [Applied (length s) input])%list) /\
    s' !! length s
    = Some (Transformed (mkTransformed (mkParameter id_ (call tf input) [])
                                       tf x0 false [] [] None)) /\
    length s' = S (length s) /\
    (forall x1, In x1 (upstream_list x0) ->
       exists o1, s' !! x1 = Some o1 /\ In (length s) (listeners (parameter_of o1))) /\
    List.filter (applied_at (length s)) tr0 = [] /\
    listeners_ok s' /\ upstream_ok s'.
Proof.
  intros Hok Hup Hbelow Hfuel.
  destruct (upstream_read fuel (length s) x0 s (getter_spec fuel) Hup Hfuel (le_n _) Hbelow)
    as (input & s1 & tr0 & Hread & Hr01 & _ & Hf0 & _).
  assert (length s1 = length s) as Hlen1 by (symmetry; by eapply Forall2_length).
  pose proof (listeners_ok_refreshes _ _ Hr01 Hok) as Hok1.
  pose proof (upstream_ok_refreshes _ _ Hr01 Hup) as Hup1.
  destruct (add_listeners_spec (length s) (upstream_list x0) s1)
    as (s2 & Hloop & Hlen2 & Hall).
  { intros x1 Hx1. rewrite Hlen1. by apply Hbelow. }
  set (new := Transformed (mkTransformed (mkParameter id_ (call tf input) [])
                                         tf x0 false [] [] None)).
  assert (length s2 = length s) as Hlen by lia.
  assert ((s2 ++ [new])%list !! length s = Some new) as Hnew.
  { rewrite <- Hlen. by rewrite list_lookup_middle. }
  assert (forall b o', b < length s -> (s2 ++ [new])%list !! b = Some o' ->
            exists o k, s1 !! b = Some o /\
              o' = with_parameter o
                     (mkParameter (_id (parameter_of o)) (_tensor (parameter_of o))
                                  (listeners (parameter_of o)
                                   ++ replicate k (length s))%list)) as Hold.
  { intros b o' Hb Ho'. rewrite lookup_app_l in Ho' by lia.
    destruct (lookup_lt_is_Some_2 s1 b ltac:(lia)) as [o Ho].
    destruct (Hall b o Ho) as (k & Hk & _). rewrite Hk in Ho'. injection Ho' as <-.
    eauto. }
  exists input, s1, (s2 ++ [new])%list, tr0.
  split; [exact Hread|]. split; [exact Hr01|]. split.
  { intros b o Ho. destruct (Hall b o Ho) as (k & Hk & _). exists k.
    rewrite lookup_app_l by (rewrite Hlen2; by eapply lookup_lt_Some). exact Hk. }
  split; [|split; [exact Hnew|split; [|split; [|split; [exact Hf0|split]]]]].
  - unfold new_TransformedParameter. eapply bind_ok; [exact Hread|].
    unfold bind, emit. rewrite Hloop. done.
  - rewrite length_app. simpl. lia.
  - intros x1 Hx1.
    destruct (lookup_lt_is_Some_2 s1 x1 ltac:(rewrite Hlen1; by apply Hbelow)) as [o Ho].
    destruct (Hall x1 o Ho) as (k & Hk & Hpos). specialize (Hpos Hx1).
    eexists. split.
    + rewrite lookup_app_l by (rewrite Hlen; by apply Hbelow). exact Hk.
    + rewrite parameter_of_with_parameter. simpl. apply in_app_iff. right.
      destruct k; [lia|]. by left.
  - intros a o' l Ha Hl.
    destruct (decide (a < length s)) as [Hlt|Hge].
    + destruct (Hold a o' Hlt Ha) as (o & k & Ho & ->).
      rewrite parameter_of_with_parameter in Hl. simpl in Hl.
      apply in_app_iff in Hl. destruct Hl as [Hl|Hl].
      * destruct (Hok1 a o l Ho Hl) as (Hal & t & Ht). split; [done|].
        destruct (Hall l _ Ht) as (k' & Hk' & _).
        eexists. rewrite lookup_app_l by (rewrite Hlen2; by eapply lookup_lt_Some).
        exact Hk'.
      * apply list_elem_of_In, elem_of_replicate in Hl. destruct Hl as [Heq _].
        subst l. split; [done|]. eexists. exact Hnew.
    + assert (a = length s) as ->.
      { apply lookup_lt_Some in Ha. rewrite length_app in Ha. simpl in Ha. lia. }
      rewrite Hnew in Ha. injection Ha as <-. destruct Hl.
  - intros a t x1 Ha Hx1.
    destruct (decide (a < length s)) as [Hlt|Hge].
    + destruct (Hold a _ Hlt Ha) as (o & k & Ho & Heq).
      symmetry in Heq. destruct (with_parameter_transformed _ _ _ Heq) as (t0 & -> & Hx & _).
      rewrite Hx in Hx1. by eapply Hup1.
    + assert (a = length s) as ->.
      { apply lookup_lt_Some in Ha. rewrite length_app in Ha. simpl in Ha. lia. }
      rewrite Hnew in Ha. injection Ha as <-. simpl in Hx1. by apply Hbelow.
Qed.

(** A new [Parameter] listens to nothing and nothing listens to it. *)
Lemma new_Parameter_wiring s id_ v :
  listeners_ok s -> upstream_ok s ->
  listeners_ok (s ++ [Plain (mkParameter id_ v [])])%list /\
  upstream_ok (s ++ [Plain (mkParameter id_ v [])])%list.
Proof.
  intros Hok Hup. split.
  - intros a o l Ha Hl. destruct (decide (a < length s)) as [Hlt|Hge].
    + rewrite lookup_app_l in Ha by done.
      destruct (Hok a o l Ha Hl) as (Hal & t & Ht). split; [done|].
      exists t. rewrite lookup_app_l by (by eapply lookup_lt_Some). done.
    + assert (a = length s) as ->.
      { apply lookup_lt_Some in Ha. rewrite length_app in Ha. simpl in Ha. lia. }
      rewrite list_lookup_middle in Ha by done. injection Ha as <-. destruct Hl.
  - intros a t x1 Ha Hx1. destruct (decide (a < length s)) as [Hlt|Hge].
    + rewrite lookup_app_l in Ha by done. by eapply Hup.
    + assert (a = length s) as ->.
      { apply lookup_lt_Some in Ha. rewrite length_app in Ha. simpl in Ha. lia. }
      rewrite list_lookup_middle in Ha by done. done.
Qed.

Lemma refreshed_id o o' :
  refreshed o o' -> _id (parameter_of o') = _id (parameter_of o).
Proof. intros [->|(t & v & -> & ->)]; done. Qed.

(** *** [assign] and [clone] *)

(** X5.  [a.assign(q)] on a store wired by the constructors, for objects
    of either class: the tensor of [q] is read through the property
    (bringing [q] up to date if it is a [TransformedParameter]), written
    to the field [a._tensor], and the listeners of [a] are then notified
    in order, each seeing the new tensor; id and listeners of [a] are as
    before and firing calls no transform.  This holds for a
    [TransformedParameter] [a] as well, on which the assignment
    [a.tensor = r] raises and leaves everything as it is. *)
Theorem assign_spec s a o q oq fuel :
  listeners_ok s -> upstream_ok s ->
  s !! a = Some o -> s !! q = Some oq ->
  length s <= fuel ->
  exists r s1 tr1 s' tr2 o',
    tensor_getter fuel q s = Some (Ok r, s1, tr1) /\
    assign fuel a q s = Some (Ok tt, s', (tr1 ++ tr2)%list) /\
    s' !! a = Some o' /\
    parameter_of o'
    = mkParameter (_id (parameter_of o)) r (listeners (parameter_of o)) /\
    List.filter (notified_by a) tr2
    = map (fun l => Notified l a r) (listeners (parameter_of o)) /\
    List.filter is_applied tr2 = [] /\
    (forall t, o = Transformed t ->
       exists e, tensor_setter fuel a r s = Some (Raise (Exception_ e), s, [])).
Proof.
  intros Hok Hup Ha Hq Hfuel.
  assert (q < fuel) as Hqf by (apply lookup_lt_Some in Hq; lia).
  destruct (getter_spec fuel s q oq Hup Hq Hqf) as (r & s1 & tr1 & Hget & Hr & _).
  destruct (Forall2_lookup_l _ _ _ _ _ Hr Ha) as (o1 & Ha1 & Hoo1).
  pose proof (listeners_ok_refreshes _ _ Hr Hok) as Hok1.
  assert (length s1 = length s) as Hlen1 by (symmetry; by eapply Forall2_length).
  set (s0 := <[a := set__tensor o1 r]> s1).
  assert (s0 !! a = Some (set__tensor o1 r)) as Ha0.
  { apply list_lookup_insert_eq. by eapply lookup_lt_Some. }
  pose proof (listeners_ok_set_tensor s1 a o1 r Hok1 Ha1) as Hok0.
  destruct (fire_spec fuel s0 a _ Hok0 Ha0) as (s' & tr2 & Hfire & Hraise & _ & Hnot & Hall).
  { unfold s0. rewrite length_insert. lia. }
  destruct (Forall2_lookup_l _ _ _ _ _ Hraise Ha0) as (o' & Ha' & Hoo').
  rewrite parameter_of_set__tensor in Hnot. simpl in Hnot.
  rewrite (refreshed_listeners _ _ Hoo1) in Hnot.
  exists r, s1, tr1, s', tr2, o'.
  split; [exact Hget|]. split; [|split; [exact Ha'|split; [|split; [exact Hnot|split]]]].
  - unfold assign. eapply bind_ok; [exact Hget|].
    rewrite (bind_get _ _ _ _ Ha1). unfold bind, put. fold s0. by rewrite Hfire.
  - rewrite (raised_parameter _ _ Hoo'), parameter_of_set__tensor.
    by rewrite (refreshed_listeners _ _ Hoo1), (refreshed_id _ _ Hoo1).
  - by eapply fired_no_applied.
  - intros t ->. eexists. unfold tensor_setter. by rewrite (bind_get _ _ _ _ Ha).
Qed.

(** X6.  [a.clone()] on a store wired by the constructors, for objects of
    either class: the result is a new plain [Parameter] without id and
    without listeners that holds the tensor read from [a]; the store stays
    wired as the constructors wire it, and assigning to the clone's
    tensor changes the clone only: nobody is notified, no transform is
    called. *)
Theorem clone_spec s a o v fuel :
  listeners_ok s -> upstream_ok s ->
  s !! a = Some o -> a < fuel ->
  exists r s1 tr1,
    tensor_getter fuel a s = Some (Ok r, s1, tr1) /\
    clone fuel a s
    = Some (Ok (length s), (s1 ++ [Plain (mkParameter None r [])])%list, tr1) /\
    length s1 = length s /\
    listeners_ok (s1 ++ [Plain (mkParameter None r [])])%list /\
    upstream_ok (s1 ++ [Plain (mkParameter None r [])])%list /\
    tensor_setter fuel (length s) v (s1 ++ [Plain (mkParameter None r [])])%list
    = Some (Ok tt, (s1 ++ [Plain (mkParameter None v [])])%list, []).
Proof.
  intros Hok Hup Ha Hfuel.
  destruct (getter_spec fuel s a o Hup Ha Hfuel) as (r & s1 & tr1 & Hget & Hr & _).
  assert (length s1 = length s) as Hlen1 by (symmetry; by eapply Forall2_length).
  destruct (new_Parameter_wiring s1 None r
              (listeners_ok_refreshes _ _ Hr Hok) (upstream_ok_refreshes _ _ Hr Hup))
    as (Hok' & Hup').
  exists r, s1, tr1. split; [exact Hget|]. split; [|split; [exact Hlen1|split; [exact Hok'|split; [exact Hup'|]]]].
  - unfold clone, bind. rewrite Hget. unfold new_Parameter.
    by rewrite Hlen1, app_nil_r.
  - assert ((s1 ++ [Plain (mkParameter None r [])])%list !! length s
            = Some (Plain (mkParameter None r []))) as Hc.
    { rewrite <- Hlen1. by rewrite list_lookup_middle. }
    unfold tensor_setter. rewrite (bind_get _ _ _ _ Hc). simpl.
    assert (<[length s := Plain (mkParameter None v [])]>
              (s1 ++ [Plain (mkParameter None r [])])%list
            = (s1 ++ [Plain (mkParameter None v [])])%list) as Hins.
    { rewrite <- Hlen1. rewrite insert_app_r_alt by done.
      by rewrite Nat.sub_diag. }
    destruct fuel as [|n]; [lia|].
    unfold bind, put. rewrite Hins. simpl.
    rewrite <- Hlen1 at 1. rewrite (bind_get _ _ _ _ (list_lookup_middle _ _ _ _ eq_refl)).
    done.
Qed.

(** *** Invalidation reaches every listener, and nothing else *)

Lemma listens_same_listeners s s' a d :
  Forall2 (fun o o' => listeners (parameter_of o') = listeners (parameter_of o)) s s' ->
  listens s a d -> listens s' a d.
Proof.
  intros Hsame. induction 1 as [a o l Ha Hl|a o l d Ha Hl _ IH].
  - destruct (Forall2_lookup_l _ _ _ _ _ Hsame Ha) as (o' & Ha' & Heq).
    eapply listens_direct; [exact Ha'|]. by rewrite Heq.
  - destruct (Forall2_lookup_l _ _ _ _ _ Hsame Ha) as (o' & Ha' & Heq).
    eapply listens_through; [exact Ha'| |exact IH]. by rewrite Heq.
Qed.

Lemma listens_raises s s' a d :
  Forall2 raised s s' -> (listens s a d <-> listens s' a d).
Proof.
  intros Hr. split; apply listens_same_listeners.
  - eapply Forall2_impl; [exact Hr|]. intros o o' Hoo'. by rewrite (raised_parameter _ _ Hoo').
  - apply Forall2_flip. eapply Forall2_impl; [exact Hr|].
    intros o o' Hoo'. by rewrite (raised_parameter _ _ Hoo').
Qed.

(** Firing from [a] raises the flag of everything that listens to [a],
    directly or not, and leaves every other object as it is. *)
Lemma fire_reach (n : nat) :
  forall s a o,
    listeners_ok s -> s !! a = Some o -> length s - a <= n ->
    exists s' tr,
      fire_parameter_changed n a s = Some (Ok tt, s', tr) /\
      Forall2 raised s s' /\
      (forall d, listens s a d ->
         exists t', s' !! d = Some (Transformed t') /\ need_update t' = true) /\
      (forall b, ~ listens s a b -> s' !! b = s !! b).
Proof.
  induction n as [|n IH]; intros s a o Hok Ha Hn.
  { apply lookup_lt_Some in Ha. lia. }
  simpl. rewrite (bind_get _ _ _ _ Ha).
  assert (forall ls s1,
             Forall2 raised s s1 ->
             (forall l, In l ls -> In l (listeners (parameter_of o))) ->
             exists s' tr,
               for_each ls (fun listener =>
                              handle_parameter_changed_with
                                (fire_parameter_changed n) listener a) s1
               = Some (Ok tt, s', tr) /\
               Forall2 raised s1 s' /\
               (forall l d, In l ls -> d = l \/ listens s l d ->
                  exists t', s' !! d = Some (Transformed t') /\ need_update t' = true) /\
               (forall b, ~ listens s a b -> s' !! b = s1 !! b)) as Hloop.
  { induction ls as [|l ls IHls]; intros s1 Hr Hin.
    { exists s1, []. repeat split; try done. apply raises_refl. }
    destruct (Hok a o l Ha (Hin l (or_introl eq_refl))) as (Hlt & t & Ht).
    destruct (Forall2_lookup_l _ _ _ _ _ Hr Ht) as (ol & Hl1 & Hraise).
    destruct (raised_transformed _ _ Hraise) as (t1 & -> & _).
    destruct (Forall2_lookup_l _ _ _ _ _ Hr Ha) as (o1 & Ha1 & Hraise_a).
    pose proof (raises_flag s1 l t1 Hl1) as Hr12.
    set (s2 := <[l := Transformed (set_need_update t1 true)]> s1) in *.
    assert (s2 !! l = Some (Transformed (set_need_update t1 true))) as Hl2.
    { apply list_lookup_insert_eq. by eapply lookup_lt_Some. }
    assert (length s2 = length s) as Hlen2.
    { unfold s2. rewrite length_insert. symmetry. by eapply Forall2_length. }
    pose proof (raises_trans _ _ _ Hr Hr12) as Hr02.
    destruct (IH s2 l _ (listeners_ok_raises _ _ Hr02 Hok) Hl2 ltac:(lia))
      as (s3 & tr3 & Hfire & Hr23 & Hflags3 & Hframe3).
    pose proof (handle_step _ l a s1 t1 o1 s3 tr3 Hl1 Ha1 Hfire) as Hstep.
    destruct (IHls s3 (raises_trans _ _ _ Hr02 Hr23)
                   (fun l' Hl' => Hin l' (or_intror Hl')))
      as (s' & tr' & Hrest & Hr3 & Hflags & Hframe).
    eexists s', _. split; [|split; [|split]].
    - simpl for_each. apply (bind_ok _ _ _ _ _ _ _ _ _ Hstep Hrest).
    - eapply raises_trans; [exact Hr12|]. by eapply raises_trans.
    - intros l' d [<-|Hl'] Hd; [|by eapply Hflags].
      assert (exists t3, s3 !! d = Some (Transformed t3) /\ need_update t3 = true)
        as (t3 & Hd3 & Hf3).
      { destruct Hd as [->|Hd].
        - destruct (raises_keeps_flag _ _ _ _ Hr23 Hl2 eq_refl) as (t' & ? & ? & _).
          eauto.
        - apply Hflags3. by apply (listens_raises _ _ _ _ Hr02). }
      destruct (raises_keeps_flag _ _ _ _ Hr3 Hd3 Hf3) as (t' & ? & ? & _). eauto.
    - intros b Hb. rewrite (Hframe b Hb).
      rewrite Hframe3.
      + unfold s2. rewrite list_lookup_insert_ne; [done|].
        intros <-. apply Hb. eapply listens_direct; [exact Ha|]. apply Hin. by left.
      + intros Hlb. apply Hb. apply (listens_raises _ _ _ _ Hr02) in Hlb.
        eapply listens_through; [exact Ha| |exact Hlb]. apply Hin. by left. }
  destruct (Hloop (listeners (parameter_of o)) s (raises_refl s) (fun _ H => H))
    as (s' & tr & Hfire & Hr & Hflags & Hframe).
  exists s', tr. split; [exact Hfire|]. split; [exact Hr|]. split; [|exact Hframe].
  intros d Hd. inversion Hd as [a' o' l Ha' Hl|a' o' l d' Ha' Hl Hld]; subst;
    rewrite Ha in Ha'; injection Ha' as <-.
  - apply (Hflags d d Hl). by left.
  - apply (Hflags l d Hl). by right.
Qed.

(** X28.  An assignment [u.tensor = v] raises [need_update] in every
    [TransformedParameter] that listens to [u], directly or through other
    [TransformedParameter]s, however long the chain, and leaves every
    object that does not (other than [u] itself) exactly as it was. *)
Theorem tensor_setter_invalidates s u (p : Parameter_ tensor) v fuel :
  listeners_ok s ->
  s !! u = Some (Plain p) ->
  length s - u <= fuel ->
  exists s' tr,
    tensor_setter fuel u v s = Some (Ok tt, s', tr) /\
    (forall d, listens s u d ->
       exists t', s' !! d = Some (Transformed t') /\ need_update t' = true) /\
    (forall b, b <> u -> ~ listens s u b -> s' !! b = s !! b).
Proof.
  intros Hok Hu Hfuel.
  set (p' := mkParameter (_id p) v (listeners p)).
  set (s1 := <[u := Plain p']> s).
  assert (u < length s) as Hlt by (by eapply lookup_lt_Some).
  assert (s1 !! u = Some (Plain p')) as Hu1 by (by apply list_lookup_insert_eq).
  assert (listeners_ok s1) as Hok1
      by exact (listeners_ok_set_tensor s u (Plain p) v Hok Hu).
  assert (Forall2 (fun o o' => listeners (parameter_of o') = listeners (parameter_of o))
                  s s1) as Hsame.
  { unfold s1. rewrite <- (list_insert_id s u _ Hu) at 1.
    apply Forall2_insert; [|done]. by apply Forall_Forall2_diag, Forall_true. }
  destruct (fire_reach fuel s1 u (Plain p') Hok1 Hu1)
    as (s' & tr & Hfire & _ & Hflags & Hframe).
  { unfold s1. rewrite length_insert. lia. }
  exists s', tr. split; [|split].
  - unfold tensor_setter. rewrite (bind_get _ _ _ _ Hu).
    unfold bind, put. fold p'. fold s1. by rewrite Hfire.
  - intros d Hd. apply Hflags. by apply (listens_same_listeners s s1).
  - intros b Hb Hnot. rewrite Hframe.
    + unfold s1. by rewrite list_lookup_insert_ne.
    + intros Hl. apply Hnot. apply (listens_same_listeners s1 s); [|done].
      apply Forall2_flip. eapply Forall2_impl; [exact Hsame|].
      intros o o' Heq. unfold flip. by symmetry.
Qed.

(** *** What a read returns *)

Lemma raised_same o o' : raised o o' -> same_wiring o o' /\ same_values o o'.
Proof.
  intros [->|(t & -> & ->)].
  - by destruct o.
  - done.
Qed.

Lemma refreshed_same o o' : refreshed o o' -> same_wiring o o' /\ same_values o o'.
Proof.
  intros [->|(t & v & -> & ->)].
  - by destruct o.
  - done.
Qed.

Lemma same_values_sym o o' : same_values o o' -> same_values o' o.
Proof. destruct o, o'; simpl; try done. by intros [-> ->]. Qed.

Lemma denotes_into s s' :
  upstream_ok s ->
  (forall a o, s !! a = Some o -> exists o', s' !! a = Some o' /\ same_values o o') ->
  forall a r, denotes s a r -> denotes s' a r.
Proof.
  intros Hup Hs a. induction a as [a IH] using lt_wf_ind. intros r Hd.
  inversion Hd as [a' p Ha|a' t x1 r1 Ha Hx Hr1|a' t xs rs Ha Hx Hrs]; subst.
  - destruct (Hs _ _ Ha) as (o' & Ha' & Hoo').
    destruct o' as [p'|]; [|done]. simpl in Hoo'. rewrite <- Hoo'.
    by apply denotes_plain.
  - destruct (Hs _ _ Ha) as (o' & Ha' & Hoo').
    destruct o' as [|t']; [done|]. destruct Hoo' as [Hxt Htf].
    rewrite <- Htf. eapply denotes_one; [exact Ha'|by rewrite Hxt|].
    apply IH; [|done]. eapply Hup; [exact Ha|]. rewrite Hx. by left.
  - destruct (Hs _ _ Ha) as (o' & Ha' & Hoo').
    destruct o' as [|t']; [done|]. destruct Hoo' as [Hxt Htf].
    rewrite <- Htf. eapply denotes_list; [exact Ha'|by rewrite Hxt|].
    assert (forall y, In y xs -> y < a) as Hbelow.
    { intros y Hy. eapply Hup; [exact Ha|]. by rewrite Hx. }
    clear -IH Hrs Hbelow. induction Hrs as [|y r ys rs Hy _ IHrs]; constructor.
    + apply IH; [|done]. apply Hbelow. by left.
    + apply IHrs. intros z Hz. apply Hbelow. by right.
Qed.

Lemma same_wiring_sym o o' : same_wiring o o' -> same_wiring o' o.
Proof.
  intros [Hl Hk]. split; [done|]. destruct o, o'; simpl in *; try done.
  by destruct Hk as [-> ->].
Qed.

Lemma stores_same (R : object tensor -> object tensor -> Prop) s s' :
  (forall o o', R o o' -> same_wiring o o' /\ same_values o o') ->
  Forall2 R s s' ->
  Forall2 same_wiring s s' /\ Forall2 same_values s s' /\
  Forall2 same_wiring s' s /\ Forall2 same_values s' s.
Proof.
  intros HR Hs. repeat split.
  - eapply Forall2_impl; [exact Hs|]. intros o o' H. by apply HR.
  - eapply Forall2_impl; [exact Hs|]. intros o o' H. by apply HR.
  - apply Forall2_flip. eapply Forall2_impl; [exact Hs|].
    intros o o' H. apply same_wiring_sym. by apply HR.
  - apply Forall2_flip. eapply Forall2_impl; [exact Hs|].
    intros o o' H. apply same_values_sym. by apply HR.
Qed.

Lemma upstream_ok_same s s' :
  Forall2 same_values s s' -> upstream_ok s -> upstream_ok s'.
Proof.
  intros Hs Hup a t' x0 Ha Hx.
  destruct (Forall2_lookup_r _ _ _ _ _ Hs Ha) as (o & Ho & Hoo').
  destruct o as [p|t]; [done|]. destruct Hoo' as [Hxt _].
  rewrite Hxt in Hx. by eapply Hup.
Qed.

(** What an object stands for depends on the tensors of the plain
    parameters and on the wiring only. *)
Lemma denotes_same s s' :
  upstream_ok s -> Forall2 same_values s s' ->
  forall a r, denotes s a r -> denotes s' a r.
Proof.
  intros Hup Hs. apply denotes_into; [done|].
  intros a o Ha. by apply (Forall2_lookup_l _ _ _ _ _ Hs Ha).
Qed.

Lemma subscribed_same s s' :
  Forall2 same_wiring s s' -> subscribed s -> subscribed s'.
Proof.
  intros Hs Hsub d t' x0 Hd Hx.
  destruct (Forall2_lookup_r _ _ _ _ _ Hs Hd) as (o & Ho & [_ Hk]).
  destruct o as [|t]; [done|]. destruct Hk as [Hxt _]. rewrite Hxt in Hx.
  destruct (Hsub d t x0 Ho Hx) as (o0 & Hx0 & Hin).
  destruct (Forall2_lookup_l _ _ _ _ _ Hs Hx0) as (o0' & Hx0' & [Hl _]).
  exists o0'. split; [done|]. by rewrite Hl.
Qed.

Lemma listens_snoc s a l d o :
  listens s a l -> s !! l = Some o -> In d (listeners (parameter_of o)) ->
  listens s a d.
Proof.
  induction 1 as [a oa l Ha Hl|a oa l m Ha Hl _ IH]; intros Ho Hd.
  - eapply listens_through; [exact Ha|exact Hl|]. by eapply listens_direct.
  - eapply listens_through; [exact Ha|exact Hl|]. by apply IH.
Qed.

(** With every object subscribed to its upstream, what depends on [u]
    listens to [u]. *)
Lemma depends_listens s d u :
  subscribed s -> depends_on s d u -> d <> u -> listens s u d.
Proof.
  intros Hsub. induction 1 as [a p Ha|a t x0 u Ha Hx Hdep IH]; [done|]. intros _.
  destruct (Hsub a t x0 Ha Hx) as (o0 & Hx0 & Hin).
  destruct (decide (x0 = u)) as [Heq|Hne].
  - subst x0. by eapply listens_direct.
  - eapply listens_snoc; [by apply IH|exact Hx0|exact Hin].
Qed.

(** What does not depend on [u] stands for the same tensor whatever the
    tensor of [u]. *)
Lemma denotes_frame s u (p p' : Parameter_ tensor) :
  upstream_ok s -> s !! u = Some (Plain p) ->
  forall d r, ~ depends_on s d u -> denotes s d r ->
              denotes (<[u := Plain p']> s) d r.
Proof.
  intros Hup Hu d. induction d as [d IH] using lt_wf_ind. intros r Hnot Hd.
  assert (d <> u -> <[u := Plain p']> s !! d = s !! d) as Hother
      by (intros Hne; by rewrite list_lookup_insert_ne).
  inversion Hd as [a' q Ha|a' t x1 r1 Ha Hx Hr1|a' t xs rs Ha Hx Hrs]; subst.
  - apply denotes_plain. rewrite Hother; [done|].
    intros ->. apply Hnot. by eapply depends_plain.
  - eapply denotes_one; [|exact Hx|].
    + rewrite Hother; [done|]. intros ->. by rewrite Hu in Ha.
    + apply IH; [|  |done].
      * eapply Hup; [exact Ha|]. rewrite Hx. by left.
      * intros Hdep. apply Hnot. eapply depends_upstream; [exact Ha| |exact Hdep].
        rewrite Hx. by left.
  - eapply denotes_list; [|exact Hx|].
    + rewrite Hother; [done|]. intros ->. by rewrite Hu in Ha.
    + assert (forall y, In y xs -> y < d /\ ~ depends_on s y u) as Hbelow.
      { intros y Hy. split.
        - eapply Hup; [exact Ha|]. by rewrite Hx.
        - intros Hdep. apply Hnot. eapply depends_upstream; [exact Ha| |exact Hdep].
          by rewrite Hx. }
      clear -IH Hrs Hbelow. induction Hrs as [|y r ys rs Hy _ IHrs]; constructor.
      * destruct (Hbelow y (or_introl eq_refl)). by apply IH.
      * apply IHrs. intros z Hz. apply Hbelow. by right.
Qed.

(** Reading the tensor of [a] in a coherent store: the result is what [a]
    stands for, and the store stays coherent. *)
Lemma getter_sound n :
  forall s a o,
    upstream_ok s -> coherent s -> s !! a = Some o -> a < n ->
    exists r s' tr,
      tensor_getter n a s = Some (Ok r, s', tr) /\
      Forall2 refreshed s s' /\
      (forall b, a < b -> s' !! b = s !! b) /\
      coherent s' /\
      denotes s a r.
Proof.
  induction n as [|n IH]; intros s a o Hup Hco Ha Han; [lia|].
  destruct o as [p|t].
  { exists (_tensor p), s, []. split; [|split; [|split; [|split]]]; try done.
    - simpl. by rewrite (bind_get _ _ _ _ Ha).
    - apply refreshes_refl.
    - by apply denotes_plain. }
  destruct (need_update t) eqn:Hflag.
  2:{ exists (_tensor (base t)), s, []. split; [|split; [|split; [|split]]]; try done.
      - by apply getter_clean.
      - apply refreshes_refl.
      - by apply Hco. }
  assert (forall x1 s1, x1 < a -> upstream_ok s1 -> coherent s1 ->
            length s1 = length s ->
            exists r s' tr,
              tensor_getter n x1 s1 = Some (Ok r, s', tr) /\
              Forall2 refreshed s1 s' /\
              (forall b, a <= b -> s' !! b = s1 !! b) /\
              coherent s' /\
              denotes s1 x1 r) as Hone.
  { intros x1 s1 Hx1 Hup1 Hco1 Hlen1.
    assert (a < length s) as Hlen by (by eapply lookup_lt_Some).
    destruct (lookup_lt_is_Some_2 s1 x1 ltac:(lia)) as [o1 Ho1].
    destruct (IH s1 x1 o1 Hup1 Hco1 Ho1 ltac:(lia))
      as (r & s' & tr & Hget & Hr & Hfar & Hco' & Hden).
    exists r, s', tr. split; [done|]. split; [done|]. split; [|done].
    intros b Hb. apply Hfar. lia. }
  assert (forall xs s1, (forall y, In y xs -> y < a) ->
            upstream_ok s1 -> coherent s1 -> length s1 = length s ->
            exists rs s' tr,
              map_each xs (tensor_getter n) s1 = Some (Ok rs, s', tr) /\
              Forall2 refreshed s1 s' /\
              (forall b, a <= b -> s' !! b = s1 !! b) /\
              coherent s' /\
              Forall2 (denotes s1) xs rs) as Hall.
  { induction xs as [|x1 xs IHxs]; intros s1 Hbelow Hup1 Hco1 Hlen1.
    { exists [], s1, []. split; [done|]. split; [apply refreshes_refl|].
      split; [done|]. split; [done|constructor]. }
    destruct (Hone x1 s1 (Hbelow x1 (or_introl eq_refl)) Hup1 Hco1 Hlen1)
      as (r & s2 & tr2 & Hget & Hr12 & Hfar12 & Hco2 & Hden).
    pose proof (upstream_ok_refreshes _ _ Hr12 Hup1) as Hup2.
    destruct (IHxs s2 (fun y Hy => Hbelow y (or_intror Hy)) Hup2 Hco2)
      as (rs & s3 & tr3 & Hrest & Hr23 & Hfar23 & Hco3 & Hdens).
    { rewrite <- Hlen1. symmetry. by eapply Forall2_length. }
    exists (r :: rs), s3, (tr2 ++ tr3)%list. split; [|split; [|split; [|split]]].
    - simpl. eapply bind_ok; [exact Hget|].
      unfold bind. rewrite Hrest. unfold ret. by rewrite app_nil_r.
    - by eapply refreshes_trans.
    - intros b Hb. rewrite Hfar23, Hfar12; done.
    - exact Hco3.
    - constructor; [exact Hden|].
      destruct (stores_same refreshed s1 s2 refreshed_same Hr12) as (_ & _ & _ & Hback).
      eapply Forall2_impl; [exact Hdens|]. intros y ry. by apply denotes_same. }
  assert (exists input s1 tr0,
             upstream_tensor_with (tensor_getter n) (x t) s = Some (Ok input, s1, tr0) /\
             Forall2 refreshed s s1 /\
             (forall b, a <= b -> s1 !! b = s !! b) /\
             coherent s1 /\
             denotes s a (call (transform t) input))
    as (input & s1 & tr0 & Hread & Hr01 & Hfar & Hco1 & Hden).
  { destruct (x t) as [x1|xs] eqn:Hx.
    - destruct (Hone x1 s) as (r & s1 & tr0 & Hget & Hr & Hfar & Hco1 & Hden);
        [|done|done|done|].
      { eapply Hup; [exact Ha|]. rewrite Hx. by left. }
      exists r, s1, tr0. split; [done|]. split; [done|]. split; [done|].
      split; [done|]. by eapply denotes_one.
    - destruct (Hall xs s) as (rs & s1 & tr0 & Hmap & Hr & Hfar & Hco1 & Hdens);
        [|done|done|done|].
      { intros y Hy. eapply Hup; [exact Ha|]. by rewrite Hx. }
      exists (cat rs), s1, tr0. split; [|split; [|split; [|split]]]; try done.
      + simpl. unfold bind. rewrite Hmap. unfold ret. by rewrite app_nil_r.
      + by eapply denotes_list. }
  assert (s1 !! a = Some (Transformed t)) as Ha1 by (rewrite Hfar; [done|lia]).
  pose proof (apply_transform_step _ a t s input s1 tr0 _ Hread Ha1) as Happly.
  destruct (set__tensor_transformed t (call (transform t) input))
    as (t2 & Ht2 & Hx2 & Htr2 & Hf2 & Hb2).
  rewrite Ht2 in Happly.
  assert (a < length s1) as Hlen1 by (by eapply lookup_lt_Some).
  assert (<[a := Transformed t2]> s1 !! a = Some (Transformed t2)) as Ha2
      by (by apply list_lookup_insert_eq).
  pose proof (refresh_dirty_step _ a t t2 s _ _ Hflag Happly Ha2) as Hrefresh.
  rewrite list_insert_insert_eq in Hrefresh.
  set (s3 := <[a := Transformed (set_need_update t2 false)]> s1) in *.
  assert (s3 !! a = Some (Transformed (set_need_update t2 false))) as Ha3
      by (by apply list_lookup_insert_eq).
  pose proof (getter_transformed_step n a t s s3 _ _ Ha Hrefresh Ha3) as Hget.
  simpl in Hget. rewrite Hb2 in Hget. simpl in Hget.
  assert (Forall2 refreshed s1 s3) as Hr13.
  { unfold s3. rewrite <- (list_insert_id s1 a _ Ha1) at 1.
    apply Forall2_insert; [apply refreshes_refl|].
    right. exists t, (call (transform t) input).
    split; [done|]. f_equal.
    destruct t2 as [b2 tf2 x2 nu2 ps2 ms2 lp2]. simpl in *.
    injection Ht2 as <- <- <- <- <- <- <-. done. }
  pose proof (refreshes_trans _ _ _ Hr01 Hr13) as Hr03.
  exists (call (transform t) input), s3, (tr0 ++ [Applied a input])%list.
  split; [exact Hget|]. split; [exact Hr03|]. split; [|split; [|exact Hden]].
  - intros b Hb. unfold s3. rewrite list_lookup_insert_ne by lia. apply Hfar. lia.
  - intros d td Hd Hclean.
    destruct (decide (d = a)) as [Heq|Hne].
    + subst d. rewrite Ha3 in Hd. injection Hd as <-. simpl. rewrite Hb2. simpl.
      destruct (stores_same refreshed s s3 refreshed_same Hr03) as (_ & Hv & _).
      by apply (denotes_same s s3 Hup Hv).
    + assert (s1 !! d = Some (Transformed td)) as Hd1.
      { unfold s3 in Hd. by rewrite list_lookup_insert_ne in Hd. }
      destruct (stores_same refreshed s1 s3 refreshed_same Hr13) as (_ & Hv & _).
      apply (denotes_same s1 s3 (upstream_ok_refreshes _ _ Hr01 Hup) Hv).
      by apply Hco1.
Qed.

(** An assignment [u.tensor = v] in a sound store. *)
Lemma setter_sound s u (p : Parameter_ tensor) v fuel :
  sound s -> s !! u = Some (Plain p) -> length s - u <= fuel ->
  exists s1 tr1,
    tensor_setter fuel u v s = Some (Ok tt, s1, tr1) /\
    sound s1 /\
    Forall2 same_values s1 (<[u := Plain (mkParameter (_id p) v (listeners p))]> s).
Proof.
  intros (Hok & Hup & Hsub & Hco) Hu Hfuel.
  set (p' := mkParameter (_id p) v (listeners p)).
  set (s0 := <[u := Plain p']> s).
  assert (u < length s) as Hlt by (by eapply lookup_lt_Some).
  assert (s0 !! u = Some (Plain p')) as Hu0 by (by apply list_lookup_insert_eq).
  assert (listeners_ok s0) as Hok0
      by exact (listeners_ok_set_tensor s u (Plain p) v Hok Hu).
  assert (upstream_ok s0) as Hup0
      by exact (upstream_ok_set_tensor s u (Plain p) v Hup Hu).
  assert (Forall2 same_wiring s s0) as Hw0.
  { unfold s0. rewrite <- (list_insert_id s u _ Hu) at 1.
    apply Forall2_insert; [|done].
    apply Forall_Forall2_diag, Forall_forall. intros o _. by destruct o. }
  assert (Forall2 (fun o o' => listeners (parameter_of o') = listeners (parameter_of o))
                  s s0) as Hl0.
  { eapply Forall2_impl; [exact Hw0|]. by intros o o' [? _]. }
  destruct (fire_reach fuel s0 u (Plain p') Hok0 Hu0)
    as (s1 & tr1 & Hfire & Hr & Hflags & _).
  { unfold s0. rewrite length_insert. lia. }
  destruct (stores_same raised s0 s1 raised_same Hr) as (Hw01 & Hv01 & _ & Hv10).
  exists s1, tr1. split; [|split; [|exact Hv10]].
  { unfold tensor_setter. rewrite (bind_get _ _ _ _ Hu).
    unfold bind, put. fold p'. fold s0. by rewrite Hfire. }
  split; [by eapply listeners_ok_raises|]. split; [by eapply upstream_ok_raises|].
  split; [eapply subscribed_same; [exact Hw01|]; by eapply subscribed_same|].
  intros d t1 Hd Hclean.
  destruct (Forall2_lookup_r _ _ _ _ _ Hr Hd) as (o0 & Hd0 & Hraise).
  assert (o0 = Transformed t1) as ->.
  { destruct Hraise as [->|(t & -> & [= ->])]; [done|]. discriminate Hclean. }
  assert (d <> u) as Hne by (intros ->; by rewrite Hu0 in Hd0).
  assert (s !! d = Some (Transformed t1)) as Hds.
  { unfold s0 in Hd0. by rewrite list_lookup_insert_ne in Hd0. }
  apply (denotes_same s0 s1 Hup0 Hv01).
  apply (denotes_frame s u p p' Hup Hu); [|by apply Hco].
  intros Hdep.
  destruct (Hflags d) as (t' & Hd' & Hflag').
  { apply (listens_same_listeners s s0 u d Hl0). by apply depends_listens. }
  rewrite Hd in Hd'. injection Hd' as <-. congruence.
Qed.

(** X29.  In a sound store (wired by the constructors, every
    [TransformedParameter] subscribed to its upstream, every cache whose
    flag is down holding the tensor its object stands for), reading
    [a.tensor] returns the tensor that [a] stands for: the tensor of a
    [Parameter], the transform of what the upstream stands for otherwise,
    whichever caches the read finds up to date.  The store is sound
    afterwards and every object stands for what it stood for. *)
Theorem tensor_getter_sound s a o fuel :
  sound s -> s !! a = Some o -> a < fuel ->
  exists r s' tr,
    tensor_getter fuel a s = Some (Ok r, s', tr) /\
    denotes s a r /\
    sound s' /\
    (forall b r', denotes s b r' <-> denotes s' b r').
Proof.
  intros (Hok & Hup & Hsub & Hco) Ha Hfuel.
  destruct (getter_sound fuel s a o Hup Hco Ha Hfuel)
    as (r & s' & tr & Hget & Hr & _ & Hco' & Hden).
  destruct (stores_same refreshed s s' refreshed_same Hr) as (Hw & Hv & _ & Hv').
  exists r, s', tr. split; [exact Hget|]. split; [exact Hden|]. split.
  - split; [by eapply listeners_ok_refreshes|].
    split; [by eapply upstream_ok_refreshes|].
    split; [by eapply subscribed_same|exact Hco'].
  - intros b r'. split.
    + by apply denotes_same.
    + apply denotes_same; [by eapply upstream_ok_refreshes|done].
Qed.

(** X30.  No stale read: in a sound store, after [u.tensor = v] a read
    of any object [d] returns the tensor that [d] stands for with the new
    tensor of [u], that is, what a computation from the plain parameters
    alone gives, however many [TransformedParameter]s lie between [u] and
    [d] and whatever their caches held; the store is sound after the
    assignment and after the read. *)
Theorem no_stale_read s u (p : Parameter_ tensor) v d o fuel :
  sound s -> s !! u = Some (Plain p) -> s !! d = Some o ->
  length s <= fuel ->
  exists s1 tr1 r s2 tr2,
    tensor_setter fuel u v s = Some (Ok tt, s1, tr1) /\
    sound s1 /\
    tensor_getter fuel d s1 = Some (Ok r, s2, tr2) /\
    denotes (<[u := Plain (mkParameter (_id p) v (listeners p))]> s) d r /\
    sound s2.
Proof.
  intros Hsound Hu Hd Hfuel.
  destruct (setter_sound s u p v fuel Hsound Hu ltac:(lia))
    as (s1 & tr1 & Hset & Hsound1 & Hv).
  assert (length s1 = length s) as Hlen.
  { apply Forall2_length in Hv. by rewrite length_insert in Hv. }
  assert (d < length s) as Hdlen by (by eapply lookup_lt_Some).
  destruct (lookup_lt_is_Some_2 s1 d ltac:(lia)) as [o1 Hd1].
  pose proof Hsound1 as (Hok1 & Hup1 & Hsub1 & Hco1).
  destruct (getter_sound fuel s1 d o1 Hup1 Hco1 Hd1 ltac:(lia))
    as (r & s2 & tr2 & Hget & Hr & _ & Hco2 & Hden).
  destruct (stores_same refreshed s1 s2 refreshed_same Hr) as (Hw & _).
  exists s1, tr1, r, s2, tr2. split; [exact Hset|]. split; [exact Hsound1|].
  split; [exact Hget|]. split; [by apply (denotes_same s1 _ Hup1 Hv)|].
  split; [by eapply listeners_ok_refreshes|].
  split; [by eapply upstream_ok_refreshes|].
  split; [by eapply subscribed_same|exact Hco2].
Qed.

(** *** The constructors keep the store sound *)

(** Reading the upstream of a new object. *)
Lemma upstream_sound fuel x0 s :
  upstream_ok s -> coherent s ->
  (forall x1, In x1 (upstream_list x0) -> x1 < length s) ->
  length s <= fuel ->
  exists input s1 tr0,
    upstream_tensor_with (tensor_getter fuel) x0 s = Some (Ok input, s1, tr0) /\
    Forall2 refreshed s s1 /\
    coherent s1 /\
    match x0 with
    | XOne x1 => denotes s x1 input
    | XList xs => exists rs, Forall2 (denotes s) xs rs /\ input = cat rs
    end.
Proof.
  intros Hup Hco Hbelow Hfuel.
  assert (forall xs s1, (forall y, In y xs -> y < length s) ->
            upstream_ok s1 -> coherent s1 -> length s1 = length s ->
            exists rs s' tr,
              map_each xs (tensor_getter fuel) s1 = Some (Ok rs, s', tr) /\
              Forall2 refreshed s1 s' /\
              coherent s' /\
              Forall2 (denotes s1) xs rs) as Hall.
  { induction xs as [|x1 xs IHxs]; intros s1 Hlt Hup1 Hco1 Hlen1.
    { exists [], s1, []. split; [done|]. split; [apply refreshes_refl|].
      split; [done|constructor]. }
    destruct (lookup_lt_is_Some_2 s1 x1) as [o1 Ho1].
    { rewrite Hlen1. apply Hlt. by left. }
    destruct (getter_sound fuel s1 x1 o1 Hup1 Hco1 Ho1)
      as (r & s2 & tr2 & Hget & Hr12 & _ & Hco2 & Hden).
    { apply lookup_lt_Some in Ho1. lia. }
    pose proof (upstream_ok_refreshes _ _ Hr12 Hup1) as Hup2.
    destruct (IHxs s2 (fun y Hy => Hlt y (or_intror Hy)) Hup2 Hco2)
      as (rs & s3 & tr3 & Hrest & Hr23 & Hco3 & Hdens).
    { rewrite <- Hlen1. symmetry. by eapply Forall2_length. }
    exists (r :: rs), s3, (tr2 ++ tr3)%list. split; [|split; [|split]].
    - simpl. eapply bind_ok; [exact Hget|].
      unfold bind. rewrite Hrest. unfold ret. by rewrite app_nil_r.
    - by eapply refreshes_trans.
    - exact Hco3.
    - constructor; [exact Hden|].
      destruct (stores_same refreshed s1 s2 refreshed_same Hr12) as (_ & _ & _ & Hback).
      eapply Forall2_impl; [exact Hdens|]. intros y ry. by apply denotes_same. }
  destruct x0 as [x1|xs]; simpl in *.
  - destruct (lookup_lt_is_Some_2 s x1 (Hbelow x1 (or_introl eq_refl))) as [o1 Ho1].
    destruct (getter_sound fuel s x1 o1 Hup Hco Ho1)
      as (r & s1 & tr & Hget & Hr & _ & Hco1 & Hden).
    { apply lookup_lt_Some in Ho1. lia. }
    by exists r, s1, tr.
  - destruct (Hall xs s Hbelow Hup Hco eq_refl) as (rs & s1 & tr & Hmap & Hr & Hco1 & Hdens).
    exists (cat rs), s1, tr. split; [|split; [done|split; [done|by exists rs]]].
    unfold bind. rewrite Hmap. unfold ret. by rewrite app_nil_r.
Qed.

Lemma with_parameter_values o (p : Parameter_ tensor) :
  _tensor p = _tensor (parameter_of o) -> same_values o (with_parameter o p).
Proof. by destruct o. Qed.

Lemma with_parameter_base o (p : Parameter_ tensor) (t' : TransformedParameter tensor) :
  with_parameter o p = Transformed t' -> base t' = p.
Proof. destruct o; [done|]. by intros [= <-]. Qed.

(** X4.  [TransformedParameter(id_, x, transform)] in a sound store, with
    every upstream object already constructed: the call returns a new
    address; the new object holds [transform(input)] for the tensor read
    from the upstream, with [need_update] down, no listeners,
    [_parameters] and [_models] empty and [lp] unset, and is subscribed to
    every upstream object; the only transform called for it
    is the one on [input]; the objects that were there stand for what they
    stood for, and the store is sound again (listeners are later
    [TransformedParameter]s, upstream objects are earlier, every object
    is subscribed to its upstream, every cache whose flag is down holds
    what its object stands for). *)
Theorem new_TransformedParameter_sound s fuel id_ x0 (tf : Transform tensor) :
  sound s ->
  (forall x1, In x1 (upstream_list x0) -> x1 < length s) ->
  length s <= fuel ->
  exists input s' tr0,
    new_TransformedParameter fuel id_ x0 tf s
    = Some (Ok (length s), s', (tr0 ++ [Applied (length s) input])%list) /\
    s' !! length s
    = Some (Transformed (mkTransformed (mkParameter id_ (call tf input) [])
                                       tf x0 false [] [] None)) /\
    length s' = S (length s) /\
    List.filter (applied_at (length s)) tr0 = [] /\
    (forall b r, denotes s b r -> denotes s' b r) /\
    sound s'.
Proof.
  intros (Hok & Hup & Hsub & Hco) Hbelow Hfuel.
  destruct (new_TransformedParameter_spec s fuel id_ x0 tf Hok Hup Hbelow Hfuel)
    as (input & s1 & s' & tr0 & Hread & Hr01 & Hold & Hnew & Hself & Hlen & Hsubs
        & Hf0 & Hok' & Hup').
  destruct (upstream_sound fuel x0 s Hup Hco Hbelow Hfuel)
    as (input' & s1' & tr0' & Hread' & _ & Hco1 & Hden).
  rewrite Hread in Hread'. injection Hread' as <- <- <-.
  assert (length s1 = length s) as Hlen1 by (symmetry; by eapply Forall2_length).
  pose proof (upstream_ok_refreshes _ _ Hr01 Hup) as Hup1.
  destruct (stores_same refreshed s s1 refreshed_same Hr01) as (Hw01 & Hv01 & _).
  pose proof (subscribed_same _ _ Hw01 Hsub) as Hsub1.
  assert (forall a o, s1 !! a = Some o ->
            exists o', s' !! a = Some o' /\ same_values o o') as Hinto.
  { intros a o Ha. destruct (Hold a o Ha) as (k & Hk).
    eexists. split; [exact Hk|]. by apply with_parameter_values. }
  assert (forall b r, denotes s b r -> denotes s' b r) as Hkeep.
  { intros b r Hb. apply (denotes_into s1 s' Hup1 Hinto).
    by apply (denotes_same s s1 Hup Hv01). }
  exists input, s', tr0.
  split; [exact Hnew|]. split; [exact Hself|]. split; [exact Hlen|].
  split; [exact Hf0|]. split; [exact Hkeep|].
  split; [exact Hok'|]. split; [exact Hup'|]. split.
  - intros d t x1 Hd Hx1.
    destruct (decide (d < length s)) as [Hlt|Hge].
    + destruct (lookup_lt_is_Some_2 s1 d ltac:(lia)) as [o Ho].
      destruct (Hold d o Ho) as (k & Hk). rewrite Hk in Hd. injection Hd as Hd.
      destruct (with_parameter_transformed _ _ _ Hd) as (t0 & -> & Hx & _).
      rewrite Hx in Hx1.
      destruct (Hsub1 d t0 x1 Ho Hx1) as (o1 & Hx1' & Hin).
      destruct (Hold x1 o1 Hx1') as (k1 & Hk1).
      eexists. split; [exact Hk1|].
      rewrite parameter_of_with_parameter. simpl. apply in_app_iff. by left.
    + assert (d = length s) as ->.
      { apply lookup_lt_Some in Hd. lia. }
      rewrite Hself in Hd. injection Hd as <-. simpl in Hx1. by apply Hsubs.
  - intros d t Hd Hclean.
    destruct (decide (d < length s)) as [Hlt|Hge].
    + destruct (lookup_lt_is_Some_2 s1 d ltac:(lia)) as [o Ho].
      destruct (Hold d o Ho) as (k & Hk). rewrite Hk in Hd. injection Hd as Hd.
      destruct (with_parameter_transformed _ _ _ Hd) as (t0 & -> & _ & _ & Hflag).
      rewrite (with_parameter_base _ _ _ Hd). simpl.
      apply (denotes_into s1 s' Hup1 Hinto). apply Hco1; [done|congruence].
    + assert (d = length s) as ->.
      { apply lookup_lt_Some in Hd. lia. }
      rewrite Hself in Hd. injection Hd as <-. simpl.
      destruct x0 as [x1|xs].
      * eapply (denotes_one s' (length s) _ x1 input Hself); [done|]. by apply Hkeep.
      * destruct Hden as (rs & Hrs & ->).
        eapply (denotes_list s' (length s) _ xs rs Hself); [done|].
        eapply Forall2_impl; [exact Hrs|]. intros y ry. apply Hkeep.
Qed.

(** [Parameter(id_, tensor)] keeps the store sound, and the empty store is
    sound: every store built by the constructors is. *)
Lemma new_Parameter_sound s id_ v :
  sound s -> sound (s ++ [Plain (mkParameter id_ v [])])%list.
Proof.
  intros (Hok & Hup & Hsub & Hco).
  destruct (new_Parameter_wiring s id_ v Hok Hup) as [Hok' Hup'].
  split; [exact Hok'|]. split; [exact Hup'|].
  assert (forall a o, s !! a = Some o ->
            (s ++ [Plain (mkParameter id_ v [])])%list !! a = Some o) as Hold.
  { intros a o Ha. rewrite lookup_app_l by (by eapply lookup_lt_Some). done. }
  assert (forall a t, (s ++ [Plain (mkParameter id_ v [])])%list !! a
                      = Some (Transformed t) -> s !! a = Some (Transformed t)) as Hback.
  { intros a t Ha. destruct (decide (a < length s)) as [Hlt|Hge].
    - by rewrite lookup_app_l in Ha.
    - assert (a = length s) as ->.
      { apply lookup_lt_Some in Ha. rewrite length_app in Ha. simpl in Ha. lia. }
      by rewrite list_lookup_middle in Ha. }
  split.
  - intros d t x0 Hd Hx. destruct (Hsub d t x0 (Hback d t Hd) Hx) as (o & Ho & Hin).
    exists o. split; [by apply Hold|done].
  - intros d t Hd Hclean.
    apply (denotes_into s _ Hup); [|by apply Hco; [apply Hback|]].
    intros a o Ha. exists o. split; [by apply Hold|]. by destruct o.
Qed.

Lemma empty_sound : sound [].
Proof.
  split; [|split; [|split]].
  - intros a o l Ha. by rewrite lookup_nil in Ha.
  - intros a t x0 Ha. by rewrite lookup_nil in Ha.
  - intros d t x0 Hd. by rewrite lookup_nil in Hd.
  - intros d t Hd. by rewrite lookup_nil in Hd.
Qed.

End GraphFacts.

(** *** The sample stores *)

Import GraphSample.

(** The stores are what the constructors build. *)
Example build_single :
  bind (new_Parameter (Some "u") [1%Z])
       (fun u => new_TransformedParameter 2 (Some "d") (XOne u) double) []
  = Some (Ok 1, single, [Applied 1 [1%Z]]).
Proof. reflexivity. Qed.

Example build_pair :
  bind (new_Parameter (Some "u1") [1%Z])
       (fun u1 => bind (new_Parameter (Some "u2") [2%Z])
                       (fun u2 => new_TransformedParameter 3 (Some "d")
                                    (XList [u1; u2]) double)) []
  = Some (Ok 2, pair, [Applied 2 [1%Z; 2%Z]]).
Proof. reflexivity. Qed.

Example build_fan :
  bind (new_Parameter (Some "u") [1%Z])
       (fun u =>
          bind (new_TransformedParameter 4 (Some "d1") (XOne u) double)
               (fun d1 =>
                  bind (new_TransformedParameter 4 (Some "d2") (XOne u) double)
                       (fun _ => new_TransformedParameter 4 (Some "d3") (XOne d1) double)))
       []
  = Some (Ok 3, fan, [Applied 1 [1%Z]; Applied 2 [1%Z]; Applied 3 [2%Z]]).
Proof. reflexivity. Qed.

Ltac each_listener Hl :=
  simpl in Hl;
  repeat (destruct Hl as [Hl|Hl]; [subst; split; [lia|eexists; reflexivity]|]);
  destruct Hl.

Lemma fan_listeners_ok : listeners_ok fan.
Proof.
  intros a o l Ha Hl.
  destruct a as [|[|[|[|a]]]]; simpl in Ha; try discriminate Ha;
    injection Ha as <-; each_listener Hl.
Defined.

Lemma single_listeners_ok : listeners_ok single.
Proof.
  intros a o l Ha Hl.
  destruct a as [|[|a]]; simpl in Ha; try discriminate Ha;
    injection Ha as <-; each_listener Hl.
Defined.

Lemma single_upstream_ok : upstream_ok single.
Proof.
  intros a t x0 Ha Hx.
  destruct a as [|[|a]]; simpl in Ha; try discriminate Ha;
    injection Ha as <-; simpl in Hx; destruct Hx as [<-|[]]; lia.
Defined.

(** C8 (the code at the failing input).  [d] is a [TransformedParameter]
    over the list [[u1, u2]]; [d.update({})] raises [AttributeError] at
    [self.x.update(value)], leaving every object as it was: nothing is
    forwarded to [u1] and [u2] and the cached tensor is not recomputed. *)
Theorem update_list_upstream_fails :
  update 3 2 (∅ : gmap string (list Z)) pair
  = Some (Raise (AttributeError "'list' object has no attribute 'update'"), pair, []).
Proof. reflexivity. Qed.

(** The sibling paths handle the list: reading the tensor of a dirty [d]
    over [[u1, u2]] applies the transform to the concatenation. *)
Example getter_list_upstream :
  bind (tensor_setter 3 0 [5%Z]) (fun _ => tensor_getter 3 2) pair
  = Some (Ok [10%Z; 4%Z],
          [ Plain (mkParameter (Some "u1") [5%Z] [2%nat]);
            Plain (mkParameter (Some "u2") [2%Z] [2%nat]);
            Transformed (mkTransformed (mkParameter (Some "d") [10%Z; 4%Z] [])
                                       double (XList [0%nat; 1%nat]) false
                                       [] [] None) ],
          [Notified 2 0 [5%Z]; Applied 2 [5%Z; 2%Z]]).
Proof. reflexivity. Qed.

(** With a single upstream, [update] forwards and recomputes at once. *)
Example update_single_upstream :
  update 4 1 (<["u" := [5%Z]]> ∅) single
  = Some (Ok tt,
          [ Plain (mkParameter (Some "u") [5%Z] [1%nat]);
            Transformed (mkTransformed (mkParameter (Some "d") [10%Z] [])
                                       double (XOne 0%nat) true [] [] None) ],
          [Notified 1 0 [5%Z]; Applied 1 [5%Z]]).
Proof. reflexivity. Qed.

Lemma tensor_setter_notifies_witness :
  exists s' tr,
    tensor_setter 4 0 [5%Z] fan = Some (Ok tt, s', tr) /\
    s' !! 0%nat = Some (Plain (mkParameter (Some "u") [5%Z] [1%nat; 2%nat])) /\
    List.filter (notified_by 0) tr
    = [Notified 1 0 [5%Z]; Notified 2 0 [5%Z]] /\
    (forall l, length (List.filter (notification l 0) tr)
               = count_occ Nat.eq_dec [1%nat; 2%nat] l) /\
    List.filter is_applied tr = [].
Proof.
  apply (tensor_setter_notifies fan 0 (mkParameter (Some "u") [1%Z] [1%nat; 2%nat])
           [5%Z] 4).
  - exact fan_listeners_ok.
  - reflexivity.
  - simpl. lia.
Defined.

Lemma Parameter_update_spec_witness :
  update 3 0 (<["w" := [9%Z]]> ∅) single = Some (Ok tt, single, []) /\
  update 5 0 (<["u" := [9%Z]]> ∅) fan = tensor_setter 4 0 [9%Z] fan /\
  exists s' tr,
    update 5 0 (<["u" := [9%Z]]> ∅) fan = Some (Ok tt, s', tr) /\
    s' !! 0%nat = Some (Plain (mkParameter (Some "u") [9%Z] [1%nat; 2%nat])) /\
    Forall2 raised
            (<[0%nat := Plain (mkParameter (Some "u") [9%Z] [1%nat; 2%nat])]> fan) s' /\
    (forall l, In l [1%nat; 2%nat] ->
       exists t', s' !! l = Some (Transformed t') /\ need_update t' = true) /\
    List.filter (notified_by 0) tr = [Notified 1 0 [9%Z]; Notified 2 0 [9%Z]] /\
    List.filter is_applied tr = [].
Proof.
  split; [|split].
  - apply (Parameter_update_spec 2 0 (mkParameter (Some "u") [1%Z] [1%nat])
             (<["w" := [9%Z]]> ∅) single eq_refl).
    intros i [= <-]. reflexivity.
  - apply (proj2 (Parameter_update_spec 4 0 (mkParameter (Some "u") [1%Z] [1%nat; 2%nat])
                    (<["u" := [9%Z]]> ∅) fan eq_refl) "u" [9%Z] eq_refl).
    reflexivity.
  - apply (proj2 (Parameter_update_spec 4 0 (mkParameter (Some "u") [1%Z] [1%nat; 2%nat])
                    (<["u" := [9%Z]]> ∅) fan eq_refl) "u" [9%Z] eq_refl).
    + reflexivity.
    + exact fan_listeners_ok.
    + simpl. lia.
Defined.


Lemma fan_upstream_ok : upstream_ok fan.
Proof.
  intros a t x0 Ha Hx.
  destruct a as [|[|[|[|a]]]]; simpl in Ha; try discriminate Ha;
    injection Ha as <-; simpl in Hx; destruct Hx as [<-|[]]; lia.
Defined.

Lemma pair_listeners_ok : listeners_ok pair.
Proof.
  intros a o l Ha Hl.
  destruct a as [|[|[|a]]]; simpl in Ha; try discriminate Ha;
    injection Ha as <-; each_listener Hl.
Defined.

Lemma pair_upstream_ok : upstream_ok pair.
Proof.
  intros a t x0 Ha Hx.
  destruct a as [|[|[|a]]]; simpl in Ha; try discriminate Ha;
    injection Ha as <-; simpl in Hx; destruct Hx as [<-|[<-|[]]]; lia.
Defined.

Lemma parameters_spec_witness :
  exists ps,
    parameters 3 2 pair = Some (Ok ps, pair, []) /\
    (forall u, In u ps <-> depends_on pair 2 u) /\
    (forall u, In u ps -> exists p, pair !! u = Some (Plain p)).
Proof. exact (parameters_spec 3 pair 2 _ pair_upstream_ok eq_refl (le_n 3)). Defined.

Lemma read_after_assignment_witness :
  exists s1 tr1 s2,
    tensor_setter 2 0 [5%Z] single = Some (Ok tt, s1, tr1) /\
    List.filter is_applied tr1 = [] /\
    tensor_getter 2 1 s1 = Some (Ok [10%Z], s2, [Applied 1 [5%Z]]) /\
    tensor_getter 2 1 s2 = Some (Ok [10%Z], s2, []).
Proof.
  exact (read_after_assignment single 0 _ 1 _ [5%Z] 2 single_listeners_ok
           eq_refl eq_refl eq_refl (or_introl eq_refl) (le_n 2) (le_n 2)).
Defined.

Lemma TransformedParameter_update_single_witness :
  exists s' tr1 t' s'',
    update 4 1 (<["u" := [5%Z]]> ∅) single
    = Some (Ok tt, s', (tr1 ++ [Applied 1 [5%Z]])%list) /\
    List.filter (notified_by 0) tr1 = [Notified 1 0 [5%Z]] /\
    List.filter is_applied tr1 = [] /\
    s' !! 0%nat = Some (Plain (mkParameter (Some "u") [5%Z] [1%nat])) /\
    s' !! 1%nat = Some (Transformed t') /\
    _tensor (base t') = [10%Z] /\
    need_update t' = true /\
    tensor_getter 4 1 s' = Some (Ok [10%Z], s'', [Applied 1 [5%Z]]).
Proof.
  apply (TransformedParameter_update_single single 0
           (mkParameter (Some "u") [1%Z] [1%nat]) "u" 1
           (mkTransformed (mkParameter (Some "d") [2%Z] [])
                          double (XOne 0%nat) false [] [] None)
           (<["u" := [5%Z]]> ∅) [5%Z] 2 single_listeners_ok eq_refl eq_refl).
  - reflexivity.
  - reflexivity.
  - reflexivity.
  - by left.
  - simpl. lia.
Defined.

Lemma assign_spec_witness :
  exists r s1 tr1 s' tr2 o',
    tensor_getter 4 0 fan = Some (Ok r, s1, tr1) /\
    assign 4 1 0 fan = Some (Ok tt, s', (tr1 ++ tr2)%list) /\
    s' !! 1%nat = Some o' /\
    parameter_of o' = mkParameter (Some "d1") r [3%nat] /\
    List.filter (notified_by 1) tr2 = map (fun l => Notified l 1 r) [3%nat] /\
    List.filter is_applied tr2 = [] /\
    (forall t, fan !! 1%nat = Some (Transformed t) ->
       exists e, tensor_setter 4 1 r fan = Some (Raise (Exception_ e), fan, [])).
Proof.
  destruct (assign_spec fan 1 _ 0 _ 4 fan_listeners_ok fan_upstream_ok
              eq_refl eq_refl (le_n 4))
    as (r & s1 & tr1 & s' & tr2 & o' & Hget & Hassign & Ho' & Hp & Hnot & Hna & Hset).
  exists r, s1, tr1, s', tr2, o'. repeat (split; [assumption|]).
  intros t Ht. apply (Hset t). by injection Ht as <-.
Defined.

Lemma clone_spec_witness :
  exists r s1 tr1,
    tensor_getter 2 1 single = Some (Ok r, s1, tr1) /\
    clone 2 1 single
    = Some (Ok 2, (s1 ++ [Plain (mkParameter None r [])])%list, tr1) /\
    length s1 = 2 /\
    listeners_ok (s1 ++ [Plain (mkParameter None r [])])%list /\
    upstream_ok (s1 ++ [Plain (mkParameter None r [])])%list /\
    tensor_setter 2 2 [7%Z] (s1 ++ [Plain (mkParameter None r [])])%list
    = Some (Ok tt, (s1 ++ [Plain (mkParameter None [7%Z] [])])%list, []).
Proof.
  exact (clone_spec single 1 _ [7%Z] 2 single_listeners_ok single_upstream_ok
           eq_refl (le_n 2)).
Defined.

Lemma tensor_setter_invalidates_witness :
  exists s' tr,
    tensor_setter 4 0 [5%Z] fan = Some (Ok tt, s', tr) /\
    (forall d, listens fan 0 d ->
       exists t', s' !! d = Some (Transformed t') /\ need_update t' = true) /\
    (forall b, b <> 0 -> ~ listens fan 0 b -> s' !! b = fan !! b).
Proof.
  exact (tensor_setter_invalidates fan 0 _ [5%Z] 4 fan_listeners_ok eq_refl (le_n 4)).
Defined.

Lemma fan_sound : sound fan.
Proof.
  split; [exact fan_listeners_ok|]. split; [exact fan_upstream_ok|].
  assert (denotes fan 0 [1%Z]) as H0.
  { exact (denotes_plain fan 0 (mkParameter (Some "u") [1%Z] [1%nat; 2%nat]) eq_refl). }
  assert (denotes fan 1 [2%Z]) as H1.
  { exact (denotes_one fan 1 _ 0 [1%Z] eq_refl eq_refl H0). }
  split.
  - intros d t x0 Hd Hx.
    destruct d as [|[|[|[|d]]]]; simpl in Hd; try discriminate Hd;
      injection Hd as <-; simpl in Hx; destruct Hx as [<-|[]];
      eexists; (split; [reflexivity|]); simpl; tauto.
  - intros d t Hd Hclean.
    destruct d as [|[|[|[|d]]]]; simpl in Hd; try discriminate Hd;
      injection Hd as <-; simpl.
    + exact H1.
    + exact (denotes_one fan 2 _ 0 [1%Z] eq_refl eq_refl H0).
    + exact (denotes_one fan 3 _ 1 [2%Z] eq_refl eq_refl H1).
Defined.

Lemma tensor_getter_sound_witness :
  exists r s' tr,
    tensor_getter 4 3 fan = Some (Ok r, s', tr) /\
    denotes fan 3 r /\
    sound s' /\
    (forall b r', denotes fan b r' <-> denotes s' b r').
Proof. exact (tensor_getter_sound fan 3 _ 4 fan_sound eq_refl (le_n 4)). Defined.

Lemma no_stale_read_witness :
  exists s1 tr1 r s2 tr2,
    tensor_setter 4 0 [5%Z] fan = Some (Ok tt, s1, tr1) /\
    sound s1 /\
    tensor_getter 4 3 s1 = Some (Ok r, s2, tr2) /\
    denotes (<[0%nat := Plain (mkParameter (Some "u") [5%Z] [1%nat; 2%nat])]> fan) 3 r /\
    sound s2.
Proof.
  exact (no_stale_read fan 0 _ [5%Z] 3 _ 4 fan_sound eq_refl eq_refl (le_n 4)).
Defined.

(** The read of [d3] after [u.tensor = [5]] in the store [fan]: [d1] and
    [d3] are recomputed, [d2] is not. *)
Example fan_read_after_assignment :
  exists s2,
    bind (tensor_setter 4 0 [5%Z]) (fun _ => tensor_getter 4 3) fan
    = Some (Ok [20%Z], s2,
            [Notified 1 0 [5%Z]; Notified 3 1 [2%Z]; Notified 2 0 [5%Z];
             Applied 1 [5%Z]; Applied 3 [10%Z]]).
Proof. eexists. reflexivity. Qed.

Lemma new_TransformedParameter_sound_witness :
  exists input s' tr0,
    new_TransformedParameter 4 (Some "e") (XList [1%nat; 2%nat]) double fan
    = Some (Ok 4, s', (tr0 ++ [Applied 4 input])%list) /\
    s' !! 4%nat
    = Some (Transformed (mkTransformed (mkParameter (Some "e") (call double input) [])
                                       double (XList [1%nat; 2%nat]) false
                                       [] [] None)) /\
    length s' = 5 /\
    List.filter (applied_at 4) tr0 = [] /\
    (forall b r, denotes fan b r -> denotes s' b r) /\
    sound s'.
Proof.
  apply (new_TransformedParameter_sound fan 4 (Some "e") (XList [1%nat; 2%nat]) double
           fan_sound).
  - intros x1 [<-|[<-|[]]]; simpl; lia.
  - simpl. lia.
Defined.

End GraphFacts.

(** ** Plates *)

Module PlatesFacts.
Import Plates.

(** Induction on documents: the elements of a list and the values of a
    dict satisfy the property. *)
Lemma json_induction (P : json -> Prop) :
  P JNull -> (forall b, P (JBool b)) -> (forall n, P (JNum n)) ->
  (forall s, P (JStr s)) ->
  (forall l, Forall P l -> P (JList l)) ->
  (forall items, Forall (fun kv => P (snd kv)) items -> P (JDict items)) ->
  forall j, P j.
Proof.
  intros HN HB HNu HS HL HD.
  fix IH 1. intros [|b|n|s|l|items]; [done|done|done|done| |].
  - apply HL. induction l as [|j l IHl]; constructor; [apply IH|exact IHl].
  - apply HD. induction items as [|[k v] items IHi]; constructor; [apply IH|exact IHi].
Qed.

Lemma omap_list_map {A B} (f : A -> outcome B) (g : A -> B) (l : list A) :
  Forall (fun y => f y = Ok (g y)) l -> omap_list f l = Ok (map g l).
Proof.
  induction 1 as [|y l Hy _ IH]; [done|]. simpl. by rewrite Hy, IH.
Qed.

Lemma last_nonempty s : nonempty s = true -> exists c, PyStr.last s = Some c.
Proof.
  induction s as [|c s IH]; [discriminate|]. intros _.
  destruct s as [|c' s]; [by exists c|].
  destruct (IH eq_refl) as [c0 Hc0]. exists c0. exact Hc0.
Qed.

Lemma star_id_name value v :
  is_name v = true -> star_id v value = Ok (star_value value v).
Proof.
  destruct v as [| | |s| |]; try discriminate. simpl. intros Hs.
  destruct (last_nonempty s Hs) as [c ->]. by destruct (Ascii.eqb c "*").
Qed.

Lemma star_subst_name value v : is_name v = true -> star_subst value v = v.
Proof. by destruct v. Qed.

(** On a document whose ids are names the source rewrites a clone the way
    the specification says. *)
Lemma replace_star_ok value obj :
  names_ok obj = true ->
  replace_star_with_str obj value = Ok (star_subst value obj).
Proof.
  induction obj as [|b|n|s|l IH|items IH] using json_induction; try done.
  - simpl. intros Hok.
    rewrite (omap_list_map _ (star_subst value)); [done|].
    apply List.Forall_forall. intros y Hy.
    rewrite List.Forall_forall in IH. apply IH; [done|].
    rewrite forallb_forall in Hok. by apply Hok.
  - simpl. intros Hok.
    rewrite (omap_list_map _
               (fun kv => (fst kv,
                           if String.eqb (fst kv) "id"
                           then star_value value (star_subst value (snd kv))
                           else star_subst value (snd kv)))); [done|].
    apply List.Forall_forall. intros [k v] Hkv.
    rewrite List.Forall_forall in IH. rewrite forallb_forall in Hok.
    specialize (Hok _ Hkv). simpl in Hok. apply andb_true_iff in Hok as [Hv Hid].
    pose proof (IH _ Hkv Hv) as Hr. simpl in Hr. simpl. rewrite Hr. simpl.
    destruct (String.eqb k "id"); [|done].
    rewrite (star_subst_name _ _ Hid), (star_id_name _ _ Hid). done.
Qed.

(** *** Clones, read along a path *)

Lemma get_map_values k (h : string -> json -> json) (items : list (string * json)) :
  Dict.get k (map (fun kv => (fst kv, h (fst kv) (snd kv))) items)
  = option_map (h k) (Dict.get k items).
Proof.
  induction items as [|[k' v] items IH]; [done|]. simpl.
  destruct (String.eqb k k') eqn:Hk; [|done].
  apply String.eqb_eq in Hk. by subst.
Qed.

Lemma ends_with_id_cons step step' path :
  ends_with_id (step :: step' :: path) = ends_with_id (step' :: path).
Proof. done. Qed.

Lemma star_value_container value path step v w :
  get_path (step :: path) v = Some w -> star_value value (star_subst value v) = star_subst value v.
Proof. destruct v, step; try done. Qed.

(** What is found in the clone at a path is the rewriting of what is found
    in the template there; at an [id] key a trailing star is replaced. *)
Lemma get_path_star_subst value path :
  forall t v,
    get_path path t = Some v ->
    get_path path (star_subst value t)
    = Some (if ends_with_id path then star_value value (star_subst value v)
            else star_subst value v).
Proof.
  induction path as [|step path IH]; intros t v Hget.
  { simpl in Hget. injection Hget as ->. done. }
  assert (forall v1 (h : json),
             get_path path v1 = Some v ->
             (path = [] -> h = if ends_with_id [step]
                               then star_value value (star_subst value v1)
                               else star_subst value v1) ->
             (path <> [] -> h = star_subst value v1) ->
             get_path path h
             = Some (if ends_with_id (step :: path)
                     then star_value value (star_subst value v)
                     else star_subst value v)) as Hnext.
  { intros v1 h Hv1 Hnil Hcons. destruct path as [|step' path].
    - simpl in Hv1. injection Hv1 as ->. rewrite (Hnil eq_refl). done.
    - rewrite (Hcons ltac:(done)), ends_with_id_cons. by apply IH. }
  destruct step as [key|i]; simpl in Hget.
  - destruct t as [| | | | |items]; try discriminate.
    destruct (Dict.get key items) as [v1|] eqn:Hk; [|discriminate].
    simpl.
    rewrite (get_map_values key
               (fun k w => if String.eqb k "id"
                           then star_value value (star_subst value w)
                           else star_subst value w)).
    rewrite Hk. simpl. apply (Hnext v1); [done| |].
    + intros _. unfold ends_with_id. simpl. done.
    + intros Hne. destruct (String.eqb key "id"); [|done].
      destruct path as [|step' path]; [done|].
      by eapply star_value_container.
  - destruct t as [| | | |l|]; try discriminate.
    destruct (l !! i) as [v1|] eqn:Hi; [|discriminate].
    simpl. rewrite list_lookup_fmap, Hi. simpl. by apply (Hnext v1).
Qed.

Lemma ends_with_id_app path : ends_with_id (path ++ [inl "id"]) = true.
Proof.
  unfold ends_with_id. rewrite map_app.
  change (map Some [inl "id"]) with [Some (inl "id" : string + nat)].
  by rewrite last_last.
Qed.

(** An id that ends in a star gets the index in its place. *)
Lemma get_path_star_id value path t s :
  get_path (path ++ [inl "id"]) t = Some (JStr s) ->
  PyStr.last s = Some "*"%char ->
  get_path (path ++ [inl "id"]) (star_subst value t)
  = Some (JStr (PyStr.init s ++ value)).
Proof.
  intros Hget Hlast. rewrite (get_path_star_subst _ _ _ _ Hget).
  rewrite ends_with_id_app. simpl. by rewrite Hlast.
Qed.

(** A string anywhere else is copied as it is. *)
Lemma get_path_other_string value path t s :
  get_path path t = Some (JStr s) ->
  ends_with_id path = false ->
  get_path path (star_subst value t) = Some (JStr s).
Proof.
  intros Hget Hend. by rewrite (get_path_star_subst _ _ _ _ Hget), Hend.
Qed.

(** *** Expanding a plate *)

Lemma plate_objects_clones items template (a b : Z) :
  Dict.get "object" items = Some template ->
  names_ok template = true ->
  plate_objects items
    (map (fun k => (a + Z.of_nat k)%Z) (seq 0 (Z.to_nat (b - a))))
  = Ok (clones template a b).
Proof.
  intros Hobj Hok. unfold plate_objects, clones.
  rewrite (omap_list_map _ (fun i => star_subst (PyStr.str i) template)).
  - by rewrite map_map.
  - apply List.Forall_forall. intros i _.
    unfold Dict.item. rewrite Hobj. simpl. by apply replace_star_ok.
Qed.

(** The call on a plate directive: the clones are spliced in when the plate
    is an element of a list, and the call fails otherwise. *)
Lemma expand_plates_plate fuel items a b template (in_list : bool) :
  plate items a b template ->
  names_ok template = true ->
  expand_plates (S fuel) (JDict items) in_list
  = if in_list then Some (Ok (Spliced (clones template a b)))
    else Some (Raise plate_error).
Proof.
  intros ((ty & Hty & Hend) & (rg & start & stop & Hrg & Hsplit & Ha & Hb) & Hobj) Hok.
  cbn [expand_plates]. rewrite Hty, Hend. cbn [fbind].
  unfold Dict.mem, Dict.item. rewrite Hrg. cbn [obind].
  unfold plate_range. rewrite Hsplit. cbn [omap_list]. rewrite Ha, Hb.
  cbn [obind py_range].
  rewrite (plate_objects_clones items template a b Hobj Hok). cbn [fbind].
  by destruct in_list.
Qed.

(** C5.  [expand_plates(parent[idx], parent, idx)] on a plate directive
    with range [a:b] replaces [parent[idx]] by the clones of the template
    for the indices [a], [a+1], ..., [b-1], in this order and at the place
    of the plate; there are [b - a] of them (none when [b <= a]); in the
    clone of index [a + k] an id that ends in a star has the star replaced
    by [str(a + k)] and every other string is copied.  The same directive
    outside a list makes the call fail with the parse error "plate works
    only when part of a list".  The ids of the template are names
    (non-empty strings). *)
Theorem expand_plate fuel (parent : list json) idx items a b template :
  parent !! idx = Some (JDict items) ->
  plate items a b template ->
  names_ok template = true ->
  expand_element (S fuel) parent idx
  = Some (Ok (take idx parent ++ clones template a b ++ drop (S idx) parent)%list) /\
  length (clones template a b) = Z.to_nat (b - a) /\
  (forall k, (k < Z.to_nat (b - a))%nat ->
     exists clone,
       clones template a b !! k = Some clone /\
       (forall path s,
           get_path (path ++ [inl "id"]) template = Some (JStr s) ->
           PyStr.last s = Some "*"%char ->
           get_path (path ++ [inl "id"]) clone
           = Some (JStr (PyStr.init s ++ PyStr.str (a + Z.of_nat k)))) /\
       (forall path s,
           get_path path template = Some (JStr s) ->
           ends_with_id path = false ->
           get_path path clone = Some (JStr s))) /\
  expand_plates (S fuel) (JDict items) false
  = Some (Raise (JSONParseError "plate works only when part of a list")).
Proof.
  intros Hidx Hplate Hok. split; [|split; [|split]].
  - unfold expand_element. rewrite Hidx.
    by rewrite (expand_plates_plate fuel items a b template true Hplate Hok).
  - unfold clones. by rewrite length_map, length_seq.
  - intros k Hk. exists (star_subst (PyStr.str (a + Z.of_nat k)) template).
    split; [|split].
    + unfold clones. rewrite list_lookup_fmap.
      rewrite lookup_seq_lt by done. done.
    + intros path s. apply get_path_star_id.
    + intros path s. apply get_path_other_string.
  - by rewrite (expand_plates_plate fuel items a b template false Hplate Hok).
Qed.

(** *** Documents without plates *)

Lemma need_element (l : list json) element :
  In element l -> need element <= fold_right (fun e n => need e + n) 0 l.
Proof.
  induction l as [|e l IH]; [done|]. intros [<-|Hin]; simpl; [lia|].
  specialize (IH Hin). lia.
Qed.

Lemma need_value (items : list (string * json)) kv :
  In kv items -> need (snd kv) <= fold_right (fun e n => need (snd e) + n) 0 items.
Proof.
  induction items as [|e items IH]; [done|]. intros [<-|Hin]; simpl; [lia|].
  specialize (IH Hin). lia.
Qed.

(** A loop whose body leaves the list as it is, from the index [i] on. *)
Lemma enumerate_fixed steps body :
  forall i (obj : list json),
    length obj - i <= steps ->
    (forall j element, i <= j -> obj !! j = Some element ->
                       body obj j element = Some (Ok obj)) ->
    enumerate_loop steps body i obj = Some (Ok obj).
Proof.
  induction steps as [|steps IH]; intros i obj Hsteps Hbody.
  - simpl. rewrite lookup_ge_None_2 by lia. done.
  - simpl. destruct (obj !! i) as [element|] eqn:Hi; [|done].
    rewrite (Hbody i element (le_n i) Hi). simpl.
    apply IH; [lia|]. intros j e Hj. apply Hbody. lia.
Qed.

Lemma values_fixed (body : json -> option (outcome json))
      (items : list (string * json)) :
  Forall (fun kv => body (snd kv) = Some (Ok (snd kv))) items ->
  values_loop body items = Some (Ok items).
Proof.
  induction 1 as [|[k v] items Hv _ IH]; [done|]. simpl in *. by rewrite Hv, IH.
Qed.

Lemma expand_plate_free j :
  forall fuel in_list,
    plate_free j = true -> need j <= fuel ->
    expand_plates fuel j in_list = Some (Ok (InPlace j)).
Proof.
  induction j as [|b|n|s|l IH|items IH] using json_induction;
    intros fuel in_list Hfree Hfuel;
    (destruct fuel as [|fuel]; [simpl in Hfuel; lia|]); try done.
  - simpl in *. rewrite enumerate_fixed; [done|lia|].
    intros j element _ Hj.
    assert (In element l) as Hin by (apply list_elem_of_In; by eapply list_elem_of_lookup_2).
    rewrite List.Forall_forall in IH. rewrite forallb_forall in Hfree.
    rewrite (IH element Hin fuel true (Hfree element Hin)).
    + simpl. by rewrite list_insert_id.
    + pose proof (need_element l element Hin). lia.
  - simpl in Hfree, Hfuel. apply andb_true_iff in Hfree as [Htype Hvalues].
    cbn [expand_plates].
    assert (match Dict.get "type" items with
            | None => Ok false
            | Some (JStr ty) => Ok (PyStr.endswith "Plate" ty)
            | Some v => Raise (AttributeError
                          ("'" ++ type_name v ++ "' object has no attribute 'endswith'"))
            end = Ok false) as ->.
    { destruct (Dict.get "type" items) as [[| | |ty| |]|]; try done.
      by apply negb_true_iff in Htype as ->. }
    cbn [fbind]. rewrite values_fixed; [done|].
    apply List.Forall_forall. intros kv Hin.
    rewrite List.Forall_forall in IH. rewrite forallb_forall in Hvalues.
    rewrite (IH kv Hin fuel false (Hvalues kv Hin)); [done|].
    pose proof (need_value items kv Hin). lia.
Qed.

(** X20.  A document without plates (no dict whose [type] ends in
    [Plate]; every [type] is a string) is left as it is by
    [expand_plates], inside a list or not, and the call returns. *)
Theorem expand_plates_plate_free j fuel in_list :
  plate_free j = true -> need j <= fuel ->
  expand_plates fuel j in_list = Some (Ok (InPlace j)).
Proof. apply expand_plate_free. Qed.

(** Replacing the stars changes strings under [id] only. *)
Lemma plate_free_star_subst value j : plate_free (star_subst value j) = plate_free j.
Proof.
  induction j as [|b|n|s|l IH|items IH] using json_induction; try done.
  - simpl. induction IH as [|e l He _ IHl]; [done|]. simpl. by rewrite He, IHl.
  - simpl. f_equal.
    + rewrite (get_map_values "type"
                 (fun k v => if String.eqb k "id"
                             then star_value value (star_subst value v)
                             else star_subst value v) items).
      destruct (Dict.get "type" items) as [[| | |ty| |]|]; done.
    + induction IH as [|[k v] items Hv _ IHi]; [done|]. simpl in *.
      rewrite IHi. f_equal.
      destruct (String.eqb k "id"); [|done].
      destruct (star_subst value v) eqn:Hs; try done.
      simpl. destruct (PyStr.last s) as [c|]; [|done]. by destruct (Ascii.eqb c "*").
Qed.

Lemma need_star_subst value j : need (star_subst value j) = need j.
Proof.
  induction j as [|b|n|s|l IH|items IH] using json_induction; try done.
  - simpl. rewrite length_map. do 2 f_equal.
    induction IH as [|e l He _ IHl]; [done|]. simpl. by rewrite He, IHl.
  - simpl. f_equal.
    induction IH as [|[k v] items Hv _ IHi]; [done|]. simpl in *.
    rewrite IHi. f_equal.
    destruct (String.eqb k "id"); [|done].
    destruct (star_subst value v) eqn:Hs; try (by rewrite <- Hv).
    rewrite <- Hv. simpl. destruct (PyStr.last s) as [c|]; [|done].
    by destruct (Ascii.eqb c "*").
Qed.

(** *** A list with one plate *)

(** The loop over a list whose elements from [length done] on are
    elements without plates, then a plate, then elements without
    plates. *)
Lemma enumerate_plate f items a b template (post : list json) :
  plate items a b template -> names_ok template = true ->
  plate_free template = true -> need template <= S f ->
  Forall (fun e => plate_free e = true /\ need e <= S f) post ->
  forall pre1 done steps,
    Forall (fun e => plate_free e = true /\ need e <= S f) pre1 ->
    length pre1 + 1 + length post <= steps ->
    length pre1 + length (clones template a b) + length post <= steps ->
    enumerate_loop steps
      (fun parent i element =>
         let? r := expand_plates (S f) element true in
         Some (Ok (apply_expanded parent i r)))
      (length done) (done ++ pre1 ++ JDict items :: post)%list
    = Some (Ok (done ++ pre1 ++ clones template a b ++ post)%list).
Proof.
  intros Hplate Hnames Hfree Hneed Hpost.
  assert (forall e, plate_free e = true /\ need e <= S f ->
            expand_plates (S f) e true = Some (Ok (InPlace e))) as Hfix.
  { intros e [He Hn]. by apply expand_plate_free. }
  induction pre1 as [|e pre1 IH]; intros done steps Hpre Hs1 Hs2.
  - destruct steps as [|steps]; [simpl in Hs1; lia|]. cbn [enumerate_loop app].
    rewrite list_lookup_middle by done.
    rewrite (expand_plates_plate f items a b template true Hplate Hnames).
    cbn [fbind apply_expanded].
    assert (splice (done ++ JDict items :: post) (length done) (clones template a b)
            = (done ++ clones template a b ++ post)%list) as ->.
    { assert (drop (S (length done)) (done ++ JDict items :: post) = post) as Hdrop.
      { rewrite (cons_middle (JDict items) done post), app_assoc.
        replace (S (length done)) with (length (done ++ [JDict items]))
          by (rewrite length_app; simpl; lia).
        by rewrite drop_app_length. }
      unfold splice. by rewrite take_app_length, Hdrop. }
    apply enumerate_fixed.
    { rewrite !length_app. simpl in Hs2. lia. }
    intros j element Hj Hel.
    rewrite lookup_app_r in Hel by lia.
    assert (plate_free element = true /\ need element <= S f) as Helement.
    { apply list_elem_of_lookup_2, elem_of_app in Hel. destruct Hel as [Hc|Hp].
      - unfold clones in Hc. apply list_elem_of_fmap in Hc as (k & -> & _).
        by rewrite plate_free_star_subst, need_star_subst.
      - rewrite List.Forall_forall in Hpost. apply Hpost. by apply list_elem_of_In. }
    rewrite (Hfix element Helement). cbn [fbind apply_expanded].
    rewrite list_insert_id; [done|].
    rewrite lookup_app_r by lia. done.
  - destruct steps as [|steps]; [simpl in Hs1; lia|].
    apply Forall_cons in Hpre. destruct Hpre as [He Hpre].
    cbn [enumerate_loop app].
    rewrite list_lookup_middle by done.
    rewrite (Hfix e He). cbn [fbind apply_expanded].
    rewrite list_insert_id by (by rewrite list_lookup_middle).
    specialize (IH (done ++ [e])%list steps Hpre).
    rewrite length_app in IH. cbn [length] in IH, Hs1, Hs2.
    replace (length done + 1) with (S (length done)) in IH by lia.
    rewrite <- !app_assoc in IH. cbn [app] in IH.
    apply IH; lia.
Qed.

Lemma expand_plates_list_step fuel (l : list json) in_list :
  expand_plates (S fuel) (JList l) in_list
  = let? l' := enumerate_loop fuel
                 (fun parent i element =>
                    let? r := expand_plates fuel element true in
                    Some (Ok (apply_expanded parent i r)))
                 0 l in
    Some (Ok (InPlace (JList l'))).
Proof. done. Qed.

Lemma need_elements (l : list json) f :
  need (JList l) <= S f -> Forall (fun e => need e <= f) l /\ length l <= f.
Proof.
  simpl. intros Hl. split; [|lia].
  apply List.Forall_forall. intros e He. pose proof (need_element l e He). lia.
Qed.

(** X21.  The pass over a list that holds one plate (range [a:b], the
    ids of its template being names) among elements without plates: the
    plate is replaced, at its place, by the clones of the template for
    [a], ..., [b-1], the template itself being without plates, and every
    other element of the list is left as it is; this also holds when the
    range is empty, where the element behind the plate is not visited. *)
Theorem expand_plates_list fuel pre items post a b template in_list :
  forallb plate_free pre = true -> forallb plate_free post = true ->
  plate items a b template -> names_ok template = true ->
  plate_free template = true ->
  need (JList (pre ++ JDict items :: post)) <= fuel ->
  need (JList (pre ++ clones template a b ++ post)) <= fuel ->
  need template < fuel ->
  expand_plates fuel (JList (pre ++ JDict items :: post)) in_list
  = Some (Ok (InPlace (JList (pre ++ clones template a b ++ post)))).
Proof.
  intros Hpre Hpost Hplate Hnames Hfree Hfuel1 Hfuel2 Hfuel3.
  destruct fuel as [|[|f]]; [simpl in Hfuel1; lia| |].
  { simpl in Hfuel1. rewrite length_app in Hfuel1. simpl in Hfuel1. lia. }
  destruct (need_elements _ _ Hfuel1) as [Hneed1 Hlen1].
  destruct (need_elements _ _ Hfuel2) as [Hneed2 Hlen2].
  rewrite !length_app in *. simpl in Hlen1.
  apply Forall_app in Hneed1 as [Hn_pre Hn_rest].
  apply Forall_cons in Hn_rest as [_ Hn_post].
  assert (forall l, forallb plate_free l = true -> Forall (fun e => need e <= S f) l ->
                    Forall (fun e => plate_free e = true /\ need e <= S f) l) as Hboth.
  { intros l Hl Hn. rewrite forallb_forall in Hl.
    rewrite List.Forall_forall in *. intros e He. split; [by apply Hl|by apply Hn]. }
  pose proof (enumerate_plate f items a b template post Hplate Hnames Hfree ltac:(lia)
                (Hboth post Hpost Hn_post) pre [] (S f) (Hboth pre Hpre Hn_pre)
                ltac:(lia) ltac:(lia)) as Hloop.
  cbn [length app] in Hloop. by rewrite expand_plates_list_step, Hloop.
Qed.

Lemma plate_b_is_plate :
  plate plate_b 0 2
        (JDict [("id", JStr "b*"); ("type", JStr "Parameter");
                ("zeros", JList [JNum (NInt 1)])]).
Proof.
  split; [|split].
  - by exists "Plate".
  - by exists "0:2", "0", "2".
  - done.
Defined.

Lemma expand_plate_witness :
  expand_element 1 [JStr "x"; JDict plate_b; JStr "y"] 1
  = Some (Ok [JStr "x"; parameter_b "0"; parameter_b "1"; JStr "y"]) /\
  expand_plates 1 (JDict plate_b) false
  = Some (Raise (JSONParseError "plate works only when part of a list")).
Proof.
  destruct (expand_plate 0 [JStr "x"; JDict plate_b; JStr "y"] 1 plate_b 0 2 _
              eq_refl plate_b_is_plate eq_refl) as (Hlist & _ & _ & Halone).
  split; [exact Hlist|exact Halone].
Defined.

(** The whole pass over a document. *)
Example expand_document :
  expand_plates 9 (JDict [("parameters", JList [JDict plate_b; JStr "y"])]) false
  = Some (Ok (InPlace (JDict [("parameters",
                               JList [parameter_b "0"; parameter_b "1"; JStr "y"])]))).
Proof. reflexivity. Qed.

(** A plate that is the value of a key, not the element of a list. *)
Example expand_plate_under_key :
  expand_plates 3 (JDict [("parameters", JDict plate_b)]) false
  = Some (Raise plate_error).
Proof. reflexivity. Qed.

(** The list is spliced while it is enumerated: after a plate with an
    empty range the element that moves into its place is skipped, so a
    second plate right behind it is left as it is. *)
Example expand_after_empty_plate :
  let empty := JDict [("type", JStr "Plate"); ("range", JStr "0:0")] in
  expand_plates 9 (JList [empty; JDict plate_b]) false
  = Some (Ok (InPlace (JList [JDict plate_b]))).
Proof. reflexivity. Qed.

(** An id that is the empty string stops the expansion. *)
Example expand_empty_id :
  expand_plates 3
    (JList [JDict [("type", JStr "Plate"); ("range", JStr "0:1");
                   ("object", JDict [("id", JStr "")])]]) false
  = Some (Raise IndexError).
Proof. reflexivity. Qed.

Lemma expand_plates_plate_free_witness :
  expand_plates 12 (JDict [("parameters", JList [parameter_b "0"; JStr "y"])]) false
  = Some (Ok (InPlace (JDict [("parameters", JList [parameter_b "0"; JStr "y"])]))).
Proof.
  apply expand_plates_plate_free; [reflexivity|].
  apply Nat.leb_le. reflexivity.
Defined.

Lemma expand_plates_list_witness :
  expand_plates 20 (JList ([JStr "x"] ++ JDict plate_b :: [JStr "y"])) false
  = Some (Ok (InPlace (JList ([JStr "x"] ++ clones (parameter_b "*") 0 2 ++ [JStr "y"])))).
Proof.
  apply expand_plates_list; try reflexivity.
  - exact plate_b_is_plate.
  - apply Nat.leb_le. reflexivity.
  - apply Nat.leb_le. reflexivity.
  - apply Nat.leb_le. reflexivity.
Defined.

End PlatesFacts.

(** ** Passes over a document *)

Module DocumentsFacts.
Import Documents.

Lemma remove_comments_cons key v rest :
  remove_comments (JDict ((key, v) :: rest))
  = JDict (if is_comment key then items_of (remove_comments (JDict rest))
           else (key, remove_comments v) :: items_of (remove_comments (JDict rest))).
Proof. simpl. by destruct (is_comment key). Qed.

Lemma remove_comments_dict items :
  remove_comments (JDict items) = JDict (items_of (remove_comments (JDict items))).
Proof. done. Qed.

Lemma has_comment_remove_comments j : has_comment (remove_comments j) = false.
Proof.
  induction j as [| | | |l IH|items IH] using PlatesFacts.json_induction; try done.
  - simpl. induction IH as [|j l Hj _ IHl]; [done|]. simpl. by rewrite Hj, IHl.
  - induction IH as [|[key v] items Hv _ IHi]; [done|].
    rewrite remove_comments_cons. rewrite remove_comments_dict in IHi.
    destruct (is_comment key) eqn:Hkey; [exact IHi|].
    simpl in *. by rewrite Hkey, Hv, IHi.
Qed.

(** A document without such keys is left as it is. *)
Lemma remove_comments_nothing j : has_comment j = false -> remove_comments j = j.
Proof.
  induction j as [| | | |l IH|items IH] using PlatesFacts.json_induction; try done.
  - simpl. intros Hl. f_equal.
    induction IH as [|j l Hj _ IHl]; [done|]. simpl in Hl.
    apply orb_false_iff in Hl. destruct Hl as [H1 H2].
    simpl. by rewrite Hj, IHl.
  - induction IH as [|[key v] items Hv _ IHi]; [done|].
    intros Hall. simpl in Hall.
    apply orb_false_iff in Hall. destruct Hall as [H1 H2].
    apply orb_false_iff in H1. destruct H1 as [Hkey Hval].
    simpl in Hv, Hkey, Hval.
    rewrite remove_comments_cons, Hkey, (Hv Hval), (IHi H2). done.
Qed.

(** X7.  After [remove_comments] no dict of the document, at any depth,
    has a key that starts with an underscore. *)
Theorem remove_comments_clean j : has_comment (remove_comments j) = false.
Proof. apply has_comment_remove_comments. Qed.

(** X8.  [remove_comments] is idempotent: a second pass changes
    nothing. *)
Theorem remove_comments_idempotent j :
  remove_comments (remove_comments j) = remove_comments j.
Proof. apply remove_comments_nothing, has_comment_remove_comments. Qed.

(** X9.  What is left of a dict: a key that starts with an underscore is
    no longer a key, and every other key is a key exactly when it was
    one, with [remove_comments] applied to its value. *)
Theorem remove_comments_get items k :
  exists items',
    remove_comments (JDict items) = JDict items' /\
    Dict.get k items'
    = (if is_comment k then None
       else option_map remove_comments (Dict.get k items)).
Proof.
  exists (items_of (remove_comments (JDict items))). split; [done|].
  induction items as [|[key v] items IH].
  { simpl. by destruct (is_comment k). }
  rewrite remove_comments_cons.
  destruct (String.eqb k key) eqn:Heq.
  - apply String.eqb_eq in Heq. subst key.
    destruct (is_comment k) eqn:Hk.
    + simpl in *. exact IH.
    + simpl. by rewrite String.eqb_refl.
  - destruct (is_comment key) eqn:Hkey.
    + simpl in *. rewrite IH, Heq. done.
    + simpl in *. rewrite Heq, IH. done.
Qed.

(** *** [update_parameters] *)

Lemma get_app k (l1 l2 : list (string * json)) :
  Dict.get k (l1 ++ l2)%list
  = match Dict.get k l1 with Some v => Some v | None => Dict.get k l2 end.
Proof.
  induction l1 as [|[k' v] l1 IH]; [done|]. simpl.
  by destruct (String.eqb k k').
Qed.

Lemma get_filter_keys (f : string -> bool) k (items : list (string * json)) :
  Dict.get k (List.filter (fun kv => f (fst kv)) items)
  = if f k then Dict.get k items else None.
Proof.
  induction items as [|[k' v] items IH]; [by destruct (f k)|]. simpl.
  destruct (String.eqb k k') eqn:Heq.
  - apply String.eqb_eq in Heq. subst k'.
    destruct (f k) eqn:Hf; simpl.
    + by rewrite String.eqb_refl.
    + rewrite IH. by rewrite ?Hf.
  - destruct (f k'); simpl; [rewrite Heq|]; exact IH.
Qed.

(** X10.  The description of a [Parameter] (a dict whose [type] is one of
    the three names of the class) whose id is a key of [parameters], the
    entry there being a dict with a [tensor]: after [update_parameters]
    its [tensor] is the one of [parameters], the keys [id], [type],
    [dtype] and [nn] are as they were and every other key is gone, so
    none of the directives [full_like], [full], [zeros_like], [zeros],
    [ones_like], [ones], [eye] that [Parameter.from_json] tests before
    [tensor] is left. *)
Theorem update_parameters_replaces items parameters i entry t :
  is_parameter items = true ->
  Dict.get "id" items = Some (JStr i) ->
  Dict.get i parameters = Some (JDict entry) ->
  Dict.get "tensor" entry = Some t ->
  exists items',
    update_parameters (JDict items) parameters = Ok (JDict items') /\
    (forall k, Dict.get k items'
               = if String.eqb k "tensor" then Some t
                 else if is_kept k then Dict.get k items else None) /\
    first_directive items' = None.
Proof.
  intros Htype Hid Hentry Ht.
  set (items' := (List.filter (fun kv => is_kept (fst kv)) items ++ [("tensor", t)])%list).
  assert (forall k, Dict.get k items'
                    = if String.eqb k "tensor" then Some t
                      else if is_kept k then Dict.get k items else None) as Hget.
  { intros k. unfold items'. rewrite get_app, get_filter_keys. simpl.
    destruct (String.eqb k "tensor") eqn:Heq.
    - apply String.eqb_eq in Heq. subst k. done.
    - destruct (is_kept k); [|done]. by destruct (Dict.get k items). }
  exists items'. split; [|split; [exact Hget|]].
  - simpl. rewrite Htype. unfold update_parameter, Dict.item. rewrite Hid. simpl.
    unfold Dict.mem. rewrite Hentry. unfold new_tensor, Dict.item.
    rewrite Hentry. simpl. rewrite Ht. done.
  - unfold first_directive, Dict.mem. simpl. rewrite !Hget. done.
Qed.

(** X11.  A document in which no [Parameter] description that
    [update_parameters] reaches is listed in [parameters] is left as it
    is. *)
Theorem update_parameters_unlisted parameters j :
  unlisted parameters j = true -> update_parameters j parameters = Ok j.
Proof.
  induction j as [| | | |l IH|items IH] using PlatesFacts.json_induction; try done.
  - simpl. intros Hl.
    assert (omap_list (fun element => update_parameters element parameters) l = Ok l) as ->;
      [|done].
    induction IH as [|j l Hj _ IHl]; [done|]. simpl in Hl.
    apply andb_true_iff in Hl. destruct Hl as [H1 H2].
    simpl. by rewrite (Hj H1), (IHl H2).
  - simpl. destruct (is_parameter items) eqn:Htype.
    + unfold update_parameter, Dict.item.
      destruct (Dict.get "id" items) as [[| | |s| |]|]; try done. simpl.
      intros Hs. apply negb_true_iff in Hs. by rewrite Hs.
    + intros Hall.
      assert (omap_list (fun kv => let! v' := update_parameters (snd kv) parameters in
                                   Ok (fst kv, v')) items = Ok items) as ->; [|done].
      clear Htype. induction IH as [|[key v] items Hv _ IHi]; [done|]. simpl in Hall.
      apply andb_true_iff in Hall. destruct Hall as [H1 H2].
      simpl in *. by rewrite (Hv H1), (IHi H2).
Qed.

Lemma update_parameters_replaces_witness :
  exists items',
    update_parameters
      (JDict [("id", JStr "p"); ("type", JStr "Parameter");
              ("full", JList [JNum (NInt 2)]); ("value", JNum (NInt 1));
              ("dtype", JStr "torch.float64")])
      [("p", JDict [("tensor", JList [JNum (NInt 3); JNum (NInt 4)])])]
    = Ok (JDict items') /\
    (forall k, Dict.get k items'
               = if String.eqb k "tensor" then Some (JList [JNum (NInt 3); JNum (NInt 4)])
                 else if is_kept k
                      then Dict.get k [("id", JStr "p"); ("type", JStr "Parameter");
                                       ("full", JList [JNum (NInt 2)]);
                                       ("value", JNum (NInt 1));
                                       ("dtype", JStr "torch.float64")]
                      else None) /\
    first_directive items' = None.
Proof.
  apply (update_parameters_replaces
           [("id", JStr "p"); ("type", JStr "Parameter");
            ("full", JList [JNum (NInt 2)]); ("value", JNum (NInt 1));
            ("dtype", JStr "torch.float64")]
           [("p", JDict [("tensor", JList [JNum (NInt 3); JNum (NInt 4)])])]
           "p" [("tensor", JList [JNum (NInt 3); JNum (NInt 4)])]
           (JList [JNum (NInt 3); JNum (NInt 4)]));
    reflexivity.
Defined.

Lemma update_parameters_unlisted_witness :
  update_parameters
    (JDict [("model", JList [JDict [("id", JStr "q"); ("type", JStr "Parameter");
                                    ("zeros", JNum (NInt 2))]])])
    [("p", JDict [("tensor", JList [JNum (NInt 3)])])]
  = Ok (JDict [("model", JList [JDict [("id", JStr "q"); ("type", JStr "Parameter");
                                       ("zeros", JNum (NInt 2))]])]).
Proof. apply update_parameters_unlisted. reflexivity. Defined.

End DocumentsFacts.

(** ** [validate] *)

Module ValidateFacts.
Import Validate.

Lemma and_then_valid v1 v2 : and_then v1 v2 = Valid <-> v1 = Valid /\ v2 = Valid.
Proof. destruct v1; simpl; [tauto|]. split; [discriminate|intros [? _]; discriminate]. Qed.

Lemma for_all_valid {A} (body : A -> verdict) (l : list A) :
  for_all body l = Valid <-> forall a, In a l -> body a = Valid.
Proof.
  induction l as [|a l IH]; simpl.
  - split; [intros _ a []|done].
  - rewrite and_then_valid, IH. split.
    + intros [Ha Hl] b [<-|Hb]; [done|by apply Hl].
    + intros Hall. split; [apply Hall; by left|]. intros b Hb. apply Hall. by right.
Qed.

Lemma rule_of_in key (rules : list (string * list (string * json))) r :
  rule_of key rules = Some r -> In (key, r) rules.
Proof.
  induction rules as [|[k r'] rules IH]; [done|]. simpl.
  destruct (String.eqb key k) eqn:Heq.
  - apply String.eqb_eq in Heq. intros [= ->]. subst. by left.
  - intros Hr. right. by apply IH.
Qed.

Lemma all_instances_true xs rule_type :
  all_instances xs rule_type = Some true
  <-> Forall (fun x0 => isinstance x0 rule_type = Some true) xs.
Proof.
  induction xs as [|x0 xs IH]; simpl.
  - split; [constructor|done].
  - destruct (isinstance x0 rule_type) as [[|]|] eqn:Hx.
    + rewrite IH. split; [by constructor|]. by inversion 1.
    + split; [done|]. inversion 1; congruence.
    + split; [done|]. inversion 1; congruence.
Qed.

Lemma all_instances_known xs rule_type :
  types_get rule_type types <> None -> all_instances xs rule_type <> None.
Proof.
  intros Hknown. induction xs as [|x0 xs IH]; [done|]. simpl. unfold isinstance.
  destruct (types_get rule_type types) as [t|]; [|done]. by destruct (t x0).
Qed.

Lemma type_found_sound v list_ rule_types :
  type_found v list_ rule_types = Valid -> conforms v list_ rule_types.
Proof.
  induction rule_types as [|rule_type rest IH]; [done|]. simpl.
  assert (conforms v list_ rest -> conforms v list_ (rule_type :: rest)) as Hrest.
  { intros (rt & Hin & Hrt). exists rt. split; [by right|done]. }
  destruct list_.
  - destruct (iterate v) as [xs|] eqn:Hxs; [|done].
    destruct (all_instances xs rule_type) as [[|]|] eqn:Hall; [|by auto|done].
    intros _. exists rule_type. split; [by left|].
    exists xs. split; [done|]. by apply all_instances_true.
  - destruct (isinstance v rule_type) as [[|]|] eqn:Hv; [|by auto|done].
    intros _. exists rule_type. split; [by left|done].
Qed.

Lemma type_found_complete v list_ rule_types :
  Forall (fun rule_type => types_get rule_type types <> None) rule_types ->
  conforms v list_ rule_types -> type_found v list_ rule_types = Valid.
Proof.
  induction 1 as [|rule_type rest Hknown _ IH]; intros (rt & Hin & Hrt); [destruct Hin|].
  simpl. destruct list_.
  - destruct Hrt as (xs & Hxs & Hall). rewrite Hxs.
    pose proof (all_instances_known xs rule_type Hknown) as Hsome.
    destruct (all_instances xs rule_type) as [[|]|] eqn:Hhead; [done| |done].
    apply IH. exists rt. split.
    + destruct Hin as [<-|Hin]; [|done].
      apply all_instances_true in Hall. congruence.
    + exists xs. done.
  - unfold isinstance in *.
    destruct (types_get rule_type types) as [t|] eqn:Ht; [|done].
    destruct (t v) eqn:Htv; [done|].
    apply IH. exists rt. split; [|done].
    destruct Hin as [<-|Hin]; [|done]. rewrite Ht in Hrt. congruence.
Qed.

(** X12.  When [validate] returns without raising, every rule key that is
    not marked [optional: True] is a key of [data], and every key of
    [data] other than [id] and [type] has a rule, one of whose alternative
    types ([type] split at the bars) is the type of the value or, for a
    [list] rule, of every element the value iterates over. *)
Theorem validate_sound data rules :
  validate data rules = Valid ->
  (forall k r, In (k, r) rules -> optional r = false -> Dict.mem k data = true) /\
  (forall k v, In (k, v) data -> exempt k = false ->
     exists r t, rule_of k rules = Some r /\
                 Dict.get "type" r = Some (JStr t) /\
                 conforms v (is_list r) (PyStr.split "|" t)).
Proof.
  unfold validate. rewrite !and_then_valid, !for_all_valid.
  intros (_ & Hrequired & _ & Hcheck). split.
  - intros k r Hin Hopt. specialize (Hrequired (k, r) Hin). simpl in Hrequired.
    rewrite Hopt in Hrequired. by destruct (Dict.mem k data).
  - intros k v Hin Hex. specialize (Hcheck (k, v) Hin).
    unfold check_type in Hcheck. simpl in Hcheck. rewrite Hex in Hcheck.
    destruct (rule_of k rules) as [r|]; [|done].
    destruct (Dict.get "type" r) as [[| | |t| |]|] eqn:Ht; try done.
    exists r, t. split; [done|]. split; [done|]. by apply type_found_sound.
Qed.

(** X13.  With rules whose types name types of [types] only, [validate]
    returns without raising whenever every rule key not marked
    [optional: True] is a key of [data] and every key of [data] other than
    [id] and [type] has a rule to which its value conforms; the values
    under [id] and [type] are not looked at. *)
Theorem validate_complete data rules :
  (forall k r, In (k, r) rules -> known r) ->
  (forall k r, In (k, r) rules -> optional r = false -> Dict.mem k data = true) ->
  (forall k v, In (k, v) data -> exempt k = false ->
     exists r t, rule_of k rules = Some r /\
                 Dict.get "type" r = Some (JStr t) /\
                 conforms v (is_list r) (PyStr.split "|" t)) ->
  validate data rules = Valid.
Proof.
  intros Hknown Hrequired Hconform.
  unfold validate. rewrite !and_then_valid, !for_all_valid.
  split; [|split; [|split]].
  - intros [k r] Hin. simpl. destruct (Hknown k r Hin) as (t & Ht & _).
    unfold Dict.mem. by rewrite Ht.
  - intros [k r] Hin. simpl. destruct (optional r) eqn:Hopt.
    + by rewrite andb_false_r.
    + by rewrite (Hrequired k r Hin Hopt).
  - intros [k v] Hin. simpl. destruct (exempt k) eqn:Hex; [done|].
    destruct (Hconform k v Hin Hex) as (r & t & -> & _). done.
  - intros [k v] Hin. unfold check_type. simpl. destruct (exempt k) eqn:Hex; [done|].
    destruct (Hconform k v Hin Hex) as (r & t & Hr & Ht & Hc). rewrite Hr, Ht.
    destruct (Hknown k r (rule_of_in _ _ _ Hr)) as (t' & Ht' & Hall).
    rewrite Ht in Ht'. injection Ht' as <-. by apply type_found_complete.
Qed.

Lemma for_all_first {A} (body : A -> verdict) (l1 l2 : list A) a f :
  (forall b, In b l1 -> body b = Valid) -> body a = Invalid f ->
  for_all body (l1 ++ a :: l2) = Invalid f.
Proof.
  intros Hl1 Ha. induction l1 as [|b l1 IH]; simpl.
  - by rewrite Ha.
  - rewrite (Hl1 b (or_introl eq_refl)). simpl. apply IH.
    intros c Hc. apply Hl1. by right.
Qed.

(** X14.  With rules that all have a [type]: the first rule key, in the
    order of [rules], that is not a key of [data] and is not marked
    [optional: True] is the one [validate] reports as missing, whatever
    else [data] holds (keys without a rule, values of the wrong type). *)
Theorem validate_missing_key data rules1 k r rules2 :
  (forall k' r', In (k', r') (rules1 ++ (k, r) :: rules2) ->
                 Dict.mem "type" r' = true) ->
  (forall k' r', In (k', r') rules1 ->
                 Dict.mem k' data = true \/ optional r' = true) ->
  Dict.mem k data = false -> optional r = false ->
  validate data (rules1 ++ (k, r) :: rules2) = Invalid (MissingKey k).
Proof.
  intros Htyped Hbefore Hmissing Hopt. unfold validate.
  assert (for_all (fun kr : string * list (string * json) =>
                     if Dict.mem "type" (snd kr) then Valid else Invalid AssertionError)
                  (rules1 ++ (k, r) :: rules2) = Valid) as ->.
  { apply for_all_valid. intros [k' r'] Hin. simpl. by rewrite (Htyped k' r' Hin). }
  simpl. rewrite (for_all_first _ rules1 rules2 (k, r) (MissingKey k)); [done| |].
  - intros [k' r'] Hin. simpl.
    destruct (Hbefore k' r' Hin) as [-> | ->]; [done|by rewrite andb_false_r].
  - simpl. by rewrite Hmissing, Hopt.
Qed.

Lemma validate_sound_witness :
  let data := [("id", JStr "x"); ("type", JStr "T");
               ("rate", JNum (NFloat 5 (-1)));
               ("flags", JList [JBool true; JNum (NInt 2)])] in
  let rules := [("rate", [("type", JStr "float|int")]);
                ("flags", [("type", JStr "int"); ("list", JBool true)]);
                ("note", [("type", JStr "string"); ("optional", JBool true)])] in
  (forall k r, In (k, r) rules -> optional r = false -> Dict.mem k data = true) /\
  (forall k v, In (k, v) data -> exempt k = false ->
     exists r t, rule_of k rules = Some r /\
                 Dict.get "type" r = Some (JStr t) /\
                 conforms v (is_list r) (PyStr.split "|" t)).
Proof. intros data rules. apply (validate_sound data rules). reflexivity. Defined.

Lemma validate_complete_witness :
  validate [("id", JNum (NInt 3)); ("rate", JBool true)]
           [("rate", [("type", JStr "float|int")])]
  = Valid.
Proof.
  apply validate_complete.
  - intros k r [[= <- <-]|[]]. exists "float|int". split; [reflexivity|].
    repeat constructor; discriminate.
  - intros k r [[= <- <-]|[]] _. reflexivity.
  - intros k v [[= <- <-]|[[= <- <-]|[]]] Hex; [discriminate Hex|].
    exists [("type", JStr "float|int")], "float|int".
    split; [reflexivity|]. split; [reflexivity|].
    exists "int". split; [right; left; reflexivity|reflexivity].
Defined.

Lemma validate_missing_key_witness :
  validate [("junk", JNull)]
           ([("a", [("type", JStr "int"); ("optional", JBool true)])]
            ++ ("b", [("type", JStr "int")]) :: [("c", [("type", JStr "int")])])
  = Invalid (MissingKey "b").
Proof.
  apply validate_missing_key.
  - intros k' r' [[= <- <-]|[[= <- <-]|[[= <- <-]|[]]]]; reflexivity.
  - intros k' r' [[= <- <-]|[]]. right. reflexivity.
  - reflexivity.
  - reflexivity.
Defined.

End ValidateFacts.
